(** * Group-membership coordinator of kafka-python

    A shallow embedding of [kafka/coordinator/base.py] ([BaseCoordinator],
    [HeartbeatTask]) and of the error classes of [kafka/common.py], with the
    properties of the membership state machine stated and settled on it.

    Conventions.  Integers are [Z].  Wall-clock instants and durations are
    [Z] milliseconds.  Python strings are [string], byte strings are
    [list byte].  The state of the coordinator, of its heartbeat task, of the
    heartbeat clock and of the client transport is threaded explicitly
    through every operation as one [World]. *)

From Stdlib Require Import ZArith List String Bool Lia.
Import ListNotations.
Open Scope string_scope.
Open Scope list_scope.
Open Scope Z_scope.

Set Implicit Arguments.

(** ** kafka/common.py: the exception classes *)

Module Errors.

(** Every class deriving from [KafkaError] in [kafka/common.py]. *)
Inductive ErrorClass : Type :=
  | KafkaError
  | IllegalStateError
  | IllegalArgumentError
  | NoBrokersAvailable
  | NodeNotReadyError
  | CorrelationIdError
  | Cancelled
  | TooManyInFlightRequests
  | StaleMetadata
  | BrokerResponseError
  | NoError
  | UnknownError
  | OffsetOutOfRangeError
  | InvalidMessageError
  | UnknownTopicOrPartitionError
  | InvalidFetchRequestError
  | LeaderNotAvailableError
  | NotLeaderForPartitionError
  | RequestTimedOutError
  | BrokerNotAvailableError
  | ReplicaNotAvailableError
  | MessageSizeTooLargeError
  | StaleControllerEpochError
  | OffsetMetadataTooLargeError
  | StaleLeaderEpochCodeError
  | GroupLoadInProgressError
  | GroupCoordinatorNotAvailableError
  | NotCoordinatorForGroupError
  | InvalidTopicError
  | RecordListTooLargeError
  | NotEnoughReplicasError
  | NotEnoughReplicasAfterAppendError
  | InvalidRequiredAcksError
  | IllegalGenerationError
  | InconsistentGroupProtocolError
  | InvalidGroupIdError
  | UnknownMemberIdError
  | InvalidSessionTimeoutError
  | RebalanceInProgressError
  | InvalidCommitOffsetSizeError
  | TopicAuthorizationFailedError
  | GroupAuthorizationFailedError
  | ClusterAuthorizationFailedError
  | KafkaUnavailableError
  | KafkaTimeoutError
  | FailedPayloadsError
  | ConnectionError
  | BufferUnderflowError
  | ChecksumError
  | ConsumerFetchSizeTooSmall
  | ConsumerNoMoreData
  | ConsumerTimeout
  | ProtocolError
  | UnsupportedCodecError
  | KafkaConfigurationError
  | AsyncProducerQueueFull.

(** The class attribute [retriable]: [False] on [KafkaError], inherited
    unless a class body overrides it. *)
Definition retriable (c : ErrorClass) : bool :=
  match c with
  | NoBrokersAvailable
  | NodeNotReadyError
  | CorrelationIdError
  | Cancelled
  | TooManyInFlightRequests
  | StaleMetadata
  | LeaderNotAvailableError
  | NotLeaderForPartitionError
  | RequestTimedOutError
  | GroupLoadInProgressError
  | GroupCoordinatorNotAvailableError
  | NotCoordinatorForGroupError
  | ConnectionError => true
  | _ => false
  end.

(** The class attribute [errno] of the broker response errors
    ([BrokerResponseError] itself carries [None]). *)
Definition errno (c : ErrorClass) : option Z :=
  match c with
  | NoError => Some 0
  | UnknownError => Some (-1)
  | OffsetOutOfRangeError => Some 1
  | InvalidMessageError => Some 2
  | UnknownTopicOrPartitionError => Some 3
  | InvalidFetchRequestError => Some 4
  | LeaderNotAvailableError => Some 5
  | NotLeaderForPartitionError => Some 6
  | RequestTimedOutError => Some 7
  | BrokerNotAvailableError => Some 8
  | ReplicaNotAvailableError => Some 9
  | MessageSizeTooLargeError => Some 10
  | StaleControllerEpochError => Some 11
  | OffsetMetadataTooLargeError => Some 12
  | StaleLeaderEpochCodeError => Some 13
  | GroupLoadInProgressError => Some 14
  | GroupCoordinatorNotAvailableError => Some 15
  | NotCoordinatorForGroupError => Some 16
  | InvalidTopicError => Some 17
  | RecordListTooLargeError => Some 18
  | NotEnoughReplicasError => Some 19
  | NotEnoughReplicasAfterAppendError => Some 20
  | InvalidRequiredAcksError => Some 21
  | IllegalGenerationError => Some 22
  | InconsistentGroupProtocolError => Some 23
  | InvalidGroupIdError => Some 24
  | UnknownMemberIdError => Some 25
  | InvalidSessionTimeoutError => Some 26
  | RebalanceInProgressError => Some 27
  | InvalidCommitOffsetSizeError => Some 28
  | TopicAuthorizationFailedError => Some 29
  | GroupAuthorizationFailedError => Some 30
  | ClusterAuthorizationFailedError => Some 31
  | _ => None
  end.

(** [_iter_broker_errors]: the module members that are strict subclasses of
    [BrokerResponseError], in the name order of [inspect.getmembers]. *)
Definition _iter_broker_errors : list ErrorClass :=
  [ BrokerNotAvailableError; ClusterAuthorizationFailedError;
    GroupAuthorizationFailedError; GroupCoordinatorNotAvailableError;
    GroupLoadInProgressError; IllegalGenerationError;
    InconsistentGroupProtocolError; InvalidCommitOffsetSizeError;
    InvalidFetchRequestError; InvalidGroupIdError; InvalidMessageError;
    InvalidRequiredAcksError; InvalidSessionTimeoutError; InvalidTopicError;
    LeaderNotAvailableError; MessageSizeTooLargeError; NoError;
    NotCoordinatorForGroupError; NotEnoughReplicasAfterAppendError;
    NotEnoughReplicasError; NotLeaderForPartitionError;
    OffsetMetadataTooLargeError; OffsetOutOfRangeError;
    RebalanceInProgressError; RecordListTooLargeError;
    ReplicaNotAvailableError; RequestTimedOutError;
    StaleControllerEpochError; StaleLeaderEpochCodeError;
    TopicAuthorizationFailedError; UnknownError; UnknownMemberIdError;
    UnknownTopicOrPartitionError ].

(** A Python [dict] with integer keys, as an association list in which a
    key occurs once: storing under a present key replaces its value. *)
Fixpoint dict_set (k : Z) (v : ErrorClass) (d : list (Z * ErrorClass))
  : list (Z * ErrorClass) :=
  match d with
  | [] => [(k, v)]
  | (k', v') :: d' =>
      if k' =? k then (k, v) :: d' else (k', v') :: dict_set k v d'
  end.

Fixpoint dict_get (d : list (Z * ErrorClass)) (k : Z) (default : ErrorClass)
  : ErrorClass :=
  match d with
  | [] => default
  | (k', v) :: d' => if k' =? k then v else dict_get d' k default
  end.

(** [kafka_errors = dict([(x.errno, x) for x in _iter_broker_errors()])] *)
Definition kafka_errors : list (Z * ErrorClass) :=
  fold_left
    (fun d x => match errno x with Some n => dict_set n x d | None => d end)
    _iter_broker_errors [].

Definition for_code (error_code : Z) : ErrorClass :=
  dict_get kafka_errors error_code UnknownError.

End Errors.

Import Errors.

(** ** kafka/protocol: the messages exchanged with the coordinator

    The wire codecs are outside this development; a message is the record
    of the fields [base.py] reads or writes. *)

Definition bytes : Type := list Byte.byte.

Module JoinGroupResponse.
Record t : Type := {
  error_code : Z;
  generation_id : Z;
  group_protocol : string;
  leader_id : string;
  member_id : string;
  members : list (string * bytes)
}.
End JoinGroupResponse.

Module SyncGroupResponse.
Record t : Type := { error_code : Z; member_assignment : bytes }.
End SyncGroupResponse.

Module HeartbeatResponse.
Record t : Type := { error_code : Z }.
End HeartbeatResponse.

Module LeaveGroupResponse.
Record t : Type := { error_code : Z }.
End LeaveGroupResponse.

Module GroupCoordinatorResponse.
Record t : Type := {
  error_code : Z;
  coordinator_id : Z;
  host : string;
  port : Z
}.
End GroupCoordinatorResponse.

Inductive Request : Type :=
  | JoinGroupRequest (group : string) (session_timeout : Z)
      (member_id : string) (protocol_type : string)
      (group_protocols : list (string * bytes))
  | SyncGroupRequest (group : string) (generation_id : Z)
      (member_id : string) (group_assignment : list (string * bytes))
  | HeartbeatRequest (group : string) (generation_id : Z) (member_id : string)
  | LeaveGroupRequest (group : string) (member_id : string)
  | GroupCoordinatorRequest (group : string).

(** Modelled from the spec: the constants [DEFAULT_GENERATION_ID] of
    [OffsetCommitRequest] and [UNKNOWN_MEMBER_ID] of [JoinGroupRequest]
    ([kafka/protocol] is not part of the sources at hand); the spec gives
    -1 for the former and the empty string for the latter. *)
Definition DEFAULT_GENERATION_ID : Z := -1.

(** Modelled from the spec: [JoinGroupRequest.UNKNOWN_MEMBER_ID], the empty
    string. *)
Definition UNKNOWN_MEMBER_ID : string := "".

(** A value that is either [bytes] already or carries an [encode()]
    method ([x if isinstance(x, bytes) else x.encode()]). *)
Inductive Encodable : Type :=
  | Raw (b : bytes)
  | HasEncode (encoded : bytes).

Definition to_bytes (x : Encodable) : bytes :=
  match x with
  | Raw b => b
  | HasEncode encoded => encoded
  end.

(** ** Exceptions and futures *)

(** The arguments an error is constructed with in [base.py]. *)
Inductive Arg : Type :=
  | ArgString (s : string)
  | ArgNode (node_id : option Z)
  | ArgResponse (r : JoinGroupResponse.t).

(** What is handed to [future.failure]: an instance of a [kafka.common]
    class, built by calling the class; the class object itself; or an exception
    foreign to [kafka.common] (raised by the group policy or the
    transport). *)
Inductive Thrown : Type :=
  | Instance (cls : ErrorClass) (args : list Arg)
  | Class (cls : ErrorClass)
  | Foreign (name : string).

Inductive Value : Type :=
  | VNone
  | VBytes (b : bytes)
  | VNode (node_id : option Z).

(** The request whose reply completes a pending future, that is, the
    response handler attached with [add_callback] and the [add_errback]
    that goes with it. *)
Inductive Awaited : Type :=
  | AwaitJoin
  | AwaitSync
  | AwaitCoordinator
  | AwaitLeave
  | AwaitMetadata.

(** Modelled from the spec: [kafka.future.Future], a one-shot completion
    cell on which exactly one of [success(value)] and [failure(error)] is
    delivered; [chain] forwards the outcome of one cell into another. *)
Inductive Future : Type :=
  | Pending (request : Awaited)
  | Succeeded (value : Value)
  | Failed (exception : Thrown).

(** Modelled from the spec: [Future.retriable()], the [retriable] attribute
    of the stored exception; an exception without the attribute is not
    retriable. *)
Definition future_retriable (exception : Thrown) : bool :=
  match exception with
  | Instance cls _ => retriable cls
  | Class cls => retriable cls
  | Foreign _ => false
  end.

(** [isinstance(exception, (UnknownMemberIdError, RebalanceInProgressError,
    IllegalGenerationError))]; none of the three has a subclass. *)
Definition isinstance_restart (exception : Thrown) : bool :=
  match exception with
  | Instance UnknownMemberIdError _
  | Instance RebalanceInProgressError _
  | Instance IllegalGenerationError _ => true
  | _ => false
  end.

(** ** The state *)

Record Config : Type := {
  group_id : string;
  session_timeout_ms : Z;
  heartbeat_interval_ms : Z;
  retry_backoff_ms : Z
}.

Definition DEFAULT_CONFIG : Config :=
  {| group_id := "kafka-python-default-group";
     session_timeout_ms := 30000;
     heartbeat_interval_ms := 3000;
     retry_backoff_ms := 100 |}.

(** What the coordinator does to its collaborators, in order: calls of the
    abstract hooks of the subclass, requests handed to [client.send], and
    [time.sleep]. *)
Inductive Effect : Type :=
  | OnJoinPrepare (generation : Z) (member_id : string)
  | OnJoinComplete (generation : Z) (member_id : string)
      (protocol : option string) (member_assignment_bytes : Value)
  | Send (node_id : option Z) (request : Request)
  | Sleep (ms : Z).

(** One record for the coordinator ([config] .. [protocol]), the heartbeat
    clock ([last_session_reset] .. [last_receive]), the heartbeat task
    ([_request_in_flight]), the client transport ([is_disconnected] ..
    [heartbeats_outstanding]) and the wall clock. *)
Record World : Type := {
  config : Config;  (* the keyword arguments merged into DEFAULT_CONFIG *)
  generation : Z;  (* self.generation *)
  member_id : string;  (* self.member_id *)
  coordinator_id : option Z;  (* self.coordinator_id *)
  rejoin_needed : bool;  (* self.rejoin_needed *)
  needs_join_prepare : bool;  (* self.needs_join_prepare *)
  protocol : option string;  (* self.protocol, unset until a join succeeds *)
  last_session_reset : Z;  (* heartbeat clock *)
  last_send : Z;  (* heartbeat clock *)
  last_receive : Z;  (* heartbeat clock *)
  _request_in_flight : bool;  (* HeartbeatTask._request_in_flight *)
  is_disconnected : Z -> bool;  (* client.is_disconnected(node_id) *)
  ready : Z -> bool;  (* client.ready(node_id) *)
  least_loaded_node : option Z;  (* client.least_loaded_node() *)
  add_group_coordinator : GroupCoordinatorResponse.t -> bool;  (* client.cluster.add_group_coordinator(group_id, response) *)
  scheduled : option Z;  (* the scheduler entry of the heartbeat task: its due time *)
  heartbeats_outstanding : nat;  (* heartbeat requests sent and not yet answered *)
  now : Z;  (* time.time() *)
  trace : list Effect  (* calls made on the transport and on the group policy, oldest first *)
}.

Definition set_generation (v : Z) (w : World) : World :=
  {| config := config w; generation := v; member_id := member_id w;
     coordinator_id := coordinator_id w; rejoin_needed := rejoin_needed w;
     needs_join_prepare := needs_join_prepare w; protocol := protocol w;
     last_session_reset := last_session_reset w; last_send := last_send w;
     last_receive := last_receive w;
     _request_in_flight := _request_in_flight w;
     is_disconnected := is_disconnected w; ready := ready w;
     least_loaded_node := least_loaded_node w;
     add_group_coordinator := add_group_coordinator w;
     scheduled := scheduled w;
     heartbeats_outstanding := heartbeats_outstanding w; now := now w;
     trace := trace w |}.

Definition set_member_id (v : string) (w : World) : World :=
  {| config := config w; generation := generation w; member_id := v;
     coordinator_id := coordinator_id w; rejoin_needed := rejoin_needed w;
     needs_join_prepare := needs_join_prepare w; protocol := protocol w;
     last_session_reset := last_session_reset w; last_send := last_send w;
     last_receive := last_receive w;
     _request_in_flight := _request_in_flight w;
     is_disconnected := is_disconnected w; ready := ready w;
     least_loaded_node := least_loaded_node w;
     add_group_coordinator := add_group_coordinator w;
     scheduled := scheduled w;
     heartbeats_outstanding := heartbeats_outstanding w; now := now w;
     trace := trace w |}.

Definition set_coordinator_id (v : option Z) (w : World) : World :=
  {| config := config w; generation := generation w;
     member_id := member_id w; coordinator_id := v;
     rejoin_needed := rejoin_needed w;
     needs_join_prepare := needs_join_prepare w; protocol := protocol w;
     last_session_reset := last_session_reset w; last_send := last_send w;
     last_receive := last_receive w;
     _request_in_flight := _request_in_flight w;
     is_disconnected := is_disconnected w; ready := ready w;
     least_loaded_node := least_loaded_node w;
     add_group_coordinator := add_group_coordinator w;
     scheduled := scheduled w;
     heartbeats_outstanding := heartbeats_outstanding w; now := now w;
     trace := trace w |}.

Definition set_rejoin_needed (v : bool) (w : World) : World :=
  {| config := config w; generation := generation w;
     member_id := member_id w; coordinator_id := coordinator_id w;
     rejoin_needed := v; needs_join_prepare := needs_join_prepare w;
     protocol := protocol w; last_session_reset := last_session_reset w;
     last_send := last_send w; last_receive := last_receive w;
     _request_in_flight := _request_in_flight w;
     is_disconnected := is_disconnected w; ready := ready w;
     least_loaded_node := least_loaded_node w;
     add_group_coordinator := add_group_coordinator w;
     scheduled := scheduled w;
     heartbeats_outstanding := heartbeats_outstanding w; now := now w;
     trace := trace w |}.

Definition set_needs_join_prepare (v : bool) (w : World) : World :=
  {| config := config w; generation := generation w;
     member_id := member_id w; coordinator_id := coordinator_id w;
     rejoin_needed := rejoin_needed w; needs_join_prepare := v;
     protocol := protocol w; last_session_reset := last_session_reset w;
     last_send := last_send w; last_receive := last_receive w;
     _request_in_flight := _request_in_flight w;
     is_disconnected := is_disconnected w; ready := ready w;
     least_loaded_node := least_loaded_node w;
     add_group_coordinator := add_group_coordinator w;
     scheduled := scheduled w;
     heartbeats_outstanding := heartbeats_outstanding w; now := now w;
     trace := trace w |}.

Definition set_protocol (v : option string) (w : World) : World :=
  {| config := config w; generation := generation w;
     member_id := member_id w; coordinator_id := coordinator_id w;
     rejoin_needed := rejoin_needed w;
     needs_join_prepare := needs_join_prepare w; protocol := v;
     last_session_reset := last_session_reset w; last_send := last_send w;
     last_receive := last_receive w;
     _request_in_flight := _request_in_flight w;
     is_disconnected := is_disconnected w; ready := ready w;
     least_loaded_node := least_loaded_node w;
     add_group_coordinator := add_group_coordinator w;
     scheduled := scheduled w;
     heartbeats_outstanding := heartbeats_outstanding w; now := now w;
     trace := trace w |}.

Definition set_last_session_reset (v : Z) (w : World) : World :=
  {| config := config w; generation := generation w;
     member_id := member_id w; coordinator_id := coordinator_id w;
     rejoin_needed := rejoin_needed w;
     needs_join_prepare := needs_join_prepare w; protocol := protocol w;
     last_session_reset := v; last_send := last_send w;
     last_receive := last_receive w;
     _request_in_flight := _request_in_flight w;
     is_disconnected := is_disconnected w; ready := ready w;
     least_loaded_node := least_loaded_node w;
     add_group_coordinator := add_group_coordinator w;
     scheduled := scheduled w;
     heartbeats_outstanding := heartbeats_outstanding w; now := now w;
     trace := trace w |}.

Definition set_last_send (v : Z) (w : World) : World :=
  {| config := config w; generation := generation w;
     member_id := member_id w; coordinator_id := coordinator_id w;
     rejoin_needed := rejoin_needed w;
     needs_join_prepare := needs_join_prepare w; protocol := protocol w;
     last_session_reset := last_session_reset w; last_send := v;
     last_receive := last_receive w;
     _request_in_flight := _request_in_flight w;
     is_disconnected := is_disconnected w; ready := ready w;
     least_loaded_node := least_loaded_node w;
     add_group_coordinator := add_group_coordinator w;
     scheduled := scheduled w;
     heartbeats_outstanding := heartbeats_outstanding w; now := now w;
     trace := trace w |}.

Definition set_last_receive (v : Z) (w : World) : World :=
  {| config := config w; generation := generation w;
     member_id := member_id w; coordinator_id := coordinator_id w;
     rejoin_needed := rejoin_needed w;
     needs_join_prepare := needs_join_prepare w; protocol := protocol w;
     last_session_reset := last_session_reset w; last_send := last_send w;
     last_receive := v; _request_in_flight := _request_in_flight w;
     is_disconnected := is_disconnected w; ready := ready w;
     least_loaded_node := least_loaded_node w;
     add_group_coordinator := add_group_coordinator w;
     scheduled := scheduled w;
     heartbeats_outstanding := heartbeats_outstanding w; now := now w;
     trace := trace w |}.

Definition set_request_in_flight (v : bool) (w : World) : World :=
  {| config := config w; generation := generation w;
     member_id := member_id w; coordinator_id := coordinator_id w;
     rejoin_needed := rejoin_needed w;
     needs_join_prepare := needs_join_prepare w; protocol := protocol w;
     last_session_reset := last_session_reset w; last_send := last_send w;
     last_receive := last_receive w; _request_in_flight := v;
     is_disconnected := is_disconnected w; ready := ready w;
     least_loaded_node := least_loaded_node w;
     add_group_coordinator := add_group_coordinator w;
     scheduled := scheduled w;
     heartbeats_outstanding := heartbeats_outstanding w; now := now w;
     trace := trace w |}.

Definition set_is_disconnected (v : Z -> bool) (w : World) : World :=
  {| config := config w; generation := generation w;
     member_id := member_id w; coordinator_id := coordinator_id w;
     rejoin_needed := rejoin_needed w;
     needs_join_prepare := needs_join_prepare w; protocol := protocol w;
     last_session_reset := last_session_reset w; last_send := last_send w;
     last_receive := last_receive w;
     _request_in_flight := _request_in_flight w; is_disconnected := v;
     ready := ready w; least_loaded_node := least_loaded_node w;
     add_group_coordinator := add_group_coordinator w;
     scheduled := scheduled w;
     heartbeats_outstanding := heartbeats_outstanding w; now := now w;
     trace := trace w |}.

Definition set_ready (v : Z -> bool) (w : World) : World :=
  {| config := config w; generation := generation w;
     member_id := member_id w; coordinator_id := coordinator_id w;
     rejoin_needed := rejoin_needed w;
     needs_join_prepare := needs_join_prepare w; protocol := protocol w;
     last_session_reset := last_session_reset w; last_send := last_send w;
     last_receive := last_receive w;
     _request_in_flight := _request_in_flight w;
     is_disconnected := is_disconnected w; ready := v;
     least_loaded_node := least_loaded_node w;
     add_group_coordinator := add_group_coordinator w;
     scheduled := scheduled w;
     heartbeats_outstanding := heartbeats_outstanding w; now := now w;
     trace := trace w |}.

Definition set_least_loaded_node (v : option Z) (w : World) : World :=
  {| config := config w; generation := generation w;
     member_id := member_id w; coordinator_id := coordinator_id w;
     rejoin_needed := rejoin_needed w;
     needs_join_prepare := needs_join_prepare w; protocol := protocol w;
     last_session_reset := last_session_reset w; last_send := last_send w;
     last_receive := last_receive w;
     _request_in_flight := _request_in_flight w;
     is_disconnected := is_disconnected w; ready := ready w;
     least_loaded_node := v;
     add_group_coordinator := add_group_coordinator w;
     scheduled := scheduled w;
     heartbeats_outstanding := heartbeats_outstanding w; now := now w;
     trace := trace w |}.

Definition set_scheduled (v : option Z) (w : World) : World :=
  {| config := config w; generation := generation w;
     member_id := member_id w; coordinator_id := coordinator_id w;
     rejoin_needed := rejoin_needed w;
     needs_join_prepare := needs_join_prepare w; protocol := protocol w;
     last_session_reset := last_session_reset w; last_send := last_send w;
     last_receive := last_receive w;
     _request_in_flight := _request_in_flight w;
     is_disconnected := is_disconnected w; ready := ready w;
     least_loaded_node := least_loaded_node w;
     add_group_coordinator := add_group_coordinator w; scheduled := v;
     heartbeats_outstanding := heartbeats_outstanding w; now := now w;
     trace := trace w |}.

Definition set_heartbeats_outstanding (v : nat) (w : World) : World :=
  {| config := config w; generation := generation w;
     member_id := member_id w; coordinator_id := coordinator_id w;
     rejoin_needed := rejoin_needed w;
     needs_join_prepare := needs_join_prepare w; protocol := protocol w;
     last_session_reset := last_session_reset w; last_send := last_send w;
     last_receive := last_receive w;
     _request_in_flight := _request_in_flight w;
     is_disconnected := is_disconnected w; ready := ready w;
     least_loaded_node := least_loaded_node w;
     add_group_coordinator := add_group_coordinator w;
     scheduled := scheduled w; heartbeats_outstanding := v; now := now w;
     trace := trace w |}.

Definition set_now (v : Z) (w : World) : World :=
  {| config := config w; generation := generation w;
     member_id := member_id w; coordinator_id := coordinator_id w;
     rejoin_needed := rejoin_needed w;
     needs_join_prepare := needs_join_prepare w; protocol := protocol w;
     last_session_reset := last_session_reset w; last_send := last_send w;
     last_receive := last_receive w;
     _request_in_flight := _request_in_flight w;
     is_disconnected := is_disconnected w; ready := ready w;
     least_loaded_node := least_loaded_node w;
     add_group_coordinator := add_group_coordinator w;
     scheduled := scheduled w;
     heartbeats_outstanding := heartbeats_outstanding w; now := v;
     trace := trace w |}.

Definition set_trace (v : list Effect) (w : World) : World :=
  {| config := config w; generation := generation w;
     member_id := member_id w; coordinator_id := coordinator_id w;
     rejoin_needed := rejoin_needed w;
     needs_join_prepare := needs_join_prepare w; protocol := protocol w;
     last_session_reset := last_session_reset w; last_send := last_send w;
     last_receive := last_receive w;
     _request_in_flight := _request_in_flight w;
     is_disconnected := is_disconnected w; ready := ready w;
     least_loaded_node := least_loaded_node w;
     add_group_coordinator := add_group_coordinator w;
     scheduled := scheduled w;
     heartbeats_outstanding := heartbeats_outstanding w; now := now w;
     trace := v |}.

(** [BaseCoordinator.__init__]; the connection state of the client and the
    instant of creation are given.  The three markers of the heartbeat clock
    start at the instant of creation. *)
Definition init (configs : Config) (disconnected connected : Z -> bool)
    (least_loaded : option Z)
    (cluster_accepts : GroupCoordinatorResponse.t -> bool) (t : Z) : World :=
  {| config := configs;
     generation := DEFAULT_GENERATION_ID;
     member_id := UNKNOWN_MEMBER_ID;
     coordinator_id := None;
     rejoin_needed := true;
     needs_join_prepare := true;
     protocol := None;
     last_session_reset := t;
     last_send := t;
     last_receive := t;
     _request_in_flight := false;
     is_disconnected := disconnected;
     ready := connected;
     least_loaded_node := least_loaded;
     add_group_coordinator := cluster_accepts;
     scheduled := None;
     heartbeats_outstanding := 0%nat;
     now := t;
     trace := [] |}.

(** ** The client transport, as far as the coordinator uses it *)

Definition record (e : Effect) (w : World) : World :=
  set_trace (trace w ++ [e]) w.

(** [client.send(node_id, request)]: the request is recorded; its reply is
    an event of a later poll. *)
Definition client_send (node_id : option Z) (request : Request) (w : World)
  : World :=
  record (Send node_id request) w.

(** Modelled from the spec: the scheduler of the transport keeps the task
    "under a key identifying this task", so one entry at most;
    [schedule(task, at)] stores the entry and [unschedule(task)] drops it
    (the [KeyError] of a missing entry is swallowed by the callers). *)
Definition client_schedule (at_ : Z) (w : World) : World :=
  set_scheduled (Some at_) w.

(** Modelled from the spec: [unschedule(task)] of the same scheduler. *)
Definition client_unschedule (w : World) : World :=
  set_scheduled None w.

(** ** Heartbeat clock

    Modelled from the spec: [kafka/coordinator/heartbeat.py] is not part of
    the sources at hand.  The spec gives
    [sessionExpired() = now - lastReceive >= sessionTimeoutMs],
    [shouldHeartbeat() = now - lastSend >= heartbeatIntervalMs],
    [ttl() = max(0, heartbeatIntervalMs - (now - lastSend))], and the three
    assignments [reset_session_timeout: lastReceive = now],
    [sent_heartbeat: lastSend = now], [received_heartbeat: lastReceive = now]. *)

(** Modelled from the spec: [reset_session_timeout()] assigns
    [lastReceive = now]; the instant is kept in [lastSessionReset] too. *)
Definition reset_session_timeout (w : World) : World :=
  set_last_receive (now w) (set_last_session_reset (now w) w).

(** Modelled from the spec: [sent_heartbeat()] assigns [lastSend = now]. *)
Definition sent_heartbeat (w : World) : World :=
  set_last_send (now w) w.

(** Modelled from the spec: [received_heartbeat()] assigns
    [lastReceive = now]. *)
Definition received_heartbeat (w : World) : World :=
  set_last_receive (now w) w.

(** Modelled from the spec: [sessionExpired()], that is
    [now - lastReceive >= sessionTimeoutMs]. *)
Definition session_expired (w : World) : bool :=
  session_timeout_ms (config w) <=? now w - last_receive w.

(** Modelled from the spec: [shouldHeartbeat()], that is
    [now - lastSend >= heartbeatIntervalMs]. *)
Definition should_heartbeat (w : World) : bool :=
  heartbeat_interval_ms (config w) <=? now w - last_send w.

(** Modelled from the spec: [ttl()], that is
    [max(0, heartbeatIntervalMs - (now - lastSend))]. *)
Definition ttl (w : World) : Z :=
  Z.max 0 (heartbeat_interval_ms (config w) - (now w - last_send w)).

(** ** kafka/coordinator/base.py *)

(** The abstract methods of [BaseCoordinator] that return a value.
    [_perform_assignment] returns the [{member_id: assignment}] dict, in
    iteration order, or raises.  The two hooks [_on_join_prepare] and
    [_on_join_complete] return nothing: their calls are recorded in the
    trace. *)
Record GroupPolicy : Type := {
  protocol_type : string;
  group_protocols : list (string * Encodable);
  _perform_assignment :
    string -> string -> list (string * bytes) ->
    Thrown + list (string * Encodable)
}.

(** Modelled from the spec: the client transport ([kafka/client_async.py]
    is not part of the sources at hand) runs on the thread of the caller;
    while it is polled, inbound responses and firings of the scheduler
    interleave with the blocked operation (spec, section 5).  Events on
    the transport while the coordinator polls it, in the order they
    happen: the wall clock moves, connections change state, the
    scheduler runs the heartbeat task, replies come in.  [RequestFailed] is
    the errback of the request the caller of [poll] waits for,
    [HeartbeatFailed] that of a heartbeat request; [PollTimeout] ends a
    [poll()] that waits for no future. *)
Inductive NetEvent : Type :=
  | Clock (t : Z)
  | NetStatus (disconnected connected : Z -> bool) (least_loaded : option Z)
  | TaskDue
  | HeartbeatReply (response : HeartbeatResponse.t)
  | HeartbeatFailed (error : Thrown)
  | JoinReply (response : JoinGroupResponse.t)
  | SyncReply (response : SyncGroupResponse.t)
  | CoordinatorReply (response : GroupCoordinatorResponse.t)
  | LeaveReply (response : LeaveGroupResponse.t)
  | MetadataUpdated
  | RequestFailed (error : Thrown)
  | PollTimeout.

(** How a blocking operation ends: it returns, it raises, or it is still
    waiting when the events (or the fuel of its loop) run out. *)
Inductive Outcome (A : Type) : Type :=
  | Returned (a : A) (w : World) (rest : list NetEvent)
  | Raised (exception : Thrown) (w : World) (rest : list NetEvent)
  | Unfinished (w : World).

Arguments Raised {A} exception w rest.
Arguments Unfinished {A} w.

Definition bind {A B : Type} (m : Outcome A)
    (k : A -> World -> list NetEvent -> Outcome B) : Outcome B :=
  match m with
  | Returned a w rest => k a w rest
  | Raised exception w rest => Raised exception w rest
  | Unfinished w => Unfinished w
  end.

Notation "x <- m ;; k" := (bind m (fun x => k))
  (at level 61, m at next level, right associativity).

(** The world an operation leaves behind. *)
Definition final {A : Type} (o : Outcome A) : World :=
  match o with
  | Returned _ w _ => w
  | Raised _ w _ => w
  | Unfinished w => w
  end.

Definition finished {A : Type} (o : Outcome A) : bool :=
  match o with
  | Unfinished _ => false
  | _ => true
  end.

(** [BaseCoordinator.coordinator_dead] *)
Definition coordinator_dead (w : World) : World :=
  match coordinator_id w with
  | Some _ => set_coordinator_id None w
  | None => w
  end.

(** [BaseCoordinator.coordinator_unknown] *)
Definition coordinator_unknown (w : World) : bool * World :=
  match coordinator_id w with
  | None => (true, w)
  | Some node =>
      if is_disconnected w node then (true, coordinator_dead w)
      else (negb (ready w node), w)
  end.

(** [BaseCoordinator.need_rejoin] *)
Definition need_rejoin (w : World) : bool := rejoin_needed w.

(** [BaseCoordinator._failed_request] *)
Definition _failed_request (error : Thrown) (w : World) : Future * World :=
  (Failed error, coordinator_dead w).

(** [HeartbeatTask.reset] *)
Definition HeartbeatTask_reset (w : World) : World :=
  let w := reset_session_timeout w in
  let w := client_unschedule w in
  if negb (_request_in_flight w) then client_schedule (now w) w else w.

(** [BaseCoordinator._send_heartbeat_request] *)
Definition _send_heartbeat_request (w : World) : World :=
  let request :=
    HeartbeatRequest (group_id (config w)) (generation w) (member_id w) in
  let w := client_send (coordinator_id w) request w in
  set_heartbeats_outstanding (S (heartbeats_outstanding w)) w.

(** [BaseCoordinator._handle_heartbeat_response] *)
Definition _handle_heartbeat_response (response : HeartbeatResponse.t)
    (w : World) : Future * World :=
  let error_type := for_code (HeartbeatResponse.error_code response) in
  match error_type with
  | NoError => (Succeeded VNone, w)
  | GroupCoordinatorNotAvailableError
  | NotCoordinatorForGroupError =>
      let w := coordinator_dead w in
      (Failed (Instance error_type []), w)
  | RebalanceInProgressError =>
      let w := set_rejoin_needed true w in
      (Failed (Instance error_type []), w)
  | IllegalGenerationError =>
      let w := set_rejoin_needed true w in
      (Failed (Instance error_type []), w)
  | UnknownMemberIdError =>
      let w := set_member_id UNKNOWN_MEMBER_ID w in
      let w := set_rejoin_needed true w in
      (Failed (Class error_type), w)
  | GroupAuthorizationFailedError =>
      let error := Instance error_type [ArgString (group_id (config w))] in
      (Failed error, w)
  | _ =>
      let error := Instance error_type [] in
      (Failed error, w)
  end.

(** [HeartbeatTask._handle_heartbeat_success] *)
Definition _handle_heartbeat_success (w : World) : World :=
  let w := set_request_in_flight false w in
  let w := received_heartbeat w in
  client_schedule (now w + ttl w) w.

(** [HeartbeatTask._handle_heartbeat_failure] *)
Definition _handle_heartbeat_failure (e : Thrown) (w : World) : World :=
  let w := set_request_in_flight false w in
  client_schedule (now w + retry_backoff_ms (config w)) w.

(** The completion of the future returned by [_send_heartbeat_request],
    to which [HeartbeatTask.__call__] attached the two handlers above. *)
Definition heartbeat_done (result : Future * World) : World :=
  match result with
  | (Succeeded _, w) => _handle_heartbeat_success w
  | (Failed e, w) => _handle_heartbeat_failure e w
  | (Pending _, w) => w
  end.

(** [HeartbeatTask.__call__] *)
Definition HeartbeatTask_call (w : World) : World :=
  if generation w <? 0 then w
  else if need_rejoin w then w
  else
    let (unknown, w) := coordinator_unknown w in
    if unknown then w
    else if session_expired w then coordinator_dead w
    else if negb (should_heartbeat w) then
      client_schedule (now w + ttl w) w
    else
      let w := sent_heartbeat w in
      let w := set_request_in_flight true w in
      _send_heartbeat_request w.

(** Modelled from the spec: a firing of the heartbeat task; the scheduler
    removes the entry of the task and calls it. *)
Definition task_fires (w : World) : World :=
  HeartbeatTask_call (client_unschedule w).

(** Modelled from the spec: what the transport does on its own while it
    is polled.  The scheduler fires a task that is due; the reply to an
    outstanding heartbeat request completes its future, through
    [_handle_heartbeat_response] or [_failed_request], and so runs the
    callback of the task.  An event that concerns no outstanding request,
    or no scheduled task, changes nothing. *)
Definition background (ev : NetEvent) (w : World) : World :=
  match ev with
  | Clock t => set_now t w
  | NetStatus disconnected connected least_loaded =>
      set_least_loaded_node least_loaded
        (set_ready connected (set_is_disconnected disconnected w))
  | TaskDue =>
      match scheduled w with
      | Some due =>
          if due <=? now w then task_fires w else w
      | None => w
      end
  | HeartbeatReply response =>
      match heartbeats_outstanding w with
      | S n =>
          heartbeat_done
            (_handle_heartbeat_response response
               (set_heartbeats_outstanding n w))
      | O => w
      end
  | HeartbeatFailed error =>
      match heartbeats_outstanding w with
      | S n =>
          heartbeat_done
            (_failed_request error (set_heartbeats_outstanding n w))
      | O => w
      end
  | _ => w
  end.

Section Coordinator.

Variable policy : GroupPolicy.

(** [BaseCoordinator._send_sync_group_request] *)
Definition _send_sync_group_request (request : Request) (w : World)
  : Future * World :=
  let (unknown, w) := coordinator_unknown w in
  if unknown then
    (Failed (Instance GroupCoordinatorNotAvailableError []), w)
  else
    (Pending AwaitSync, client_send (coordinator_id w) request w).

(** [BaseCoordinator._on_join_follower] *)
Definition _on_join_follower (w : World) : Future * World :=
  let request :=
    SyncGroupRequest (group_id (config w)) (generation w) (member_id w) [] in
  _send_sync_group_request request w.

(** [BaseCoordinator._on_join_leader] *)
Definition _on_join_leader (response : JoinGroupResponse.t) (w : World)
  : Future * World :=
  match _perform_assignment policy
          (JoinGroupResponse.leader_id response)
          (JoinGroupResponse.group_protocol response)
          (JoinGroupResponse.members response) with
  | inl e => (Failed e, w)
  | inr group_assignment =>
      let request :=
        SyncGroupRequest (group_id (config w)) (generation w) (member_id w)
          (map (fun '(member, assignment) => (member, to_bytes assignment))
             group_assignment) in
      _send_sync_group_request request w
  end.

(** [BaseCoordinator._perform_group_join] *)
Definition _perform_group_join (w : World) : Future * World :=
  let (unknown, w) := coordinator_unknown w in
  if unknown then
    let e :=
      Instance GroupCoordinatorNotAvailableError
        [ArgNode (coordinator_id w)] in
    (Failed e, w)
  else
    let request :=
      JoinGroupRequest (group_id (config w))
        (session_timeout_ms (config w)) (member_id w)
        (protocol_type policy)
        (map (fun '(protocol, metadata) => (protocol, to_bytes metadata))
           (group_protocols policy)) in
    (Pending AwaitJoin, client_send (coordinator_id w) request w).

(** [BaseCoordinator._handle_join_group_response] *)
Definition _handle_join_group_response (response : JoinGroupResponse.t)
    (w : World) : Future * World :=
  let error_type := for_code (JoinGroupResponse.error_code response) in
  match error_type with
  | NoError =>
      let w := set_member_id (JoinGroupResponse.member_id response) w in
      let w := set_generation (JoinGroupResponse.generation_id response) w in
      let w := set_rejoin_needed false w in
      let w :=
        set_protocol (Some (JoinGroupResponse.group_protocol response)) w in
      if String.eqb (JoinGroupResponse.leader_id response)
           (JoinGroupResponse.member_id response)
      then _on_join_leader response w
      else _on_join_follower w
  | GroupLoadInProgressError =>
      (Failed (Instance error_type [ArgResponse response]), w)
  | UnknownMemberIdError =>
      let error := Instance error_type [ArgString (member_id w)] in
      let w := set_member_id UNKNOWN_MEMBER_ID w in
      (Failed error, w)
  | GroupCoordinatorNotAvailableError
  | NotCoordinatorForGroupError =>
      let w := coordinator_dead w in
      (Failed (Instance error_type []), w)
  | InconsistentGroupProtocolError
  | InvalidSessionTimeoutError
  | InvalidGroupIdError =>
      let error := Instance error_type [ArgResponse response] in
      (Failed error, w)
  | GroupAuthorizationFailedError =>
      (Failed (Instance error_type [ArgString (group_id (config w))]), w)
  | _ =>
      let error := Instance error_type [] in
      (Failed error, w)
  end.

(** [BaseCoordinator._handle_sync_group_response] *)
Definition _handle_sync_group_response (response : SyncGroupResponse.t)
    (w : World) : Future * World :=
  let error_type := for_code (SyncGroupResponse.error_code response) in
  match error_type with
  | NoError =>
      (Succeeded (VBytes (SyncGroupResponse.member_assignment response)), w)
  | _ =>
      let w := set_rejoin_needed true w in
      match error_type with
      | GroupAuthorizationFailedError =>
          (Failed (Instance error_type [ArgString (group_id (config w))]), w)
      | RebalanceInProgressError =>
          (Failed (Instance error_type [ArgString (group_id (config w))]), w)
      | UnknownMemberIdError
      | IllegalGenerationError =>
          let error := Instance error_type [] in
          let w := set_member_id UNKNOWN_MEMBER_ID w in
          (Failed error, w)
      | GroupCoordinatorNotAvailableError
      | NotCoordinatorForGroupError =>
          let error := Instance error_type [] in
          let w := coordinator_dead w in
          (Failed error, w)
      | _ =>
          let error := Instance error_type [] in
          (Failed error, w)
      end
  end.

(** [BaseCoordinator._send_group_metadata_request] *)
Definition _send_group_metadata_request (w : World) : Future * World :=
  match least_loaded_node w with
  | None => (Failed (Instance NoBrokersAvailable []), w)
  | Some node_id =>
      if negb (ready w node_id) then
        (Failed (Instance NoBrokersAvailable []), w)
      else
        let request := GroupCoordinatorRequest (group_id (config w)) in
        (Pending AwaitCoordinator, client_send (Some node_id) request w)
  end.

(** [BaseCoordinator._handle_group_coordinator_response]; the call
    [client.ready(coordinator_id)] it makes for the sake of the connection
    leaves the world as it is, connections changing with the events of the
    transport. *)
Definition _handle_group_coordinator_response
    (response : GroupCoordinatorResponse.t) (w : World) : Future * World :=
  let (unknown, w) := coordinator_unknown w in
  if negb unknown then (Succeeded (VNode (coordinator_id w)), w)
  else
    let error_type :=
      for_code (GroupCoordinatorResponse.error_code response) in
    match error_type with
    | NoError =>
        let ok := add_group_coordinator w response in
        if negb ok then (Failed (Instance IllegalStateError []), w)
        else
          let w :=
            set_coordinator_id
              (Some (GroupCoordinatorResponse.coordinator_id response)) w in
          let w := if generation w >? 0 then HeartbeatTask_reset w else w in
          (Succeeded (VNode (coordinator_id w)), w)
    | GroupCoordinatorNotAvailableError =>
        (Failed (Instance error_type []), w)
    | GroupAuthorizationFailedError =>
        let error := Instance error_type [ArgString (group_id (config w))] in
        (Failed error, w)
    | _ =>
        let error := Instance error_type [] in
        (Failed error, w)
    end.

(** [BaseCoordinator._handle_leave_group_response]: it only logs. *)
Definition _handle_leave_group_response (response : LeaveGroupResponse.t)
    (w : World) : World := w.

(** One event while the caller waits for the request [awaited]: the reply
    to that request runs its response handler, a failure of that request
    runs its errback ([_failed_request] for the three requests sent with
    it, a log line for [LeaveGroup]), and anything else is [background]. *)
Definition deliver (awaited : Awaited) (ev : NetEvent) (w : World)
  : Future * World :=
  match awaited, ev with
  | AwaitJoin, JoinReply response => _handle_join_group_response response w
  | AwaitSync, SyncReply response => _handle_sync_group_response response w
  | AwaitCoordinator, CoordinatorReply response =>
      _handle_group_coordinator_response response w
  | AwaitLeave, LeaveReply response =>
      (Succeeded VNone, _handle_leave_group_response response w)
  | AwaitMetadata, MetadataUpdated => (Succeeded VNone, w)
  | AwaitJoin, RequestFailed error
  | AwaitSync, RequestFailed error
  | AwaitCoordinator, RequestFailed error => _failed_request error w
  | AwaitLeave, RequestFailed error
  | AwaitMetadata, RequestFailed error => (Failed error, w)
  | _, _ => (Pending awaited, background ev w)
  end.

(** Modelled from the spec: [client.poll(future=future)]; the transport
    is driven, one event after the other, until the future is done. *)
Fixpoint poll (future : Future) (w : World) (events : list NetEvent)
  : Outcome Future :=
  match future with
  | Pending awaited =>
      match events with
      | [] => Unfinished w
      | ev :: rest =>
          let (future, w) := deliver awaited ev w in
          poll future w rest
      end
  | _ => Returned future w events
  end.

(** Modelled from the spec: [client.poll()]; the transport is driven
    until the call times out. *)
Fixpoint client_poll (w : World) (events : list NetEvent) : Outcome unit :=
  match events with
  | [] => Unfinished w
  | PollTimeout :: rest => Returned tt w rest
  | ev :: rest => client_poll (background ev w) rest
  end.

(** [BaseCoordinator.ensure_coordinator_known]; [fuel] bounds the number of
    turns of the [while] loop. *)
Fixpoint ensure_coordinator_known (fuel : nat) (w : World)
    (events : list NetEvent) : Outcome unit :=
  match fuel with
  | O => Unfinished w
  | S fuel' =>
      let (unknown, w) := coordinator_unknown w in
      if negb unknown then Returned tt w events
      else
        match coordinator_id w with
        | Some _ =>
            _ <- client_poll w events ;;
            ensure_coordinator_known fuel'
        | None =>
            let (future, w) := _send_group_metadata_request w in
            future <- poll future w events ;;
            fun w events =>
            match future with
            | Failed exception =>
                if future_retriable exception then
                  _ <- poll (Pending AwaitMetadata) w events ;;
                  ensure_coordinator_known fuel'
                else Raised exception w events
            | _ => ensure_coordinator_known fuel' w events
            end
        end
  end.

(** [time.sleep(self.config['retry_backoff_ms'] / 1000.0)] *)
Definition sleep_backoff (w : World) : World :=
  let ms := retry_backoff_ms (config w) in
  set_now (now w + ms) (record (Sleep ms) w).

(** The [while self.need_rejoin()] loop of [ensure_active_group]. *)
Fixpoint join_loop (fuel : nat) (w : World) (events : list NetEvent)
  : Outcome unit :=
  match fuel with
  | O => Unfinished w
  | S fuel' =>
      if negb (need_rejoin w) then Returned tt w events
      else
        _ <- ensure_coordinator_known fuel w events ;;
        fun w events =>
        let (future, w) := _perform_group_join w in
        future <- poll future w events ;;
        fun w events =>
        match future with
        | Succeeded member_assignment_bytes =>
            let w :=
              record (OnJoinComplete (generation w) (member_id w)
                        (protocol w) member_assignment_bytes) w in
            let w := set_needs_join_prepare true w in
            let w := HeartbeatTask_reset w in
            join_loop fuel' w events
        | Failed exception =>
            if isinstance_restart exception then join_loop fuel' w events
            else if negb (future_retriable exception) then
              Raised exception w events
            else join_loop fuel' (sleep_backoff w) events
        | Pending _ => Unfinished w
        end
  end.

(** [BaseCoordinator.ensure_active_group] *)
Definition ensure_active_group (fuel : nat) (w : World)
    (events : list NetEvent) : Outcome unit :=
  if negb (need_rejoin w) then Returned tt w events
  else
    let w :=
      if needs_join_prepare w then
        let w := record (OnJoinPrepare (generation w) (member_id w)) w in
        set_needs_join_prepare false w
      else w in
    join_loop fuel w events.

(** [BaseCoordinator.close] *)
Definition close (w : World) (events : list NetEvent) : Outcome unit :=
  let w := client_unschedule w in
  let (unknown, w) := coordinator_unknown w in
  _ <- (if negb unknown && (generation w >? 0) then
          let request :=
            LeaveGroupRequest (group_id (config w)) (member_id w) in
          let w := client_send (coordinator_id w) request w in
          poll (Pending AwaitLeave) w events
        else Returned (Succeeded VNone) w events) ;;
  fun w events =>
  let w := set_generation DEFAULT_GENERATION_ID w in
  let w := set_member_id UNKNOWN_MEMBER_ID w in
  let w := set_rejoin_needed true w in
  Returned tt w events.

End Coordinator.

(** ** Statements: vocabulary *)

(** The table of [for_code], one line per error number. *)
Definition for_code_table (error_code : Z) : ErrorClass :=
  if (error_code <? -1) || (31 <? error_code) then UnknownError else
  match error_code with
  | 0 => NoError | 1 => OffsetOutOfRangeError | 2 => InvalidMessageError
  | 3 => UnknownTopicOrPartitionError | 4 => InvalidFetchRequestError
  | 5 => LeaderNotAvailableError | 6 => NotLeaderForPartitionError
  | 7 => RequestTimedOutError | 8 => BrokerNotAvailableError
  | 9 => ReplicaNotAvailableError | 10 => MessageSizeTooLargeError
  | 11 => StaleControllerEpochError | 12 => OffsetMetadataTooLargeError
  | 13 => StaleLeaderEpochCodeError | 14 => GroupLoadInProgressError
  | 15 => GroupCoordinatorNotAvailableError
  | 16 => NotCoordinatorForGroupError | 17 => InvalidTopicError
  | 18 => RecordListTooLargeError | 19 => NotEnoughReplicasError
  | 20 => NotEnoughReplicasAfterAppendError | 21 => InvalidRequiredAcksError
  | 22 => IllegalGenerationError | 23 => InconsistentGroupProtocolError
  | 24 => InvalidGroupIdError | 25 => UnknownMemberIdError
  | 26 => InvalidSessionTimeoutError | 27 => RebalanceInProgressError
  | 28 => InvalidCommitOffsetSizeError | 29 => TopicAuthorizationFailedError
  | 30 => GroupAuthorizationFailedError
  | 31 => ClusterAuthorizationFailedError
  | _ => UnknownError
  end.

(** The coordinator is known and its connection usable: the case in which
    [coordinator_unknown] answers [False]. *)
Definition coordinator_ready (w : World) (node : Z) : Prop :=
  coordinator_id w = Some node /\
  is_disconnected w node = false /\
  ready w node = true.

(** The entries of the SyncGroup request a member sends after the join
    response [join]: the leader's assignment, encoded, or nothing. *)
Definition sync_assignment (policy : GroupPolicy)
    (join : JoinGroupResponse.t) : list (string * bytes) :=
  if String.eqb (JoinGroupResponse.leader_id join)
       (JoinGroupResponse.member_id join)
  then
    match _perform_assignment policy (JoinGroupResponse.leader_id join)
            (JoinGroupResponse.group_protocol join)
            (JoinGroupResponse.members join) with
    | inr group_assignment =>
        map (fun '(member, assignment) => (member, to_bytes assignment))
          group_assignment
    | inl _ => []
    end
  else [].

(** The state [close] is meant to end in. *)
Definition closed_state (w : World) : Prop :=
  generation w = DEFAULT_GENERATION_ID /\
  member_id w = UNKNOWN_MEMBER_ID /\
  rejoin_needed w = true /\
  scheduled w = None.

(** A property of the world an operation is in when it ends or stops,
    together with a property of the events it has left unread. *)
Definition holds {A : Type} (P : World -> Prop) (ok : NetEvent -> Prop)
    (o : Outcome A) : Prop :=
  match o with
  | Returned _ w rest => P w /\ Forall ok rest
  | Raised _ w rest => P w /\ Forall ok rest
  | Unfinished w => P w
  end.

(** A future that is not waiting for a JoinGroup or SyncGroup reply. *)
Definition outside_join (future : Future) : Prop :=
  match future with
  | Pending AwaitJoin | Pending AwaitSync => False
  | _ => True
  end.

(** What is assumed of the broker: a JoinGroup response without error
    carries a generation that is not negative and a member id that is not
    the unknown-member sentinel. *)
Definition broker_well_formed (ev : NetEvent) : Prop :=
  match ev with
  | JoinReply response =>
      JoinGroupResponse.error_code response = 0 ->
      0 <= JoinGroupResponse.generation_id response /\
      JoinGroupResponse.member_id response <> UNKNOWN_MEMBER_ID
  | _ => True
  end.

(** The worlds a member can be in: it is created, and then its owner calls
    [ensure_active_group], [ensure_coordinator_known], [close], or polls the
    transport, in any order, against any events.  An operation that is
    still waiting when the events run out contributes the world it waits
    in, so the worlds between two events of an operation are reachable
    too. *)
Inductive Reachable (policy : GroupPolicy) : World -> Prop :=
  | reach_init : forall configs disconnected connected least_loaded
                        cluster_accepts t,
      Reachable policy
        (init configs disconnected connected least_loaded cluster_accepts t)
  | reach_ensure_active_group : forall fuel w events,
      Reachable policy w ->
      Forall broker_well_formed events ->
      Reachable policy (final (ensure_active_group policy fuel w events))
  | reach_ensure_coordinator_known : forall fuel w events,
      Reachable policy w ->
      Forall broker_well_formed events ->
      Reachable policy (final (ensure_coordinator_known policy fuel w events))
  | reach_close : forall w events,
      Reachable policy w ->
      Forall broker_well_formed events ->
      Reachable policy (final (close policy w events))
  | reach_poll : forall w events,
      Reachable policy w ->
      Forall broker_well_formed events ->
      Reachable policy (final (client_poll w events)).

(** C1 as the spec words it: without a pending rejoin the member has a
    generation, a member id and a coordinator. *)
Definition stable_state (w : World) : Prop :=
  rejoin_needed w = false ->
  0 <= generation w /\
  member_id w <> UNKNOWN_MEMBER_ID /\
  coordinator_id w <> None.

(** The part of it that does hold. *)
Definition membership_adopted (w : World) : Prop :=
  rejoin_needed w = false ->
  0 <= generation w /\ member_id w <> UNKNOWN_MEMBER_ID.

(** A step that leaves the membership alone or asks for a rejoin. *)
Definition keeps_membership (w w' : World) : Prop :=
  rejoin_needed w' = true \/
  (rejoin_needed w' = rejoin_needed w /\
   generation w' = generation w /\
   member_id w' = member_id w).

(** The heartbeat task and the transport agree on the heartbeat in flight,
    and the task is not scheduled while one is. *)
Definition task_consistent (w : World) : Prop :=
  heartbeats_outstanding w = (if _request_in_flight w then 1 else 0)%nat /\
  (_request_in_flight w = true -> scheduled w = None).

Definition is_prepare (e : Effect) : bool :=
  match e with
  | OnJoinPrepare _ _ => true
  | _ => false
  end.

(** The number of calls of [_on_join_prepare] in a trace. *)
Definition count_prepare (effects : list Effect) : nat :=
  List.length (filter is_prepare effects).

(** What an operation added to the trace. *)
Definition effects_since (w w' : World) : list Effect :=
  skipn (List.length (trace w)) (trace w').

(** The member id of the first JoinGroup request in a trace. *)
Fixpoint first_join_member (effects : list Effect) : option string :=
  match effects with
  | [] => None
  | Send _ (JoinGroupRequest _ _ member _ _) :: _ => Some member
  | _ :: effects' => first_join_member effects'
  end.

Definition is_sleep (e : Effect) : bool :=
  match e with
  | Sleep _ => true
  | _ => false
  end.

(** The effects of the handlers and of the discovery of the coordinator:
    everything but a call of [_on_join_prepare], a JoinGroup request and a
    LeaveGroup request. *)
Definition routine (e : Effect) : bool :=
  match e with
  | OnJoinPrepare _ _ => false
  | Send _ (JoinGroupRequest _ _ _ _ _) => false
  | Send _ (LeaveGroupRequest _ _) => false
  | _ => true
  end.

(** A step that adds only routine effects to the trace, and leaves
    [member_id] alone or resets it to the sentinel. *)
Definition routine_step (w w' : World) : Prop :=
  (exists added,
     trace w' = trace w ++ added /\ forallb routine added = true) /\
  (member_id w' = member_id w \/ member_id w' = UNKNOWN_MEMBER_ID).

(** The trace is [before] followed by effects none of which is a call of
    [_on_join_prepare]. *)
Definition no_prepare_since (before : list Effect) (w : World) : Prop :=
  exists added,
    trace w = before ++ added /\
    forallb (fun e => negb (is_prepare e)) added = true.

(** Since [before], a JoinGroup request was sent and the first one carried
    the unknown-member sentinel. *)
Definition rejoined_as_unknown (before : list Effect) (w : World) : Prop :=
  exists added,
    trace w = before ++ added /\
    first_join_member added = Some UNKNOWN_MEMBER_ID.

(** Since [before], either that, or no JoinGroup request was sent yet and
    [member_id] is the sentinel. *)
Definition retrying_as_unknown (before : list Effect) (w : World) : Prop :=
  rejoined_as_unknown before w \/
  (member_id w = UNKNOWN_MEMBER_ID /\
   exists added,
     trace w = before ++ added /\ first_join_member added = None).

(** *** A concrete membership, used to exhibit runs *)

Definition policy0 : GroupPolicy :=
  {| protocol_type := "consumer";
     group_protocols := [("range", Raw [])];
     _perform_assignment := fun _ _ members =>
       inr (map (fun '(member, _) => (member, Raw [])) members) |}.

Definition world0 : World :=
  init DEFAULT_CONFIG (fun _ => false) (fun _ => true) (Some 1)
    (fun _ => true) 0.

Definition coordinator_is_7 : NetEvent :=
  CoordinatorReply
    {| GroupCoordinatorResponse.error_code := 0;
       GroupCoordinatorResponse.coordinator_id := 7;
       GroupCoordinatorResponse.host := "broker7";
       GroupCoordinatorResponse.port := 9092 |}.

Definition join_response (code generation_id : Z) (member leader : string)
  : JoinGroupResponse.t :=
  {| JoinGroupResponse.error_code := code;
     JoinGroupResponse.generation_id := generation_id;
     JoinGroupResponse.group_protocol := "range";
     JoinGroupResponse.leader_id := leader;
     JoinGroupResponse.member_id := member;
     JoinGroupResponse.members := [] |}.

Definition join_reply (code generation_id : Z) (member leader : string)
  : NetEvent :=
  JoinReply (join_response code generation_id member leader).

Definition sync_response (code : Z) : SyncGroupResponse.t :=
  {| SyncGroupResponse.error_code := code;
     SyncGroupResponse.member_assignment := [Byte.x0a; Byte.x0b] |}.

Definition sync_reply (code : Z) : NetEvent :=
  SyncReply (sync_response code).

Definition heartbeat_reply (code : Z) : NetEvent :=
  HeartbeatReply {| HeartbeatResponse.error_code := code |}.

Definition leave_reply (code : Z) : NetEvent :=
  LeaveReply {| LeaveGroupResponse.error_code := code |}.

(** The member once it has found its coordinator, node 7. *)
Definition discovered_world : World :=
  final (ensure_coordinator_known policy0 2 world0 [coordinator_is_7]).

(** The member after a clean join as follower: generation 1, member "m1",
    coordinator 7, heartbeat task scheduled. *)
Definition stable_world : World :=
  final (ensure_active_group policy0 5 world0
           [coordinator_is_7; join_reply 0 1 "m1" "m2"; sync_reply 0]).

(** The same member at instant 3000, its first heartbeat request sent and
    not yet answered. *)
Definition heartbeating_world : World :=
  final (client_poll stable_world [TaskDue; Clock 3000; TaskDue]).

(** The member of [discovered_world] holding a member id the broker no
    longer knows. *)
Definition stale_world : World := set_member_id "stale" discovered_world.

(** The member whose first JoinGroup was refused with code 24
    (InvalidGroupId): [ensure_active_group] raised. *)
Definition refused_world : World :=
  final (ensure_active_group policy0 5 world0
           [coordinator_is_7; join_reply 24 0 "" ""]).

(** The member of [heartbeating_world] after its heartbeat was answered
    with code 16 (NotCoordinatorForGroup). *)
Definition moved_world : World :=
  final (client_poll heartbeating_world [heartbeat_reply 16]).

(** The member of [heartbeating_world] at instant 35100: its heartbeat
    was answered at 35000 with code 27 (RebalanceInProgress), so a rejoin is
    needed, the task is scheduled again for 35100, and nothing was received
    for longer than the session timeout. *)
Definition expired_rejoining_world : World :=
  final (client_poll heartbeating_world
           [Clock 35000; heartbeat_reply 27; Clock 35100]).

(** ** Further vocabulary *)

(** [kafka/common.py], [check_error(response)].  The argument is
    something that was raised or handed to a future (an exception
    instance, or an error class object, which is not an instance of
    [Exception]), or a response payload, a namedtuple of which the function
    reads the integer field [error] only.  The function returns nothing,
    raises the exception instance it was given, raises an instance of a
    broker error class constructed with the payload, or, given a class
    object, fails on the attribute [error] that a class does not have. *)
Inductive Checkable : Type :=
  | AThrown (e : Thrown)
  | APayload (error : Z).

Inductive CheckResult : Type :=
  | CheckPasses
  | CheckReraises (e : Thrown)
  | CheckRaises (error_class : ErrorClass) (payload_error : Z)
  | CheckAttributeError.

(** [isinstance(response, Exception)] on what was thrown: a class object
    is not an instance. *)
Definition isinstance_Exception (e : Thrown) : bool :=
  match e with
  | Instance _ _ => true
  | Class _ => false
  | Foreign _ => true
  end.

Definition check_error (response : Checkable) : CheckResult :=
  match response with
  | AThrown e =>
      if isinstance_Exception e then CheckReraises e
      else CheckAttributeError
  | APayload error =>
      if negb (error =? 0) then
        let error_class := dict_get kafka_errors error UnknownError in
        CheckRaises error_class error
      else CheckPasses
  end.

(** What a blocking operation guarantees when it ends: [R] of the world it
    returns in, [E] of the exception it raises. *)
Definition ensures {A : Type} (R : World -> Prop) (E : Thrown -> Prop)
    (o : Outcome A) : Prop :=
  match o with
  | Returned _ w _ => R w
  | Raised exception _ _ => E exception
  | Unfinished _ => True
  end.

(** A step of the discovery of the coordinator or of the heartbeat task,
    seen from the membership: the generation is the same, a pending rejoin
    stays pending, [member_id] is the same or reset, and the trace has
    gained routine effects only. *)
Definition quiet_step (w w' : World) : Prop :=
  generation w' = generation w /\
  (rejoin_needed w = true -> rejoin_needed w' = true) /\
  (member_id w' = member_id w \/ member_id w' = UNKNOWN_MEMBER_ID) /\
  exists added,
    trace w' = trace w ++ added /\ forallb routine added = true.

(** A request handed to the transport. *)
Definition is_send (e : Effect) : bool :=
  match e with
  | Send _ _ => true
  | _ => false
  end.

(** Not a call of [_on_join_complete] with the attribute [protocol]
    unset. *)
Definition complete_with_protocol (e : Effect) : bool :=
  match e with
  | OnJoinComplete _ _ None _ => false
  | _ => true
  end.

(** The trace is [before] followed by effects among which every call of
    [_on_join_complete] has its protocol. *)
Definition completes_with_protocol_since (before : list Effect) (w : World)
  : Prop :=
  exists added,
    trace w = before ++ added /\
    forallb complete_with_protocol added = true.

(** A step that adds requests only to the trace and leaves [protocol]
    as it is. *)
Definition sends_step (w w' : World) : Prop :=
  protocol w' = protocol w /\
  exists added, trace w' = trace w ++ added /\ forallb is_send added = true.

(** A future of the join and the world it lives in: once the SyncGroup
    request is out, and when the future has succeeded, [protocol] is
    set. *)
Definition join_future_ok (future : Future) (w : World) : Prop :=
  match future with
  | Pending AwaitJoin => True
  | Pending AwaitSync => protocol w <> None
  | Pending _ => False
  | Succeeded _ => protocol w <> None
  | Failed _ => True
  end.



Definition coordinator_is_8 : NetEvent :=
  CoordinatorReply
    {| GroupCoordinatorResponse.error_code := 0;
       GroupCoordinatorResponse.coordinator_id := 8;
       GroupCoordinatorResponse.host := "broker8";
       GroupCoordinatorResponse.port := 9092 |}.

(** The member of [heartbeating_world] after its heartbeat was answered
    with code 27 (RebalanceInProgress): a rejoin is needed, and the task is
    scheduled again for instant 3100. *)
Definition rebalancing_world : World :=
  final (client_poll heartbeating_world [heartbeat_reply 27]).

(** The same member after a rejoin during which the group moved to another
    coordinator.  Node 7 answers the JoinGroup (generation 2); while the
    SyncGroup response is awaited the heartbeat task fires, at instant 6000,
    and sends a heartbeat to node 7; node 7 answers the SyncGroup with code
    16 (NotCoordinatorForGroup); the member backs off, discovers node 8 and
    sends it a JoinGroup, which is refused with code 30
    (GroupAuthorizationFailed): [ensure_active_group] raises.  The
    heartbeat sent to node 7 is still unanswered. *)
Definition migrated_world : World :=
  final (ensure_active_group policy0 5 rebalancing_world
           [join_reply 0 2 "m1" "m2"; Clock 6000; TaskDue; sync_reply 16;
            coordinator_is_8; join_reply 30 0 "m1" "m2"]).

(** ** Properties *)

(** Case analysis on a world: its fields become variables, and the
    operations compute on them. *)
Ltac destruct_world w :=
  destruct w as [cfg gen mid cid rn njp proto lsr ls lr rif isd rdy lln agc
                 sch ho nw tr].

(** *** The error table *)

Lemma for_code_unfold (error_code : Z) :
  for_code error_code = for_code_table error_code.
Proof.
  assert (Hout : error_code < -1 \/ 31 < error_code ->
                 for_code error_code = UnknownError).
  { intros Hout. unfold for_code.
    cbv [kafka_errors _iter_broker_errors fold_left errno dict_set
         Z.eqb Pos.eqb].
    cbn [dict_get].
    repeat match goal with
      | |- context [?k =? error_code] =>
          destruct (Z.eqb_spec k error_code); [lia|]
      end.
    reflexivity. }
  unfold for_code_table.
  destruct (Z.ltb_spec error_code (-1)) as [Hlo | Hlo]; simpl.
  - apply Hout. lia.
  - destruct (Z.ltb_spec 31 error_code) as [Hhi | Hhi]; simpl.
    + apply Hout. lia.
    + assert (Hc : error_code = -1 \/
                   exists n, (n <= 31)%nat /\ error_code = Z.of_nat n).
      { destruct (Z.eq_dec error_code (-1)); [now left|right].
        exists (Z.to_nat error_code). split; lia. }
      destruct Hc as [-> | [n [Hn ->]]]; [reflexivity|].
      do 32 (destruct n as [|n]; [reflexivity|]). lia.
Qed.

Lemma for_code_NoError (error_code : Z) :
  for_code error_code = NoError <-> error_code = 0.
Proof.
  split; [|intros ->; reflexivity].
  rewrite for_code_unfold. unfold for_code_table.
  destruct (Z.ltb_spec error_code (-1)); simpl; [discriminate|].
  destruct (Z.ltb_spec 31 error_code); simpl; [discriminate|].
  assert (Hc : error_code = -1 \/
               exists n, (n <= 31)%nat /\ error_code = Z.of_nat n).
  { destruct (Z.eq_dec error_code (-1)); [now left|right].
    exists (Z.to_nat error_code). split; lia. }
  destruct Hc as [-> | [n [Hn ->]]]; [discriminate|].
  do 32 (destruct n as [|n]; [simpl; try discriminate; reflexivity|]). lia.
Qed.

(** The error number of the class [for_code] answers, unless the number is
    not in the table. *)
Lemma for_code_errno (error_code : Z) :
  for_code error_code <> UnknownError ->
  errno (for_code error_code) = Some error_code.
Proof.
  rewrite for_code_unfold. unfold for_code_table.
  destruct (Z.ltb_spec error_code (-1)); simpl; [congruence|].
  destruct (Z.ltb_spec 31 error_code); simpl; [congruence|].
  assert (Hc : error_code = -1 \/
               exists n, (n <= 31)%nat /\ error_code = Z.of_nat n).
  { destruct (Z.eq_dec error_code (-1)); [now left|right].
    exists (Z.to_nat error_code). split; lia. }
  destruct Hc as [-> | [n [Hn ->]]]; [congruence|].
  do 32 (destruct n as [|n]; [reflexivity|]). lia.
Qed.

(** *** [coordinator_unknown] *)

Lemma coordinator_unknown_true (w : World) :
  fst (coordinator_unknown w) = true <->
  (coordinator_id w = None \/
   exists node, coordinator_id w = Some node /\
                (is_disconnected w node = true \/ ready w node = false)).
Proof.
  unfold coordinator_unknown.
  destruct (coordinator_id w) as [node|] eqn:Hc.
  - destruct (is_disconnected w node) eqn:Hd; simpl.
    + split; [|reflexivity]. intros _. right. exists node. auto.
    + rewrite negb_true_iff. split.
      * intros Hr. right. exists node. auto.
      * intros [Hn | [node' [Heq [Hd' | Hr]]]]; try discriminate;
          inversion Heq; subst; congruence.
  - simpl. split; auto.
Qed.

Lemma coordinator_unknown_ready (w : World) (node : Z) :
  coordinator_ready w node -> coordinator_unknown w = (false, w).
Proof.
  intros (Hc & Hd & Hr). unfold coordinator_unknown.
  rewrite Hc, Hd, Hr. reflexivity.
Qed.

(** [coordinator_unknown] changes the coordinator id at most, and only to
    clear it. *)
Lemma coordinator_unknown_world (w : World) :
  snd (coordinator_unknown w) = w \/
  snd (coordinator_unknown w) = set_coordinator_id None w.
Proof.
  unfold coordinator_unknown, coordinator_dead.
  destruct (coordinator_id w) as [node|]; simpl; auto.
  destruct (is_disconnected w node); simpl; auto.
Qed.

Lemma coordinator_dead_id (w : World) :
  coordinator_id (coordinator_dead w) = None.
Proof.
  unfold coordinator_dead. destruct (coordinator_id w) eqn:Hc; auto.
Qed.

(** *** SyncGroup and Heartbeat response handlers *)

(** C4.  A SyncGroup response whose error code is not 0 sets
    [rejoin_needed] and fails the future; codes 25 (UnknownMemberId) and 22
    (IllegalGeneration) reset [member_id] to the unknown-member sentinel;
    codes 15 (GroupCoordinatorNotAvailable) and 16 (NotCoordinatorForGroup)
    clear [coordinator_id]; code 30 (GroupAuthorizationFailed) delivers a
    non-retriable error constructed with the group id. *)
Theorem sync_group_error_handling
    (response : SyncGroupResponse.t) (w : World) :
  SyncGroupResponse.error_code response <> 0 ->
  let code := SyncGroupResponse.error_code response in
  let future := fst (_handle_sync_group_response response w) in
  let w' := snd (_handle_sync_group_response response w) in
  rejoin_needed w' = true /\
  (exists exception, future = Failed exception) /\
  (code = 25 \/ code = 22 -> member_id w' = UNKNOWN_MEMBER_ID) /\
  (code = 15 \/ code = 16 -> coordinator_id w' = None) /\
  (code = 30 ->
   future = Failed (Instance GroupAuthorizationFailedError
                      [ArgString (group_id (config w))]) /\
   future_retriable (Instance GroupAuthorizationFailedError
                       [ArgString (group_id (config w))]) = false).
Proof.
  intros Hne. cbv zeta. unfold _handle_sync_group_response.
  destruct (for_code (SyncGroupResponse.error_code response)) eqn:E;
    try (apply for_code_NoError in E; contradiction);
    cbn [fst snd];
    (split; [first [reflexivity | apply coordinator_dead_id |
                    unfold coordinator_dead;
                    destruct (coordinator_id _); reflexivity]|]);
    (split; [eexists; reflexivity|]);
    (split; [intros [H|H]; rewrite H in E; vm_compute in E;
             try discriminate E; reflexivity|]);
    (split; [intros [H|H]; rewrite H in E; vm_compute in E;
             try discriminate E; apply coordinator_dead_id|]);
    (intros H; rewrite H in E; vm_compute in E; try discriminate E;
     split; reflexivity).
Qed.

Lemma sync_group_error_handling_witness :
  SyncGroupResponse.error_code
    {| SyncGroupResponse.error_code := 25;
       SyncGroupResponse.member_assignment := [] |} <> 0 /\
  rejoin_needed
    (snd (_handle_sync_group_response
            {| SyncGroupResponse.error_code := 25;
               SyncGroupResponse.member_assignment := [] |}
            stable_world)) = true.
Proof.
  split.
  - simpl. lia.
  - apply (sync_group_error_handling
             {| SyncGroupResponse.error_code := 25;
                SyncGroupResponse.member_assignment := [] |} stable_world).
    simpl. lia.
Defined.

(** C9, as the code has it.  On a Heartbeat response with error code 25
    the handler resets [member_id], sets [rejoin_needed], and hands the
    class [UnknownMemberIdError] itself to [future.failure]: no instance is
    constructed, unlike in every other branch of the handler. *)
Theorem heartbeat_unknown_member_id_passes_class (w : World) :
  _handle_heartbeat_response {| HeartbeatResponse.error_code := 25 |} w =
  (Failed (Class UnknownMemberIdError),
   set_rejoin_needed true (set_member_id UNKNOWN_MEMBER_ID w)).
Proof. reflexivity. Qed.

(** Every other failing branch of the heartbeat handler fails the future
    with an instance. *)
Lemma heartbeat_other_errors_construct_instance
    (response : HeartbeatResponse.t) (w : World) :
  HeartbeatResponse.error_code response <> 0 ->
  HeartbeatResponse.error_code response <> 25 ->
  exists cls args,
    fst (_handle_heartbeat_response response w) = Failed (Instance cls args).
Proof.
  intros H0 H25. unfold _handle_heartbeat_response.
  destruct (for_code (HeartbeatResponse.error_code response)) eqn:E;
    try (apply for_code_NoError in E; contradiction);
    try (cbn [fst]; eexists; eexists; reflexivity).
  exfalso. apply H25.
  assert (Hn : for_code (HeartbeatResponse.error_code response)
               <> UnknownError) by congruence.
  apply for_code_errno in Hn. rewrite E in Hn. simpl in Hn. congruence.
Qed.

(** *** The guard on sending JoinGroup and SyncGroup *)

(** C10.  When [coordinator_unknown()] holds ([coordinator_id] unset, or
    the transport reports the node disconnected or not ready), both
    [_perform_group_join] and [_send_sync_group_request] return a future
    already failed with the retriable [GroupCoordinatorNotAvailableError];
    nothing is sent (the trace is unchanged) and the world is unchanged or
    has only [coordinator_id] cleared. *)
Theorem send_guard_coordinator_unknown
    (policy : GroupPolicy) (request : Request) (w : World) :
  (coordinator_id w = None \/
   exists node, coordinator_id w = Some node /\
                (is_disconnected w node = true \/ ready w node = false)) ->
  exists w',
    _perform_group_join policy w =
      (Failed (Instance GroupCoordinatorNotAvailableError
                 [ArgNode (coordinator_id w')]), w') /\
    _send_sync_group_request request w =
      (Failed (Instance GroupCoordinatorNotAvailableError []), w') /\
    retriable GroupCoordinatorNotAvailableError = true /\
    trace w' = trace w /\
    (w' = w \/ w' = set_coordinator_id None w).
Proof.
  intros H. apply coordinator_unknown_true in H.
  exists (snd (coordinator_unknown w)).
  unfold _perform_group_join, _send_sync_group_request.
  destruct (coordinator_unknown w) as [unknown w'] eqn:Hu.
  simpl in H. subst unknown. cbn [snd].
  pose proof (coordinator_unknown_world w) as Hw. rewrite Hu in Hw.
  cbn [snd] in Hw.
  repeat split; auto.
  destruct Hw as [-> | ->]; reflexivity.
Qed.

Lemma send_guard_coordinator_unknown_witness :
  (coordinator_id world0 = None \/
   exists node, coordinator_id world0 = Some node /\
                (is_disconnected world0 node = true \/
                 ready world0 node = false)) /\
  exists w',
    _perform_group_join policy0 world0 =
      (Failed (Instance GroupCoordinatorNotAvailableError
                 [ArgNode (coordinator_id w')]), w') /\
    _send_sync_group_request
      (SyncGroupRequest "g" 1 "m1" []) world0 =
      (Failed (Instance GroupCoordinatorNotAvailableError []), w') /\
    retriable GroupCoordinatorNotAvailableError = true /\
    trace w' = trace world0 /\
    (w' = world0 \/ w' = set_coordinator_id None world0).
Proof.
  split.
  - left. reflexivity.
  - apply (send_guard_coordinator_unknown policy0
             (SyncGroupRequest "g" 1 "m1" []) world0).
    left. reflexivity.
Defined.

(** *** Session expiry in the heartbeat task *)

(** C7, as stated, fails: the member of [expired_rejoining_world] has its
    session expired and its task due, the task fires, and [coordinator_id]
    is still 7 afterwards, because the firing returns at its first guard
    ([need_rejoin()] holds). *)
Lemma session_expiry_not_always_coordinator_dead :
  ~ (forall w : World,
       session_expired w = true ->
       coordinator_id (task_fires w) = None /\
       scheduled (task_fires w) = None).
Proof.
  intros H.
  destruct (H expired_rejoining_world) as [Hc _]; [reflexivity|].
  vm_compute in Hc. discriminate Hc.
Qed.

(** The same run through the scheduler: the task is due, the scheduler
    fires it, the coordinator stays. *)
Lemma expired_rejoining_world_fires :
  session_expired expired_rejoining_world = true /\
  scheduled expired_rejoining_world = Some 35100 /\
  now expired_rejoining_world = 35100 /\
  coordinator_id (background TaskDue expired_rejoining_world) = Some 7.
Proof. vm_compute. auto. Qed.

(** C7, amended.  When the heartbeat task fires with the session expired
    it neither reschedules itself nor sends a heartbeat; and when moreover
    its first guard lets it through as far as the session test
    ([generation >= 0], no rejoin needed, and the coordinator, if set, is
    disconnected or ready), [coordinator_id] is cleared. *)
Theorem session_expiry_coordinator_dead (w : World) :
  session_expired w = true ->
  scheduled (task_fires w) = None /\
  trace (task_fires w) = trace w /\
  heartbeats_outstanding (task_fires w) = heartbeats_outstanding w /\
  (0 <= generation w ->
   need_rejoin w = false ->
   (forall node, coordinator_id w = Some node ->
                 is_disconnected w node = true \/ ready w node = true) ->
   coordinator_id (task_fires w) = None).
Proof.
  intros Hexp. destruct_world w.
  unfold task_fires, HeartbeatTask_call, need_rejoin, coordinator_unknown,
    coordinator_dead, session_expired, client_unschedule in *.
  simpl in *.
  destruct (gen <? 0) eqn:Hg.
  { repeat split; try reflexivity. intros Hge. apply Z.ltb_lt in Hg. lia. }
  destruct rn.
  { repeat split; try reflexivity. congruence. }
  destruct cid as [node|]; simpl.
  - destruct (isd node) eqn:Hd; simpl.
    + repeat split; reflexivity.
    + destruct (rdy node) eqn:Hrd; simpl.
      * rewrite Hexp. simpl. repeat split; reflexivity.
      * repeat split; try reflexivity.
        intros _ _ Hn. destruct (Hn node eq_refl); congruence.
  - repeat split; reflexivity.
Qed.

Lemma session_expiry_coordinator_dead_witness :
  session_expired (background (Clock 40000) stable_world) = true /\
  coordinator_id (background (Clock 40000) stable_world) = Some 7 /\
  coordinator_id
    (task_fires (background (Clock 40000) stable_world)) = None.
Proof.
  split; [reflexivity|]. split; [reflexivity|].
  apply (session_expiry_coordinator_dead
           (background (Clock 40000) stable_world)).
  - reflexivity.
  - vm_compute. discriminate.
  - reflexivity.
  - intros node Hn. right. reflexivity.
Defined.

(** *** Joining: JoinGroup then SyncGroup *)

Lemma poll_succeeded
    (policy : GroupPolicy) (value : Value) (w : World)
    (events : list NetEvent) :
  poll policy (Succeeded value) w events = Returned (Succeeded value) w events.
Proof. destruct events; reflexivity. Qed.

Lemma poll_failed
    (policy : GroupPolicy) (exception : Thrown) (w : World)
    (events : list NetEvent) :
  poll policy (Failed exception) w events =
  Returned (Failed exception) w events.
Proof. destruct events; reflexivity. Qed.

Lemma poll_pending
    (policy : GroupPolicy) (awaited : Awaited) (w : World) (ev : NetEvent)
    (events : list NetEvent) :
  poll policy (Pending awaited) w (ev :: events) =
  poll policy (fst (deliver policy awaited ev w))
    (snd (deliver policy awaited ev w)) events.
Proof. cbn [poll]. destruct (deliver policy awaited ev w); reflexivity. Qed.

Lemma ensure_coordinator_known_ready
    (policy : GroupPolicy) (fuel : nat) (w : World) (node : Z)
    (events : list NetEvent) :
  coordinator_ready w node ->
  ensure_coordinator_known policy (S fuel) w events = Returned tt w events.
Proof.
  intros H. cbn [ensure_coordinator_known].
  rewrite (coordinator_unknown_ready H). reflexivity.
Qed.

Lemma perform_group_join_ready
    (policy : GroupPolicy) (w : World) (node : Z) :
  coordinator_ready w node ->
  _perform_group_join policy w =
  (Pending AwaitJoin,
   client_send (Some node)
     (JoinGroupRequest (group_id (config w)) (session_timeout_ms (config w))
        (member_id w) (protocol_type policy)
        (map (fun '(protocol, metadata) => (protocol, to_bytes metadata))
           (group_protocols policy))) w).
Proof.
  intros H. unfold _perform_group_join.
  rewrite (coordinator_unknown_ready H). cbv iota beta.
  destruct H as (-> & _). reflexivity.
Qed.

Lemma send_sync_group_request_ready
    (request : Request) (w : World) (node : Z) :
  coordinator_ready w node ->
  _send_sync_group_request request w =
  (Pending AwaitSync, client_send (Some node) request w).
Proof.
  intros H. unfold _send_sync_group_request.
  rewrite (coordinator_unknown_ready H). cbv iota beta.
  destruct H as (-> & _). reflexivity.
Qed.

(** The join that nothing disturbs.  Let the coordinator be known and
    ready and a rejoin needed.  A JoinGroup response with error code 0,
    member id [m] and generation [g], with the SyncGroup response with
    error code 0 as the very next event (the leader's assignment, if this
    member is elected, being computed without an exception), makes
    [ensure_active_group] return with [member_id = m], [generation = g],
    [protocol] the response's [group_protocol] and [rejoin_needed = false];
    it has sent the two requests and nothing else, and its last act on the
    group policy is [_on_join_complete(g, m, protocol, member_assignment)]
    with the assignment of the sync response. *)
Lemma join_sync_adjacent
    (policy : GroupPolicy) (fuel : nat) (w : World) (node : Z)
    (join : JoinGroupResponse.t) (sync : SyncGroupResponse.t)
    (rest : list NetEvent) :
  need_rejoin w = true ->
  coordinator_ready w node ->
  JoinGroupResponse.error_code join = 0 ->
  SyncGroupResponse.error_code sync = 0 ->
  (JoinGroupResponse.leader_id join = JoinGroupResponse.member_id join ->
   exists group_assignment,
     _perform_assignment policy (JoinGroupResponse.leader_id join)
       (JoinGroupResponse.group_protocol join)
       (JoinGroupResponse.members join) = inr group_assignment) ->
  exists w',
    ensure_active_group policy (S (S fuel)) w
      (JoinReply join :: SyncReply sync :: rest) = Returned tt w' rest /\
    member_id w' = JoinGroupResponse.member_id join /\
    generation w' = JoinGroupResponse.generation_id join /\
    protocol w' = Some (JoinGroupResponse.group_protocol join) /\
    rejoin_needed w' = false /\
    trace w' =
      trace w
      ++ (if needs_join_prepare w
          then [OnJoinPrepare (generation w) (member_id w)] else [])
      ++ [Send (Some node)
            (JoinGroupRequest (group_id (config w))
               (session_timeout_ms (config w)) (member_id w)
               (protocol_type policy)
               (map (fun '(protocol, metadata) =>
                       (protocol, to_bytes metadata))
                  (group_protocols policy)));
          Send (Some node)
            (SyncGroupRequest (group_id (config w))
               (JoinGroupResponse.generation_id join)
               (JoinGroupResponse.member_id join)
               (sync_assignment policy join));
          OnJoinComplete (JoinGroupResponse.generation_id join)
            (JoinGroupResponse.member_id join)
            (Some (JoinGroupResponse.group_protocol join))
            (VBytes (SyncGroupResponse.member_assignment sync))].
Proof.
  intros Hrejoin Hready Hjoin Hsync Hassign.
  unfold ensure_active_group. rewrite Hrejoin. cbn [negb].
  set (w1 := if needs_join_prepare w then _ else w).
  assert (Hready1 : coordinator_ready w1 node).
  { subst w1. destruct Hready as (Hc & Hd & Hr).
    destruct (needs_join_prepare w); repeat split; assumption. }
  assert (Hrejoin1 : need_rejoin w1 = true).
  { subst w1. destruct (needs_join_prepare w); assumption. }
  cbn [join_loop]. rewrite Hrejoin1. cbn [negb].
  rewrite (ensure_coordinator_known_ready policy _ _ Hready1). cbn [bind].
  rewrite (perform_group_join_ready policy Hready1).
  set (w2 := client_send _ _ w1).
  assert (Hready2 : coordinator_ready w2 node).
  { subst w2. destruct Hready1 as (Hc & Hd & Hr). repeat split; assumption. }
  cbn [poll deliver]. unfold _handle_join_group_response.
  rewrite Hjoin. change (for_code 0) with NoError. cbv iota beta zeta.
  set (w3 := set_protocol _ _).
  assert (Hready3 : coordinator_ready w3 node).
  { subst w3. destruct Hready2 as (Hc & Hd & Hr). repeat split; assumption. }
  assert (Hsent :
    (if String.eqb (JoinGroupResponse.leader_id join)
          (JoinGroupResponse.member_id join)
     then _on_join_leader policy join w3 else _on_join_follower w3) =
    (Pending AwaitSync,
     client_send (Some node)
       (SyncGroupRequest (group_id (config w3)) (generation w3)
          (member_id w3) (sync_assignment policy join)) w3)).
  { unfold sync_assignment, _on_join_leader, _on_join_follower.
    destruct (String.eqb_spec (JoinGroupResponse.leader_id join)
                (JoinGroupResponse.member_id join)) as [Heq | Hneq].
    - destruct (Hassign Heq) as [group_assignment ->].
      apply (send_sync_group_request_ready _ Hready3).
    - apply (send_sync_group_request_ready _ Hready3). }
  rewrite Hsent. cbn [poll deliver]. unfold _handle_sync_group_response.
  rewrite Hsync. change (for_code 0) with NoError. cbv iota beta zeta.
  rewrite poll_succeeded. cbn [bind join_loop].
  match goal with
  | |- context [need_rejoin ?x] =>
      assert (Hstable : need_rejoin x = false)
        by (subst w3; unfold need_rejoin, HeartbeatTask_reset;
            destruct (negb _); reflexivity);
      rewrite Hstable
  end.
  cbn [negb].
  eexists. split; [reflexivity|].
  subst w3 w2. unfold HeartbeatTask_reset, reset_session_timeout,
    client_unschedule, client_schedule, client_send, record.
  destruct (_request_in_flight _); cbn;
    (repeat split; try reflexivity);
    subst w1; destruct (needs_join_prepare w); cbn;
    rewrite <- ?app_assoc; reflexivity.
Qed.


(** *** Close *)

Lemma background_keeps_task_idle (ev : NetEvent) (w : World) :
  scheduled w = None ->
  heartbeats_outstanding w = 0%nat ->
  scheduled (background ev w) = None /\
  heartbeats_outstanding (background ev w) = 0%nat.
Proof.
  intros Hs Ho. destruct ev; cbn [background]; try (split; assumption).
  - rewrite Hs. split; assumption.
  - rewrite Ho. split; assumption.
  - rewrite Ho. split; assumption.
Qed.

Lemma poll_leave_keeps_task_idle
    (policy : GroupPolicy) (events : list NetEvent) :
  forall (w : World) (future : Future) (w' : World) (rest : list NetEvent),
    scheduled w = None ->
    heartbeats_outstanding w = 0%nat ->
    poll policy (Pending AwaitLeave) w events = Returned future w' rest ->
    scheduled w' = None /\ heartbeats_outstanding w' = 0%nat.
Proof.
  induction events as [|ev events IH]; intros w future w' rest Hs Ho Hrun.
  - discriminate Hrun.
  - rewrite poll_pending in Hrun.
    destruct (@background_keeps_task_idle ev w Hs Ho) as [Hs' Ho'].
    destruct ev; cbn [deliver fst snd] in Hrun;
      try (eapply IH; [exact Hs'|exact Ho'|exact Hrun]).
    + rewrite poll_succeeded in Hrun. inversion Hrun; subst. auto.
    + rewrite poll_failed in Hrun. inversion Hrun; subst. auto.
Qed.

(** C8, as stated, fails.  The member of [heartbeating_world] has a
    heartbeat request in flight; it closes, and while [close] polls for the
    LeaveGroup response the heartbeat is answered, whose success handler
    schedules the task again: the state after one [close] has the task
    scheduled, the state after a second [close] has not. *)
Lemma close_not_idempotent_on_scheduler :
  ~ (forall (policy : GroupPolicy) (w : World) (events : list NetEvent)
            (w1 : World) (rest : list NetEvent),
       close policy w events = Returned tt w1 rest ->
       closed_state w1 /\
       exists w2,
         close policy w1 rest = Returned tt w2 rest /\
         closed_state w2 /\
         trace w2 = trace w1).
Proof.
  intros H.
  destruct (H policy0 heartbeating_world
              [heartbeat_reply 0; leave_reply 0]
              (final (close policy0 heartbeating_world
                        [heartbeat_reply 0; leave_reply 0]))
              [] eq_refl) as [(_ & _ & _ & Hs) _].
  vm_compute in Hs. discriminate Hs.
Qed.

(** The two states of that run, side by side. *)
Lemma close_once_and_twice :
  let once :=
    final (close policy0 heartbeating_world
             [heartbeat_reply 0; leave_reply 0]) in
  let twice := final (close policy0 once []) in
  scheduled once = Some 6000 /\ scheduled twice = None.
Proof. vm_compute. auto. Qed.

(** C8, amended.  A [close()] that returns leaves [generation = -1],
    [member_id] the unknown-member sentinel and [rejoin_needed = true], and
    the heartbeat task unscheduled if no heartbeat request was outstanding
    when it was called.  A second [close()] then returns at once, sends
    nothing (the trace is unchanged), consumes no event, ends in the same
    three values with the task unscheduled, and changes nothing else in the
    world but the scheduler entry and, through [coordinator_unknown], a
    [coordinator_id] whose connection was lost. *)
Theorem close_idempotent
    (policy : GroupPolicy) (w : World) (events : list NetEvent)
    (w1 : World) (rest : list NetEvent) :
  close policy w events = Returned tt w1 rest ->
  generation w1 = DEFAULT_GENERATION_ID /\
  member_id w1 = UNKNOWN_MEMBER_ID /\
  rejoin_needed w1 = true /\
  (heartbeats_outstanding w = 0%nat -> scheduled w1 = None) /\
  exists w2,
    close policy w1 rest = Returned tt w2 rest /\
    closed_state w2 /\
    trace w2 = trace w1 /\
    w2 = snd (coordinator_unknown (client_unschedule w1)).
Proof.
  intros Hrun. unfold close in Hrun.
  destruct (coordinator_unknown (client_unschedule w)) as [unknown wu] eqn:Hu.
  assert (Hwu : scheduled wu = None /\
                heartbeats_outstanding wu = heartbeats_outstanding w).
  { pose proof (coordinator_unknown_world (client_unschedule w)) as Hw.
    rewrite Hu in Hw. cbn [snd] in Hw.
    destruct Hw as [-> | ->]; split; reflexivity. }
  assert (Hfirst :
    exists wl, w1 = set_rejoin_needed true
                      (set_member_id UNKNOWN_MEMBER_ID
                         (set_generation DEFAULT_GENERATION_ID wl)) /\
               (heartbeats_outstanding w = 0%nat -> scheduled wl = None)).
  { destruct (negb unknown && (generation wu >? 0)).
    - destruct (poll policy (Pending AwaitLeave) _ events)
        as [future wl rest' | | ] eqn:Hpoll; cbn [bind] in Hrun;
        try discriminate Hrun.
      inversion Hrun; subst. exists wl. split; [reflexivity|].
      intros Ho. eapply poll_leave_keeps_task_idle; [| |exact Hpoll].
      + destruct Hwu as [Hs _]. exact Hs.
      + destruct Hwu as [_ Hk]. cbn. rewrite Hk. exact Ho.
    - cbn [bind] in Hrun. inversion Hrun; subst. exists wu.
      split; [reflexivity|]. intros _. apply Hwu. }
  destruct Hfirst as (wl & -> & Hsched).
  repeat (split; [first [reflexivity | exact Hsched]|]).
  set (wc := set_rejoin_needed true
               (set_member_id UNKNOWN_MEMBER_ID
                  (set_generation DEFAULT_GENERATION_ID wl))).
  unfold close.
  pose proof (coordinator_unknown_world (client_unschedule wc)) as Hw2.
  destruct (coordinator_unknown (client_unschedule wc))
    as [unknown2 w2] eqn:Hu2.
  cbn [snd] in Hw2.
  assert (Hgen : (generation w2 >? 0) = false)
    by (destruct Hw2 as [-> | ->]; reflexivity).
  rewrite Hgen, andb_false_r. cbn [bind].
  exists w2. cbn [snd].
  destruct Hw2 as [-> | ->]; subst wc; destruct_world wl;
    repeat split; reflexivity.
Qed.

Lemma close_idempotent_witness :
  close policy0 stable_world [leave_reply 0] =
    Returned tt (final (close policy0 stable_world [leave_reply 0])) [] /\
  closed_state (final (close policy0 stable_world [leave_reply 0])) /\
  exists w2,
    close policy0 (final (close policy0 stable_world [leave_reply 0])) [] =
      Returned tt w2 [] /\
    closed_state w2 /\
    trace w2 = trace (final (close policy0 stable_world [leave_reply 0])).
Proof.
  split; [reflexivity|].
  destruct (@close_idempotent policy0 stable_world [leave_reply 0]
              (final (close policy0 stable_world [leave_reply 0])) []
              eq_refl)
    as (Hg & Hm & Hr & Hs & w2 & Hrun & Hclosed & Ht & _).
  split.
  - split; [exact Hg|]. split; [exact Hm|]. split; [exact Hr|].
    apply Hs. reflexivity.
  - exists w2. split; [exact Hrun|]. split; [exact Hclosed|exact Ht].
Defined.

(** *** Invariants of the blocking operations

    The blocking operations are loops over handlers.  A property of the
    world that every handler preserves is preserved by the operations;
    the two sections below prove this once, for the operations that
    discover the coordinator and then for the join loop and [close]. *)

Unset Implicit Arguments.

Lemma holds_final {A : Type} (P : World -> Prop) (ok : NetEvent -> Prop)
    (o : Outcome A) :
  holds P ok o -> P (final o).
Proof. destruct o; simpl; tauto. Qed.

Lemma holds_bind2 {A B : Type} (Q P : World -> Prop) (ok : NetEvent -> Prop)
    (m : Outcome A) (k : A -> World -> list NetEvent -> Outcome B) :
  holds Q ok m ->
  (forall w, Q w -> P w) ->
  (forall a w rest, Q w -> Forall ok rest -> holds P ok (k a w rest)) ->
  holds P ok (bind m k).
Proof.
  intros Hm HQP Hk. destruct m as [a w rest | e w rest | w]; simpl in *.
  - destruct Hm. auto.
  - destruct Hm. auto.
  - auto.
Qed.

Lemma holds_bind {A B : Type} (P : World -> Prop) (ok : NetEvent -> Prop)
    (m : Outcome A) (k : A -> World -> list NetEvent -> Outcome B) :
  holds P ok m ->
  (forall a w rest, P w -> Forall ok rest -> holds P ok (k a w rest)) ->
  holds P ok (bind m k).
Proof.
  intros Hm Hk. apply holds_bind2 with (Q := P); auto.
Qed.

Lemma holds_weaken {A : Type} (P Q : World -> Prop) (ok : NetEvent -> Prop)
    (o : Outcome A) :
  (forall w, P w -> Q w) -> holds P ok o -> holds Q ok o.
Proof. intros HPQ. destruct o; simpl; intuition. Qed.

Lemma handle_sync_group_response_done
    (response : SyncGroupResponse.t) (w : World) :
  outside_join (fst (_handle_sync_group_response response w)).
Proof.
  unfold _handle_sync_group_response.
  destruct (for_code (SyncGroupResponse.error_code response)); exact I.
Qed.

Lemma handle_group_coordinator_response_done
    (response : GroupCoordinatorResponse.t) (w : World) :
  outside_join (fst (_handle_group_coordinator_response response w)).
Proof.
  unfold _handle_group_coordinator_response.
  destruct (coordinator_unknown w) as [unknown w1].
  destruct unknown; cbn [negb]; [|exact I].
  destruct (for_code (GroupCoordinatorResponse.error_code response));
    try exact I.
  destruct (add_group_coordinator w1 response); exact I.
Qed.

Lemma send_sync_group_request_not_join (request : Request) (w : World) :
  fst (_send_sync_group_request request w) <> Pending AwaitJoin.
Proof.
  unfold _send_sync_group_request.
  destruct (coordinator_unknown w) as [unknown w1].
  destruct unknown; discriminate.
Qed.

Lemma handle_join_group_response_not_join
    (policy : GroupPolicy) (response : JoinGroupResponse.t) (w : World) :
  fst (_handle_join_group_response policy response w) <> Pending AwaitJoin.
Proof.
  unfold _handle_join_group_response.
  destruct (for_code (JoinGroupResponse.error_code response));
    try discriminate.
  cbv zeta.
  destruct (String.eqb _ _).
  - unfold _on_join_leader.
    destruct (_perform_assignment _ _ _ _); [discriminate|].
    apply send_sync_group_request_not_join.
  - apply send_sync_group_request_not_join.
Qed.

Section Discovery.

Variable policy : GroupPolicy.
Variable ok : NetEvent -> Prop.
Variable P : World -> Prop.

Hypothesis P_background :
  forall ev w, ok ev -> P w -> P (background ev w).
Hypothesis P_coordinator_dead :
  forall w, P w -> P (coordinator_dead w).
Hypothesis P_metadata_request :
  forall w, P w -> P (snd (_send_group_metadata_request w)).
Hypothesis P_coordinator_response :
  forall response w,
    P w -> P (snd (_handle_group_coordinator_response response w)).

Lemma coordinator_unknown_holds (w : World) :
  P w -> P (snd (coordinator_unknown w)).
Proof.
  intros HP. unfold coordinator_unknown.
  destruct (coordinator_id w) as [node|]; [|exact HP].
  destruct (is_disconnected w node); cbn [snd]; auto.
Qed.

Lemma client_poll_holds (events : list NetEvent) :
  forall w, Forall ok events -> P w -> holds P ok (client_poll w events).
Proof.
  induction events as [|ev events IH]; intros w Hok HP.
  - exact HP.
  - inversion Hok as [|? ? Hev Hrest]; subst.
    destruct ev; cbn [client_poll];
      try (apply IH; [exact Hrest | apply P_background; assumption]).
    split; assumption.
Qed.

Lemma deliver_outside_join (awaited : Awaited) (ev : NetEvent) (w : World) :
  outside_join (Pending awaited) -> ok ev -> P w ->
  outside_join (fst (deliver policy awaited ev w)) /\
  P (snd (deliver policy awaited ev w)).
Proof.
  intros Hout Hev HP.
  destruct awaited; try contradiction;
    destruct ev; cbn [deliver fst snd _failed_request
                      _handle_leave_group_response];
    try (split; [exact I | first [exact HP | apply P_background; assumption
                                 | apply P_coordinator_dead; exact HP]]).
  split.
  - apply handle_group_coordinator_response_done.
  - apply P_coordinator_response. exact HP.
Qed.

Lemma poll_outside_join_holds (events : list NetEvent) :
  forall future w,
    outside_join future -> Forall ok events -> P w ->
    holds P ok (poll policy future w events).
Proof.
  induction events as [|ev events IH]; intros future w Hout Hok HP.
  - destruct future; simpl; auto.
  - destruct future as [awaited | value | exception].
    + rewrite poll_pending.
      inversion Hok as [|? ? Hev Hrest]; subst.
      destruct (@deliver_outside_join awaited ev w Hout Hev HP) as [Hf Hw].
      apply IH; assumption.
    + rewrite poll_succeeded. split; assumption.
    + rewrite poll_failed. split; assumption.
Qed.

Lemma ensure_coordinator_known_holds (fuel : nat) :
  forall w events,
    Forall ok events -> P w ->
    holds P ok (ensure_coordinator_known policy fuel w events).
Proof.
  induction fuel as [|fuel IH]; intros w events Hok HP.
  - exact HP.
  - cbn [ensure_coordinator_known].
    pose proof (@coordinator_unknown_holds w HP) as HP1.
    destruct (coordinator_unknown w) as [unknown w1]. cbn [snd] in HP1.
    destruct unknown; cbn [negb]; [|split; assumption].
    destruct (coordinator_id w1).
    + apply holds_bind.
      * apply client_poll_holds; assumption.
      * intros _ w2 rest HP2 Hrest. apply IH; assumption.
    + pose proof (P_metadata_request w1 HP1) as HP2.
      assert (Hout : outside_join (fst (_send_group_metadata_request w1))).
      { unfold _send_group_metadata_request.
        destruct (least_loaded_node w1) as [node|]; [|exact I].
        destruct (negb (ready w1 node)); exact I. }
      destruct (_send_group_metadata_request w1) as [future w2].
      cbn [fst snd] in *.
      apply holds_bind.
      * apply poll_outside_join_holds; assumption.
      * intros future' w3 rest HP3 Hrest.
        destruct future' as [awaited | value | exception].
        -- apply IH; assumption.
        -- apply IH; assumption.
        -- destruct (future_retriable exception).
           ++ apply holds_bind.
              ** apply poll_outside_join_holds; [exact I|assumption..].
              ** intros _ w4 rest' HP4 Hrest'. apply IH; assumption.
           ++ split; assumption.
Qed.

End Discovery.

Section Joining.

Variable policy : GroupPolicy.
Variable ok : NetEvent -> Prop.

(** [P] is the invariant; [Armed] holds in addition from the test of the
    join loop to the sending of the JoinGroup request, and [Awaiting] from
    there to the handling of its response. *)
Variable P : World -> Prop.
Variable Armed : World -> Prop.
Variable Awaiting : World -> Prop.

Hypothesis P_background :
  forall ev w, ok ev -> P w -> P (background ev w).
Hypothesis P_coordinator_dead :
  forall w, P w -> P (coordinator_dead w).
Hypothesis P_metadata_request :
  forall w, P w -> P (snd (_send_group_metadata_request w)).
Hypothesis P_coordinator_response :
  forall response w,
    P w -> P (snd (_handle_group_coordinator_response response w)).
Hypothesis P_join_response :
  forall response w,
    ok (JoinReply response) -> P w -> Awaiting w ->
    P (snd (_handle_join_group_response policy response w)).
Hypothesis P_sync_response :
  forall response w,
    P w -> P (snd (_handle_sync_group_response response w)).
Hypothesis P_join_complete :
  forall value w,
    P w ->
    P (HeartbeatTask_reset
         (set_needs_join_prepare true
            (record (OnJoinComplete (generation w) (member_id w)
                       (protocol w) value) w))).
Hypothesis P_sleep : forall w, P w -> P (sleep_backoff w).

Hypothesis Armed_loop : forall w, P w -> need_rejoin w = true -> Armed w.
Hypothesis Armed_background :
  forall ev w, ok ev -> Armed w -> Armed (background ev w).
Hypothesis Armed_coordinator_dead :
  forall w, Armed w -> Armed (coordinator_dead w).
Hypothesis Armed_metadata_request :
  forall w, Armed w -> Armed (snd (_send_group_metadata_request w)).
Hypothesis Armed_coordinator_response :
  forall response w,
    Armed w -> Armed (snd (_handle_group_coordinator_response response w)).

Hypothesis P_join_request :
  forall w,
    P w -> Armed w ->
    P (snd (_perform_group_join policy w)) /\
    (fst (_perform_group_join policy w) = Pending AwaitJoin ->
     Awaiting (snd (_perform_group_join policy w))).
Hypothesis Awaiting_background :
  forall ev w, ok ev -> Awaiting w -> Awaiting (background ev w).

Lemma deliver_holds (awaited : Awaited) (ev : NetEvent) (w : World) :
  ok ev -> P w -> (awaited = AwaitJoin -> Awaiting w) ->
  P (snd (deliver policy awaited ev w)) /\
  (fst (deliver policy awaited ev w) = Pending AwaitJoin ->
   Awaiting (snd (deliver policy awaited ev w))).
Proof.
  intros Hev HP HA.
  destruct awaited.
  - (* AwaitJoin *)
    specialize (HA eq_refl).
    destruct ev; cbn [deliver fst snd _failed_request];
      try (split; [apply P_background; assumption
                  | intros _; apply Awaiting_background; assumption]).
    + split; [apply P_join_response; assumption|].
      intros Hf. exfalso.
      exact (handle_join_group_response_not_join policy response w Hf).
    + split; [apply P_coordinator_dead; exact HP | discriminate].
  - (* AwaitSync *)
    destruct ev; cbn [deliver fst snd _failed_request];
      try (split; [apply P_background; assumption | discriminate]).
    + split; [apply P_sync_response; exact HP|].
      intros Hf.
      pose proof (handle_sync_group_response_done response w) as Hd.
      rewrite Hf in Hd. contradiction.
    + split; [apply P_coordinator_dead; exact HP | discriminate].
  - (* AwaitCoordinator *)
    destruct (deliver_outside_join policy ok P P_background
                P_coordinator_dead P_coordinator_response
                AwaitCoordinator ev w I Hev HP) as [Hout HP'].
    split; [exact HP'|]. intros Hf. rewrite Hf in Hout. contradiction.
  - (* AwaitLeave *)
    destruct (deliver_outside_join policy ok P P_background
                P_coordinator_dead P_coordinator_response
                AwaitLeave ev w I Hev HP) as [Hout HP'].
    split; [exact HP'|]. intros Hf. rewrite Hf in Hout. contradiction.
  - (* AwaitMetadata *)
    destruct (deliver_outside_join policy ok P P_background
                P_coordinator_dead P_coordinator_response
                AwaitMetadata ev w I Hev HP) as [Hout HP'].
    split; [exact HP'|]. intros Hf. rewrite Hf in Hout. contradiction.
Qed.

Lemma poll_holds (events : list NetEvent) :
  forall future w,
    (future = Pending AwaitJoin -> Awaiting w) ->
    Forall ok events -> P w ->
    holds P ok (poll policy future w events).
Proof.
  induction events as [|ev events IH]; intros future w HA Hok HP.
  - destruct future; simpl; auto.
  - destruct future as [awaited | value | exception].
    + rewrite poll_pending.
      inversion Hok as [|? ? Hev Hrest]; subst.
      assert (HA' : awaited = AwaitJoin -> Awaiting w)
        by (intros ->; apply HA; reflexivity).
      destruct (deliver_holds awaited ev w Hev HP HA') as [HP' Hnext].
      apply IH; assumption.
    + rewrite poll_succeeded. split; assumption.
    + rewrite poll_failed. split; assumption.
Qed.

Lemma join_loop_holds (fuel : nat) :
  forall w events,
    Forall ok events -> P w ->
    holds P ok (join_loop policy fuel w events).
Proof.
  induction fuel as [|fuel IH]; intros w events Hok HP.
  - exact HP.
  - cbn [join_loop].
    destruct (need_rejoin w) eqn:Hrejoin; cbn [negb];
      [|split; assumption].
    apply holds_bind2 with (Q := fun w => P w /\ Armed w).
    + apply ensure_coordinator_known_holds.
      * intros ev w0 Hev [HP0 HA0]. split;
          [apply P_background | apply Armed_background]; assumption.
      * intros w0 [HP0 HA0]. split;
          [apply P_coordinator_dead | apply Armed_coordinator_dead];
          assumption.
      * intros w0 [HP0 HA0]. split;
          [apply P_metadata_request | apply Armed_metadata_request];
          assumption.
      * intros response w0 [HP0 HA0]. split;
          [apply P_coordinator_response
          | apply Armed_coordinator_response]; assumption.
      * exact Hok.
      * split; [exact HP | apply Armed_loop; assumption].
    + tauto.
    + intros _ w1 rest [HP1 HA1] Hrest.
      destruct (P_join_request w1 HP1 HA1) as [HP2 HA2].
      destruct (_perform_group_join policy w1) as [future w2].
      cbn [fst snd] in HP2, HA2.
      apply holds_bind.
      * apply poll_holds; assumption.
      * intros future' w3 rest' HP3 Hrest'.
        destruct future' as [awaited | value | exception].
        -- exact HP3.
        -- apply IH; [exact Hrest'|]. apply P_join_complete. exact HP3.
        -- destruct (isinstance_restart exception).
           ++ apply IH; assumption.
           ++ destruct (future_retriable exception); cbn [negb].
              ** apply IH; [exact Hrest'|]. apply P_sleep. exact HP3.
              ** split; assumption.
Qed.

(** [ensure_active_group], given that the call of [_on_join_prepare]
    preserves the invariant. *)
Lemma ensure_active_group_holds (fuel : nat) (w : World)
    (events : list NetEvent) :
  (forall w, P w -> need_rejoin w = true ->
     P (set_needs_join_prepare false
          (record (OnJoinPrepare (generation w) (member_id w)) w))) ->
  Forall ok events -> P w ->
  holds P ok (ensure_active_group policy fuel w events).
Proof.
  intros P_prepare Hok HP. unfold ensure_active_group.
  destruct (need_rejoin w) eqn:Hrejoin; cbn [negb]; [|split; assumption].
  apply join_loop_holds; [exact Hok|].
  destruct (needs_join_prepare w); [apply P_prepare|]; assumption.
Qed.

(** [close], given that its own assignments preserve the invariant. *)
Lemma close_holds (w : World) (events : list NetEvent) :
  (forall w, P w -> P (client_unschedule w)) ->
  (forall w, P w ->
     P (client_send (coordinator_id w)
          (LeaveGroupRequest (group_id (config w)) (member_id w)) w)) ->
  (forall w, P w ->
     P (set_rejoin_needed true
          (set_member_id UNKNOWN_MEMBER_ID
             (set_generation DEFAULT_GENERATION_ID w)))) ->
  Forall ok events -> P w ->
  holds P ok (close policy w events).
Proof.
  intros P_unschedule P_leave P_reset Hok HP. unfold close.
  pose proof (coordinator_unknown_holds P P_coordinator_dead
                (client_unschedule w) (P_unschedule w HP)) as HP1.
  destruct (coordinator_unknown (client_unschedule w)) as [unknown w1].
  cbn [snd] in HP1.
  apply holds_bind2 with (Q := P).
  - destruct (negb unknown && (generation w1 >? 0)).
    + apply poll_holds; [discriminate | exact Hok | apply P_leave; exact HP1].
    + split; assumption.
  - auto.
  - intros _ w2 rest HP2 Hrest. split; [apply P_reset; exact HP2 | exact Hrest].
Qed.

End Joining.

(** *** The membership between rejoins *)

#[local] Arguments for_code error_code : simpl never.

(** Case analysis on every test an operation makes, the world being a
    record of variables. *)
Ltac world_cases :=
  repeat (cbn;
          match goal with
          | |- context [match ?x with _ => _ end] =>
              lazymatch x with
              | context [match _ with _ => _ end] => fail
              | _ => destruct x eqn:?
              end
          end);
  cbn.

Ltac keeps_tac :=
  unfold keeps_membership; world_cases;
  first [left; reflexivity | right; repeat split; reflexivity].

Lemma keeps_membership_adopted (w w' : World) :
  keeps_membership w w' -> membership_adopted w -> membership_adopted w'.
Proof.
  unfold keeps_membership, membership_adopted.
  intros [Hr | (Hr & Hg & Hm)] HJ Hfalse; [congruence|].
  rewrite Hg, Hm. apply HJ. congruence.
Qed.

Lemma keeps_membership_rejoin (w w' : World) :
  keeps_membership w w' -> rejoin_needed w = true -> rejoin_needed w' = true.
Proof.
  unfold keeps_membership. intros [Hr | (Hr & _)] Hw; congruence.
Qed.

Lemma keeps_coordinator_dead (w : World) :
  keeps_membership w (coordinator_dead w).
Proof.
  destruct_world w. unfold coordinator_dead. keeps_tac.
Qed.

Lemma keeps_heartbeat_response (response : HeartbeatResponse.t) (w : World) :
  keeps_membership w
    (heartbeat_done (_handle_heartbeat_response response w)).
Proof.
  destruct_world w.
  unfold heartbeat_done, _handle_heartbeat_response, coordinator_dead,
    _handle_heartbeat_success, _handle_heartbeat_failure.
  keeps_tac.
Qed.

Lemma keeps_task_fires (w : World) : keeps_membership w (task_fires w).
Proof.
  destruct_world w.
  unfold task_fires, HeartbeatTask_call, coordinator_unknown,
    coordinator_dead, need_rejoin, session_expired, should_heartbeat.
  keeps_tac.
Qed.

Lemma keeps_background (ev : NetEvent) (w : World) :
  keeps_membership w (background ev w).
Proof.
  destruct ev; cbn [background];
    try (right; repeat split; reflexivity).
  - destruct (scheduled w) as [due|]; [|right; repeat split; reflexivity].
    destruct (due <=? now w); [apply keeps_task_fires|].
    right; repeat split; reflexivity.
  - destruct (heartbeats_outstanding w) as [|n];
      [right; repeat split; reflexivity|].
    destruct (keeps_heartbeat_response response
                (set_heartbeats_outstanding n w)) as [H | (H1 & H2 & H3)];
      [left; exact H | right; repeat split; assumption].
  - destruct (heartbeats_outstanding w) as [|n];
      [right; repeat split; reflexivity|].
    destruct_world w.
    unfold heartbeat_done, _failed_request, coordinator_dead,
      _handle_heartbeat_failure.
    keeps_tac.
Qed.

Lemma keeps_metadata_request (w : World) :
  keeps_membership w (snd (_send_group_metadata_request w)).
Proof.
  destruct_world w. unfold _send_group_metadata_request. keeps_tac.
Qed.

Lemma keeps_coordinator_response
    (response : GroupCoordinatorResponse.t) (w : World) :
  keeps_membership w (snd (_handle_group_coordinator_response response w)).
Proof.
  destruct_world w.
  unfold _handle_group_coordinator_response, coordinator_unknown,
    coordinator_dead, HeartbeatTask_reset.
  keeps_tac.
Qed.

Lemma keeps_sync_response (response : SyncGroupResponse.t) (w : World) :
  keeps_membership w (snd (_handle_sync_group_response response w)).
Proof.
  destruct_world w.
  unfold _handle_sync_group_response, coordinator_dead.
  keeps_tac.
Qed.

Lemma keeps_join_complete (value : Value) (w : World) :
  keeps_membership w
    (HeartbeatTask_reset
       (set_needs_join_prepare true
          (record (OnJoinComplete (generation w) (member_id w)
                     (protocol w) value) w))).
Proof.
  destruct_world w. unfold HeartbeatTask_reset. keeps_tac.
Qed.

Lemma keeps_sleep (w : World) : keeps_membership w (sleep_backoff w).
Proof. right. repeat split; reflexivity. Qed.

Lemma keeps_join_request (policy : GroupPolicy) (w : World) :
  keeps_membership w (snd (_perform_group_join policy w)).
Proof.
  destruct_world w.
  unfold _perform_group_join, coordinator_unknown, coordinator_dead.
  keeps_tac.
Qed.

Lemma keeps_send_sync (request : Request) (w : World) :
  keeps_membership w (snd (_send_sync_group_request request w)).
Proof.
  destruct_world w.
  unfold _send_sync_group_request, coordinator_unknown, coordinator_dead.
  keeps_tac.
Qed.

Lemma adopted_join_response
    (policy : GroupPolicy) (response : JoinGroupResponse.t) (w : World) :
  broker_well_formed (JoinReply response) ->
  membership_adopted w ->
  rejoin_needed w = true ->
  membership_adopted (snd (_handle_join_group_response policy response w)).
Proof.
  intros Hok HJ Hrejoin. unfold _handle_join_group_response.
  destruct (for_code (JoinGroupResponse.error_code response)) eqn:E;
    try (cbn [snd]; intros Hfalse; exfalso;
         first [ rewrite Hrejoin in Hfalse; discriminate Hfalse
               | unfold coordinator_dead in Hfalse;
                 destruct (coordinator_id w);
                 cbn in Hfalse; congruence ]).
  apply for_code_NoError in E. destruct (Hok E) as [Hg Hm].
  cbv zeta.
  set (w3 := set_protocol _ _).
  assert (HJ3 : membership_adopted w3) by (intros _; split; assumption).
  destruct (String.eqb _ _).
  - unfold _on_join_leader.
    destruct (_perform_assignment _ _ _ _); [exact HJ3|].
    eapply keeps_membership_adopted; [apply keeps_send_sync | exact HJ3].
  - eapply keeps_membership_adopted; [apply keeps_send_sync | exact HJ3].
Qed.

Ltac membership_side :=
  intros;
  first
    [ assumption
    | eapply keeps_membership_adopted;
      [ first [ apply keeps_background | apply keeps_coordinator_dead
              | apply keeps_metadata_request
              | apply keeps_coordinator_response
              | apply keeps_sync_response | apply keeps_join_complete
              | apply keeps_sleep ]
      | assumption ]
    | eapply keeps_membership_rejoin;
      [ first [ apply keeps_background | apply keeps_coordinator_dead
              | apply keeps_metadata_request
              | apply keeps_coordinator_response ]
      | assumption ]
    | apply adopted_join_response; assumption
    | split;
      [ eapply keeps_membership_adopted;
        [apply keeps_join_request | assumption]
      | intros _; eapply keeps_membership_rejoin;
        [apply keeps_join_request | assumption] ]
    | intros Hfalse; discriminate Hfalse ].

(** C1, amended.  In every reachable world, the broker answering
    JoinGroup without error only with a generation that is not negative
    and a member id that is not the sentinel: if [rejoin_needed] is false
    then [generation >= 0] and [member_id] is not the unknown-member
    sentinel.  Nothing is said of [coordinator_id], which the heartbeat
    response handler, [coordinator_unknown], [_failed_request] and the
    session expiry clear without asking for a rejoin. *)
Theorem stable_membership_invariant (policy : GroupPolicy) (w : World) :
  Reachable policy w ->
  rejoin_needed w = false ->
  0 <= generation w /\ member_id w <> UNKNOWN_MEMBER_ID.
Proof.
  intros Hreach. change (membership_adopted w).
  induction Hreach as
    [ configs disconnected connected least_loaded cluster_accepts t
    | fuel w events Hreach IH Hok
    | fuel w events Hreach IH Hok
    | w events Hreach IH Hok
    | w events Hreach IH Hok ].
  - intros Hfalse. discriminate Hfalse.
  - apply holds_final with (ok := broker_well_formed).
    apply ensure_active_group_holds
      with (Armed := fun w => rejoin_needed w = true)
           (Awaiting := fun w => rejoin_needed w = true);
      membership_side.
  - apply holds_final with (ok := broker_well_formed).
    apply ensure_coordinator_known_holds; membership_side.
  - apply holds_final with (ok := broker_well_formed).
    apply close_holds with (Awaiting := fun w => rejoin_needed w = true);
      membership_side.
  - apply holds_final with (ok := broker_well_formed).
    apply client_poll_holds; membership_side.
Qed.

Ltac broker_ok :=
  repeat (apply Forall_cons;
          [first [ exact I
                 | intros _; split; [vm_compute; discriminate | discriminate] ]
          |]);
  apply Forall_nil.

Lemma stable_world_reachable : Reachable policy0 stable_world.
Proof.
  unfold stable_world, world0.
  apply reach_ensure_active_group; [apply reach_init | broker_ok].
Qed.

Lemma heartbeating_world_reachable : Reachable policy0 heartbeating_world.
Proof.
  unfold heartbeating_world.
  apply reach_poll; [apply stable_world_reachable | broker_ok].
Qed.

Lemma moved_world_reachable : Reachable policy0 moved_world.
Proof.
  unfold moved_world.
  apply reach_poll; [apply heartbeating_world_reachable | broker_ok].
Qed.

(** C1, as stated, fails.  After a clean join (generation 1, member "m1",
    coordinator 7) the member sends a heartbeat, which is answered with
    code 16 (NotCoordinatorForGroup): the handler marks the coordinator
    dead and leaves [rejoin_needed] false, so the member is in a reachable
    world without a pending rejoin and without a coordinator. *)
Lemma stable_state_not_invariant :
  ~ (forall w : World, Reachable policy0 w -> stable_state w).
Proof.
  intros H.
  destruct (H moved_world moved_world_reachable) as (_ & _ & Hc).
  - reflexivity.
  - apply Hc. reflexivity.
Qed.

(** The handler alone takes a world in which the predicate holds to one
    in which it does not. *)
Lemma heartbeat_response_breaks_stable_state :
  stable_state heartbeating_world /\
  ~ stable_state
      (snd (_handle_heartbeat_response
              {| HeartbeatResponse.error_code := 16 |} heartbeating_world)).
Proof.
  split.
  - intros _. repeat split; vm_compute; discriminate.
  - intros H. destruct H as (_ & _ & Hc); [reflexivity|].
    apply Hc. reflexivity.
Qed.

Lemma stable_membership_invariant_witness :
  Reachable policy0 stable_world /\
  rejoin_needed stable_world = false /\
  0 <= generation stable_world /\
  member_id stable_world <> UNKNOWN_MEMBER_ID.
Proof.
  assert (Hreach : Reachable policy0 stable_world).
  { unfold stable_world, world0.
    apply reach_ensure_active_group; [apply reach_init | broker_ok]. }
  split; [exact Hreach|].
  split; [reflexivity|].
  apply (stable_membership_invariant policy0 stable_world Hreach).
  reflexivity.
Defined.

(** *** The heartbeat in flight *)

Ltac task_tac w :=
  let H1 := fresh "H" in
  let H2 := fresh "H" in
  let r := fresh "rif" in
  intros [H1 H2];
  destruct w as [? ? ? ? ? ? ? ? ? ? r ? ? ? ? ? ? ? ?]; cbn in H1, H2;
  destruct r; [specialize (H2 eq_refl)|clear H2]; subst;
  unfold task_consistent; world_cases;
  (split; [reflexivity | intros; first [reflexivity | discriminate]]).

Lemma task_coordinator_dead (w : World) :
  task_consistent w -> task_consistent (coordinator_dead w).
Proof. unfold coordinator_dead. task_tac w. Qed.

Lemma task_fires_consistent (w : World) :
  task_consistent w -> scheduled w <> None ->
  task_consistent (task_fires w).
Proof.
  intros [H1 H2] Hs.
  assert (Hrif : _request_in_flight w = false).
  { destruct (_request_in_flight w); [|reflexivity].
    exfalso. apply Hs. apply H2. reflexivity. }
  clear H2 Hs. destruct_world w. cbn in H1, Hrif. subst.
  unfold task_fires, HeartbeatTask_call, coordinator_unknown,
    coordinator_dead, need_rejoin, session_expired, should_heartbeat,
    _send_heartbeat_request.
  unfold task_consistent; world_cases;
    (split; [reflexivity | intros; first [reflexivity | discriminate]]).
Qed.

Lemma task_heartbeat_response (response : HeartbeatResponse.t) (w : World) :
  heartbeats_outstanding w = 0%nat ->
  task_consistent (heartbeat_done (_handle_heartbeat_response response w)).
Proof.
  intros Ho. destruct_world w. cbn in Ho. subst.
  unfold heartbeat_done, _handle_heartbeat_response, coordinator_dead,
    _handle_heartbeat_success, _handle_heartbeat_failure.
  unfold task_consistent; world_cases;
    (split; [reflexivity | intros; first [reflexivity | discriminate]]).
Qed.

Lemma task_background (ev : NetEvent) (w : World) :
  task_consistent w -> task_consistent (background ev w).
Proof.
  intros HT. destruct ev; cbn [background]; try exact HT.
  - destruct (scheduled w) as [due|] eqn:Hs; [|exact HT].
    destruct (due <=? now w); [|exact HT].
    apply task_fires_consistent; [exact HT | congruence].
  - destruct (heartbeats_outstanding w) as [|n] eqn:Ho; [exact HT|].
    apply task_heartbeat_response.
    destruct HT as [H1 _]. rewrite Ho in H1.
    destruct (_request_in_flight w); [|discriminate H1].
    cbn. congruence.
  - destruct (heartbeats_outstanding w) as [|n] eqn:Ho; [exact HT|].
    destruct HT as [H1 _]. rewrite Ho in H1.
    destruct (_request_in_flight w); [|discriminate H1].
    assert (n = 0%nat) by congruence. subst n.
    destruct_world w. cbn in Ho. subst.
    unfold heartbeat_done, _failed_request, coordinator_dead,
      _handle_heartbeat_failure.
    unfold task_consistent; world_cases;
      (split; [reflexivity | intros; first [reflexivity | discriminate]]).
Qed.

Lemma task_metadata_request (w : World) :
  task_consistent w -> task_consistent (snd (_send_group_metadata_request w)).
Proof. unfold _send_group_metadata_request. task_tac w. Qed.

Lemma task_coordinator_response
    (response : GroupCoordinatorResponse.t) (w : World) :
  task_consistent w ->
  task_consistent (snd (_handle_group_coordinator_response response w)).
Proof.
  unfold _handle_group_coordinator_response, coordinator_unknown,
    coordinator_dead, HeartbeatTask_reset.
  task_tac w.
Qed.

Lemma task_join_response
    (policy : GroupPolicy) (response : JoinGroupResponse.t) (w : World) :
  task_consistent w ->
  task_consistent (snd (_handle_join_group_response policy response w)).
Proof.
  unfold _handle_join_group_response, _on_join_leader, _on_join_follower,
    _send_sync_group_request, coordinator_unknown, coordinator_dead.
  task_tac w.
Qed.

Lemma task_sync_response (response : SyncGroupResponse.t) (w : World) :
  task_consistent w ->
  task_consistent (snd (_handle_sync_group_response response w)).
Proof.
  unfold _handle_sync_group_response, coordinator_dead. task_tac w.
Qed.

Lemma task_join_complete (value : Value) (w : World) :
  task_consistent w ->
  task_consistent
    (HeartbeatTask_reset
       (set_needs_join_prepare true
          (record (OnJoinComplete (generation w) (member_id w)
                     (protocol w) value) w))).
Proof. unfold HeartbeatTask_reset. task_tac w. Qed.

Lemma task_join_request (policy : GroupPolicy) (w : World) :
  task_consistent w ->
  task_consistent (snd (_perform_group_join policy w)).
Proof.
  unfold _perform_group_join, coordinator_unknown, coordinator_dead.
  task_tac w.
Qed.

Ltac task_side :=
  intros;
  first
    [ assumption
    | exact I
    | apply task_background; assumption
    | apply task_coordinator_dead; assumption
    | apply task_metadata_request; assumption
    | apply task_coordinator_response; assumption
    | apply task_join_response; assumption
    | apply task_sync_response; assumption
    | apply task_join_complete; assumption
    | split; [apply task_join_request; assumption | intros _; exact I]
    | match goal with
      | H : task_consistent ?w |- _ =>
          revert H; clear; task_tac w
      end ].

Lemma reachable_task_consistent (policy : GroupPolicy) (w : World) :
  Reachable policy w -> task_consistent w.
Proof.
  intros Hreach.
  induction Hreach as
    [ configs disconnected connected least_loaded cluster_accepts t
    | fuel w events Hreach IH Hok
    | fuel w events Hreach IH Hok
    | w events Hreach IH Hok
    | w events Hreach IH Hok ].
  - split; [reflexivity | intros H; discriminate H].
  - apply holds_final with (ok := broker_well_formed).
    apply ensure_active_group_holds
      with (Armed := fun _ => True) (Awaiting := fun _ => True);
      task_side.
  - apply holds_final with (ok := broker_well_formed).
    apply ensure_coordinator_known_holds; task_side.
  - apply holds_final with (ok := broker_well_formed).
    apply close_holds with (Awaiting := fun _ => True); task_side.
  - apply holds_final with (ok := broker_well_formed).
    apply client_poll_holds; task_side.
Qed.

(** C3.  In every reachable world at most one heartbeat request is
    outstanding.  The task is scheduled only while none is in flight, so
    a firing, which the scheduler makes of a scheduled task, issues a
    request only when [_request_in_flight] is false; [reset] schedules
    nothing while [_request_in_flight] is true; and each of the two
    callbacks clears [_request_in_flight] in the world in which it then
    schedules the task. *)
Theorem single_in_flight_heartbeat (policy : GroupPolicy) (w : World) :
  Reachable policy w ->
  (heartbeats_outstanding w <= 1)%nat /\
  (forall due, scheduled w = Some due ->
     _request_in_flight w = false /\ heartbeats_outstanding w = 0%nat) /\
  ((heartbeats_outstanding w <
    heartbeats_outstanding (background TaskDue w))%nat ->
   _request_in_flight w = false) /\
  (_request_in_flight w = true -> scheduled (HeartbeatTask_reset w) = None) /\
  (let w1 := received_heartbeat (set_request_in_flight false w) in
   _request_in_flight w1 = false /\
   _handle_heartbeat_success w = client_schedule (now w1 + ttl w1) w1) /\
  (forall e,
     let w1 := set_request_in_flight false w in
     _request_in_flight w1 = false /\
     _handle_heartbeat_failure e w =
       client_schedule (now w1 + retry_backoff_ms (config w1)) w1).
Proof.
  intros Hreach.
  destruct (reachable_task_consistent policy w Hreach) as [Hcount Hsched].
  assert (Hdue : forall due, scheduled w = Some due ->
                   _request_in_flight w = false /\
                   heartbeats_outstanding w = 0%nat).
  { intros due Hs. destruct (_request_in_flight w).
    - rewrite (Hsched eq_refl) in Hs. discriminate Hs.
    - split; [reflexivity | exact Hcount]. }
  split; [rewrite Hcount; destruct (_request_in_flight w); lia|].
  split; [exact Hdue|].
  split.
  { cbn [background]. destruct (scheduled w) as [due|] eqn:Hs; [|lia].
    intros _. apply (Hdue due eq_refl). }
  split.
  { intros Hflight. unfold HeartbeatTask_reset.
    cbn [_request_in_flight client_unschedule reset_session_timeout
         set_scheduled set_last_receive set_last_session_reset].
    rewrite Hflight. reflexivity. }
  split; [split; reflexivity|].
  intros e. split; reflexivity.
Qed.

Lemma single_in_flight_heartbeat_witness :
  Reachable policy0 heartbeating_world /\
  heartbeats_outstanding heartbeating_world = 1%nat /\
  (heartbeats_outstanding heartbeating_world <= 1)%nat.
Proof.
  assert (Hreach : Reachable policy0 heartbeating_world).
  { unfold heartbeating_world, stable_world, world0.
    apply reach_poll; [|broker_ok].
    apply reach_ensure_active_group; [apply reach_init | broker_ok]. }
  split; [exact Hreach|].
  split; [reflexivity|].
  apply (single_in_flight_heartbeat policy0 heartbeating_world Hreach).
Defined.

(** *** What the operations add to the trace *)

Ltac routine_tac :=
  unfold routine_step; world_cases;
  (split;
   [ eexists; split;
     [ first [symmetry; apply app_nil_r | reflexivity] | reflexivity ]
   | first [left; reflexivity | right; reflexivity] ]).

Lemma routine_step_refl (w : World) : routine_step w w.
Proof.
  split; [|left; reflexivity].
  exists []. split; [symmetry; apply app_nil_r | reflexivity].
Qed.

Lemma routine_coordinator_dead (w : World) :
  routine_step w (coordinator_dead w).
Proof. destruct_world w. unfold coordinator_dead. routine_tac. Qed.

Lemma routine_task_fires (w : World) : routine_step w (task_fires w).
Proof.
  destruct_world w.
  unfold task_fires, HeartbeatTask_call, coordinator_unknown,
    coordinator_dead, need_rejoin, session_expired, should_heartbeat,
    _send_heartbeat_request.
  routine_tac.
Qed.

Lemma routine_heartbeat_response
    (response : HeartbeatResponse.t) (w : World) :
  routine_step w (heartbeat_done (_handle_heartbeat_response response w)).
Proof.
  destruct_world w.
  unfold heartbeat_done, _handle_heartbeat_response, coordinator_dead,
    _handle_heartbeat_success, _handle_heartbeat_failure.
  routine_tac.
Qed.

Lemma routine_background (ev : NetEvent) (w : World) :
  routine_step w (background ev w).
Proof.
  destruct ev; cbn [background]; try apply routine_step_refl.
  - destruct_world w. routine_tac.
  - destruct_world w. routine_tac.
  - destruct (scheduled w) as [due|]; [|apply routine_step_refl].
    destruct (due <=? now w);
      [apply routine_task_fires | apply routine_step_refl].
  - destruct (heartbeats_outstanding w) as [|n]; [apply routine_step_refl|].
    destruct_world w.
    unfold heartbeat_done, _handle_heartbeat_response, coordinator_dead,
      _handle_heartbeat_success, _handle_heartbeat_failure.
    routine_tac.
  - destruct (heartbeats_outstanding w) as [|n]; [apply routine_step_refl|].
    destruct_world w.
    unfold heartbeat_done, _failed_request, coordinator_dead,
      _handle_heartbeat_failure.
    routine_tac.
Qed.

Lemma routine_metadata_request (w : World) :
  routine_step w (snd (_send_group_metadata_request w)).
Proof.
  destruct_world w. unfold _send_group_metadata_request. routine_tac.
Qed.

Lemma routine_coordinator_response
    (response : GroupCoordinatorResponse.t) (w : World) :
  routine_step w (snd (_handle_group_coordinator_response response w)).
Proof.
  destruct_world w.
  unfold _handle_group_coordinator_response, coordinator_unknown,
    coordinator_dead, HeartbeatTask_reset.
  routine_tac.
Qed.

Lemma routine_sync_response (response : SyncGroupResponse.t) (w : World) :
  routine_step w (snd (_handle_sync_group_response response w)).
Proof.
  destruct_world w.
  unfold _handle_sync_group_response, coordinator_dead.
  routine_tac.
Qed.

Lemma routine_join_complete (value : Value) (w : World) :
  routine_step w
    (HeartbeatTask_reset
       (set_needs_join_prepare true
          (record (OnJoinComplete (generation w) (member_id w)
                     (protocol w) value) w))).
Proof. destruct_world w. unfold HeartbeatTask_reset. routine_tac. Qed.

Lemma routine_sleep (w : World) : routine_step w (sleep_backoff w).
Proof. destruct_world w. unfold sleep_backoff. routine_tac. Qed.

(** The join response handler adds only routine effects (a SyncGroup
    request at most); it may set [member_id] to anything. *)
Lemma join_response_adds_routine
    (policy : GroupPolicy) (response : JoinGroupResponse.t) (w : World) :
  exists added,
    trace (snd (_handle_join_group_response policy response w)) =
      trace w ++ added /\
    forallb routine added = true.
Proof.
  destruct_world w.
  unfold _handle_join_group_response, _on_join_leader, _on_join_follower,
    _send_sync_group_request, coordinator_unknown, coordinator_dead.
  world_cases;
    (eexists; split;
     [ first [symmetry; apply app_nil_r | reflexivity] | reflexivity ]).
Qed.

(** [_perform_group_join] sends nothing, or one JoinGroup request that
    carries the [member_id] of the moment; it does not change
    [member_id]. *)
Lemma join_request_adds (policy : GroupPolicy) (w : World) :
  member_id (snd (_perform_group_join policy w)) = member_id w /\
  ((fst (_perform_group_join policy w) <> Pending AwaitJoin /\
    trace (snd (_perform_group_join policy w)) = trace w) \/
   (exists node group timeout kind protocols,
      trace (snd (_perform_group_join policy w)) =
        trace w ++ [Send node (JoinGroupRequest group timeout (member_id w)
                                 kind protocols)])).
Proof.
  destruct_world w.
  unfold _perform_group_join, coordinator_unknown, coordinator_dead.
  world_cases;
    (split; [reflexivity|]);
    first [ left; split; [discriminate | reflexivity]
          | right; do 5 eexists; reflexivity ].
Qed.

(** *** Prepare before join *)

Lemma routine_not_prepare (added : list Effect) :
  forallb routine added = true ->
  forallb (fun e => negb (is_prepare e)) added = true.
Proof.
  induction added as [|e added IH]; [reflexivity|].
  cbn [forallb]. rewrite !andb_true_iff. intros [He Hrest].
  split; [|apply IH; exact Hrest].
  destruct e; try reflexivity. discriminate He.
Qed.

Lemma no_prepare_since_adds
    (before added : list Effect) (w w' : World) :
  trace w' = trace w ++ added ->
  forallb (fun e => negb (is_prepare e)) added = true ->
  no_prepare_since before w -> no_prepare_since before w'.
Proof.
  intros Ht Hadded (added0 & Ht0 & Hadded0).
  exists (added0 ++ added). split.
  - rewrite Ht, Ht0. symmetry. apply app_assoc.
  - rewrite forallb_app, Hadded0, Hadded. reflexivity.
Qed.

Lemma no_prepare_since_routine (before : list Effect) (w w' : World) :
  routine_step w w' ->
  no_prepare_since before w -> no_prepare_since before w'.
Proof.
  intros [(added & Ht & Hadded) _].
  apply no_prepare_since_adds with (added := added);
    [exact Ht | apply routine_not_prepare; exact Hadded].
Qed.

Lemma no_prepare_since_join_request
    (policy : GroupPolicy) (before : list Effect) (w : World) :
  no_prepare_since before w ->
  no_prepare_since before (snd (_perform_group_join policy w)).
Proof.
  destruct (join_request_adds policy w)
    as [_ [[_ Ht] | (node & group & timeout & kind & protocols & Ht)]].
  - apply no_prepare_since_adds with (added := []);
      [rewrite Ht; symmetry; apply app_nil_r | reflexivity].
  - apply no_prepare_since_adds
      with (added := [Send node (JoinGroupRequest group timeout (member_id w)
                                   kind protocols)]);
      [exact Ht | reflexivity].
Qed.

Ltac no_prepare_side policy :=
  intros;
  first
    [ exact I
    | split;
      [apply no_prepare_since_join_request; assumption | intros _; exact I]
    | match goal with
      | |- no_prepare_since _
             (snd (_handle_join_group_response _ ?response ?w)) =>
          destruct (join_response_adds_routine policy response w)
            as (?added & ?Ht & ?Hadded);
          eapply no_prepare_since_adds;
          [eassumption | apply routine_not_prepare; eassumption | assumption]
      end
    | eapply no_prepare_since_routine;
      [ first [ apply routine_background | apply routine_coordinator_dead
              | apply routine_metadata_request
              | apply routine_coordinator_response
              | apply routine_sync_response | apply routine_join_complete
              | apply routine_sleep ]
      | assumption ] ].

(** C6, amended.  In a call of [ensure_active_group],
    [_on_join_prepare(generation, member_id)] is invoked at most once: it
    is invoked, as the first effect of the call and so before every
    JoinGroup request of the call, exactly when [need_rejoin()] and
    [needs_join_prepare] both hold on entry; everything the call does
    after that contains no call of [_on_join_prepare]. *)
Theorem prepare_before_join
    (policy : GroupPolicy) (fuel : nat) (w : World)
    (events : list NetEvent) :
  exists added,
    trace (final (ensure_active_group policy fuel w events)) =
      trace w
      ++ (if need_rejoin w && needs_join_prepare w
          then [OnJoinPrepare (generation w) (member_id w)] else [])
      ++ added /\
    forallb (fun e => negb (is_prepare e)) added = true.
Proof.
  unfold ensure_active_group.
  destruct (need_rejoin w) eqn:Hrejoin; cbn [negb andb].
  - set (before :=
           trace w ++
           (if needs_join_prepare w
            then [OnJoinPrepare (generation w) (member_id w)] else [])).
    set (w1 := if needs_join_prepare w then _ else w).
    assert (Hstart : no_prepare_since before w1).
    { exists []. split; [|reflexivity]. subst before w1.
      destruct (needs_join_prepare w); cbn;
        rewrite ?app_nil_r; reflexivity. }
    assert (Hend : no_prepare_since before
                     (final (join_loop policy fuel w1 events))).
    { apply holds_final with (ok := fun _ => True).
      apply join_loop_holds
        with (Armed := fun _ => True) (Awaiting := fun _ => True);
        try no_prepare_side policy.
      - clear. induction events; constructor; auto.
      - exact Hstart. }
    destruct Hend as (added & Ht & Hadded).
    exists added. split; [|exact Hadded].
    rewrite Ht. subst before. symmetry. apply app_assoc.
  - exists []. split; [|reflexivity].
    cbn [final app]. rewrite app_nil_r. reflexivity.
Qed.

(** C6, as stated, fails.  A first call of [ensure_active_group] invokes
    [_on_join_prepare] and is refused its JoinGroup with code 24
    (InvalidGroupId), which it raises; [needs_join_prepare] stays false.
    The next call begins with [need_rejoin()] true, sends a JoinGroup
    request, completes the join, and never invokes [_on_join_prepare]. *)
Lemma prepare_not_once_per_chain :
  ~ (forall (fuel : nat) (w : World) (events : list NetEvent),
       need_rejoin w = true ->
       finished (ensure_active_group policy0 fuel w events) = true ->
       count_prepare
         (effects_since w
            (final (ensure_active_group policy0 fuel w events))) = 1%nat).
Proof.
  intros H.
  specialize (H 5%nat refused_world
                [join_reply 0 1 "m1" "m2"; sync_reply 0]
                eq_refl eq_refl).
  vm_compute in H. discriminate H.
Qed.

(** The two calls of that run. *)
Lemma refused_then_joined :
  (exists exception rest,
     ensure_active_group policy0 5 world0
       [coordinator_is_7; join_reply 24 0 "" ""] =
     Raised exception refused_world rest) /\
  needs_join_prepare refused_world = false /\
  need_rejoin refused_world = true /\
  effects_since refused_world
    (final (ensure_active_group policy0 5 refused_world
              [join_reply 0 1 "m1" "m2"; sync_reply 0])) =
  [ Send (Some 7)
      (JoinGroupRequest "kafka-python-default-group" 30000 "" "consumer"
         [("range", [])]);
    Send (Some 7) (SyncGroupRequest "kafka-python-default-group" 1 "m1" []);
    OnJoinComplete 1 "m1" (Some "range") (VBytes [Byte.x0a; Byte.x0b]) ].
Proof.
  split; [do 2 eexists; vm_compute; reflexivity|].
  vm_compute. auto.
Qed.

(** *** Retrying a refused JoinGroup *)

Lemma first_join_app_some (a b : list Effect) (member : string) :
  first_join_member a = Some member ->
  first_join_member (a ++ b) = Some member.
Proof.
  induction a as [|e a IH]; [discriminate|].
  cbn [app first_join_member].
  destruct e as [| | node request |]; try exact IH.
  destruct request; try exact IH. auto.
Qed.

Lemma first_join_app_none (a b : list Effect) :
  first_join_member a = None ->
  first_join_member (a ++ b) = first_join_member b.
Proof.
  induction a as [|e a IH]; [reflexivity|].
  cbn [app first_join_member].
  destruct e as [| | node request |]; try exact IH.
  destruct request; try exact IH. discriminate.
Qed.

Lemma routine_no_join (added : list Effect) :
  forallb routine added = true -> first_join_member added = None.
Proof.
  induction added as [|e added IH]; [reflexivity|].
  cbn [forallb first_join_member]. rewrite andb_true_iff. intros [He Hrest].
  destruct e as [| | node request |]; try (apply IH; exact Hrest).
  destruct request; try (apply IH; exact Hrest). discriminate He.
Qed.

Lemma rejoined_adds (before added : list Effect) (w w' : World) :
  trace w' = trace w ++ added ->
  rejoined_as_unknown before w -> rejoined_as_unknown before w'.
Proof.
  intros Ht (added0 & Ht0 & Hfirst).
  exists (added0 ++ added). split.
  - rewrite Ht, Ht0. symmetry. apply app_assoc.
  - apply first_join_app_some. exact Hfirst.
Qed.

Lemma rejoined_routine (before : list Effect) (w w' : World) :
  routine_step w w' ->
  rejoined_as_unknown before w -> rejoined_as_unknown before w'.
Proof.
  intros [(added & Ht & _) _]. apply rejoined_adds with (added := added).
  exact Ht.
Qed.

Lemma retrying_routine (before : list Effect) (w w' : World) :
  routine_step w w' ->
  retrying_as_unknown before w -> retrying_as_unknown before w'.
Proof.
  intros Hstep [Hjoined | (Hmember & added0 & Ht0 & Hnone)].
  - left. apply rejoined_routine with (w := w); assumption.
  - destruct Hstep as [(added & Ht & Hadded) Hm].
    right. split.
    + destruct Hm as [Hm | Hm]; congruence.
    + exists (added0 ++ added). split.
      * rewrite Ht, Ht0. symmetry. apply app_assoc.
      * rewrite first_join_app_none by exact Hnone.
        apply routine_no_join. exact Hadded.
Qed.

Lemma retrying_join_request
    (policy : GroupPolicy) (before : list Effect) (w : World) :
  retrying_as_unknown before w ->
  retrying_as_unknown before (snd (_perform_group_join policy w)) /\
  (fst (_perform_group_join policy w) = Pending AwaitJoin ->
   rejoined_as_unknown before (snd (_perform_group_join policy w))).
Proof.
  intros Hretry.
  destruct (join_request_adds policy w)
    as [Hm [[Hf Ht] | (node & group & timeout & kind & protocols & Ht)]].
  - split; [|intros Hp; contradiction].
    destruct Hretry as [Hjoined | (Hmember & added0 & Ht0 & Hnone)].
    + left. apply rejoined_adds with (added := []) (w := w);
        [rewrite Ht; symmetry; apply app_nil_r | exact Hjoined].
    + right. split; [congruence|].
      exists added0. split; [congruence | exact Hnone].
  - assert (Hjoined :
      rejoined_as_unknown before (snd (_perform_group_join policy w))).
    { destruct Hretry as [Hjoined | (Hmember & added0 & Ht0 & Hnone)].
      - eapply rejoined_adds; [exact Ht | exact Hjoined].
      - exists (added0 ++ [Send node (JoinGroupRequest group timeout
                                        (member_id w) kind protocols)]).
        split.
        + rewrite Ht, Ht0. symmetry. apply app_assoc.
        + rewrite first_join_app_none by exact Hnone.
          cbn. rewrite Hmember. reflexivity. }
    split; [left; exact Hjoined | intros _; exact Hjoined].
Qed.

Ltac retrying_side policy :=
  intros;
  first
    [ exact I
    | apply retrying_join_request; assumption
    | match goal with
      | Hjoined : rejoined_as_unknown _ ?w
        |- retrying_as_unknown _
             (snd (_handle_join_group_response _ ?response ?w)) =>
          left;
          destruct (join_response_adds_routine policy response w)
            as (?added & ?Ht & ?Hadded);
          eapply rejoined_adds; [eassumption | exact Hjoined]
      end
    | eapply retrying_routine;
      [ first [ apply routine_background | apply routine_coordinator_dead
              | apply routine_metadata_request
              | apply routine_coordinator_response
              | apply routine_sync_response | apply routine_join_complete
              | apply routine_sleep ]
      | assumption ]
    | eapply rejoined_routine; [apply routine_background | assumption] ].

Lemma join_loop_retrying
    (policy : GroupPolicy) (before : list Effect) (fuel : nat) (w : World)
    (events : list NetEvent) :
  retrying_as_unknown before w ->
  retrying_as_unknown before (final (join_loop policy fuel w events)).
Proof.
  intros Hstart.
  apply holds_final with (ok := fun _ => True).
  apply join_loop_holds
    with (Armed := fun _ => True)
         (Awaiting := rejoined_as_unknown before);
    try retrying_side policy.
  - clear. induction events; constructor; auto.
  - exact Hstart.
Qed.

(** A JoinGroup failure the loop restarts on at once: the join request is
    sent, the reply fails the future with [exception], and the next turn
    of the loop begins in the world the handler left, nothing having been
    slept. *)
Lemma join_loop_restart
    (policy : GroupPolicy) (fuel : nat) (w : World) (node : Z)
    (response : JoinGroupResponse.t) (events : list NetEvent)
    (exception : Thrown) (w' : World) :
  need_rejoin w = true ->
  coordinator_ready w node ->
  _handle_join_group_response policy response
    (snd (_perform_group_join policy w)) = (Failed exception, w') ->
  isinstance_restart exception = true ->
  join_loop policy (S fuel) w (JoinReply response :: events) =
  join_loop policy fuel w' events.
Proof.
  intros Hrejoin Hready Hhandler Hrestart.
  cbn [join_loop]. rewrite Hrejoin. cbn [negb].
  rewrite (ensure_coordinator_known_ready policy _ _ Hready). cbn [bind].
  rewrite (perform_group_join_ready policy Hready) in *.
  cbn [snd] in Hhandler.
  rewrite poll_pending. cbn [deliver]. rewrite Hhandler. cbn [fst snd].
  rewrite poll_failed. cbn [bind]. rewrite Hrestart. reflexivity.
Qed.

(** C5.  Let a rejoin be needed and the coordinator be known and ready,
    so that the loop of [ensure_active_group] sends a JoinGroup request.
    On a response with error code 25 the handler fails the future with an
    [UnknownMemberIdError] and resets [member_id] to the sentinel; the loop
    then goes to its next turn at once, in the world the handler left: the
    trace has gained the request and no [Sleep], the clock has not moved,
    a rejoin is still needed.  From there on, the first JoinGroup request
    the loop sends, if it sends one, carries the empty member id, and
    until it sends one [member_id] stays empty.  On code 27
    (RebalanceInProgress) or 22 (IllegalGeneration) the loop goes to its
    next turn at once as well, in the world in which the request was
    sent. *)
Theorem join_unknown_member_id_retry
    (policy : GroupPolicy) (fuel : nat) (w : World) (node : Z)
    (response : JoinGroupResponse.t) (events : list NetEvent) :
  need_rejoin w = true ->
  coordinator_ready w node ->
  JoinGroupResponse.error_code response = 25 ->
  let request :=
    JoinGroupRequest (group_id (config w)) (session_timeout_ms (config w))
      (member_id w) (protocol_type policy)
      (map (fun '(protocol, metadata) => (protocol, to_bytes metadata))
         (group_protocols policy)) in
  let sent := client_send (Some node) request w in
  let reset := set_member_id UNKNOWN_MEMBER_ID sent in
  (forall w0,
     _handle_join_group_response policy response w0 =
     (Failed (Instance UnknownMemberIdError [ArgString (member_id w0)]),
      set_member_id UNKNOWN_MEMBER_ID w0)) /\
  join_loop policy (S fuel) w (JoinReply response :: events) =
    join_loop policy fuel reset events /\
  trace reset = trace w ++ [Send (Some node) request] /\
  now reset = now w /\
  need_rejoin reset = true /\
  member_id reset = UNKNOWN_MEMBER_ID /\
  retrying_as_unknown (trace reset)
    (final (join_loop policy fuel reset events)) /\
  (forall response',
     JoinGroupResponse.error_code response' = 27 \/
     JoinGroupResponse.error_code response' = 22 ->
     join_loop policy (S fuel) w (JoinReply response' :: events) =
       join_loop policy fuel sent events).
Proof.
  intros Hrejoin Hready Hcode request sent reset.
  assert (Hhandler : forall w0,
            _handle_join_group_response policy response w0 =
            (Failed (Instance UnknownMemberIdError [ArgString (member_id w0)]),
             set_member_id UNKNOWN_MEMBER_ID w0)).
  { intros w0. unfold _handle_join_group_response. rewrite Hcode.
    reflexivity. }
  split; [exact Hhandler|].
  split.
  { apply join_loop_restart
      with (node := node)
           (exception := Instance UnknownMemberIdError
                           [ArgString (member_id w)]);
      try assumption; [|reflexivity].
    rewrite (perform_group_join_ready policy Hready). cbn [snd].
    rewrite Hhandler. reflexivity. }
  split; [reflexivity|].
  split; [reflexivity|].
  split; [exact Hrejoin|].
  split; [reflexivity|].
  split.
  { apply join_loop_retrying. right. split; [reflexivity|].
    exists []. split; [symmetry; apply app_nil_r | reflexivity]. }
  intros response' Hcode'.
  apply join_loop_restart
    with (node := node)
         (exception :=
            Instance (for_code (JoinGroupResponse.error_code response')) []);
    try assumption.
  - rewrite (perform_group_join_ready policy Hready). cbn [snd].
    unfold _handle_join_group_response.
    destruct Hcode' as [-> | ->]; reflexivity.
  - destruct Hcode' as [-> | ->]; reflexivity.
Qed.

Lemma join_unknown_member_id_retry_witness :
  need_rejoin stale_world = true /\
  coordinator_ready stale_world 7 /\
  JoinGroupResponse.error_code (join_response 25 0 "" "") = 25 /\
  join_loop policy0 3 stale_world
    [join_reply 25 0 "" ""; join_reply 0 1 "m1" "m2"; sync_reply 0] =
  join_loop policy0 2
    (set_member_id UNKNOWN_MEMBER_ID
       (client_send (Some 7)
          (JoinGroupRequest "kafka-python-default-group" 30000 "stale"
             "consumer" [("range", [])]) stale_world))
    [join_reply 0 1 "m1" "m2"; sync_reply 0].
Proof.
  split; [vm_compute; reflexivity|].
  split; [repeat split; vm_compute; reflexivity|].
  split; [reflexivity|].
  apply (@join_unknown_member_id_retry policy0 2 stale_world 7
           (join_response 25 0 "" "")
           [join_reply 0 1 "m1" "m2"; sync_reply 0]).
  - vm_compute; reflexivity.
  - repeat split; vm_compute; reflexivity.
  - reflexivity.
Defined.

(** That run, whole: the stale member id goes out first, the
    empty one next, and nothing is slept in between. *)
Lemma stale_member_rejoins :
  effects_since stale_world
    (final (join_loop policy0 3 stale_world
              [join_reply 25 0 "" ""; join_reply 0 1 "m1" "m2";
               sync_reply 0])) =
  [ Send (Some 7)
      (JoinGroupRequest "kafka-python-default-group" 30000 "stale"
         "consumer" [("range", [])]);
    Send (Some 7)
      (JoinGroupRequest "kafka-python-default-group" 30000 "" "consumer"
         [("range", [])]);
    Send (Some 7) (SyncGroupRequest "kafka-python-default-group" 1 "m1" []);
    OnJoinComplete 1 "m1" (Some "range") (VBytes [Byte.x0a; Byte.x0b]) ].
Proof. vm_compute. reflexivity. Qed.

(** ** Further properties of the code *)

(** *** kafka/common.py *)

(** X1.  The table [kafka_errors] loses no class: every broker error
    class is what [for_code] answers for its own [errno], and whatever
    [for_code] answers, other than the default [UnknownError], has the
    code as its [errno]. *)
Theorem for_code_errno_round_trip :
  (forall cls n,
     In cls _iter_broker_errors -> errno cls = Some n -> for_code n = cls) /\
  (forall error_code,
     for_code error_code <> UnknownError ->
     errno (for_code error_code) = Some error_code) /\
  (forall cls, In cls _iter_broker_errors -> errno cls <> None).
Proof.
  split; [|split].
  - intros cls n Hin Hn. cbn in Hin.
    repeat (destruct Hin as [<- | Hin];
            [cbn in Hn; inversion Hn; subst; reflexivity|]).
    contradiction.
  - apply for_code_errno.
  - intros cls Hin. cbn in Hin.
    repeat (destruct Hin as [<- | Hin]; [discriminate|]).
    contradiction.
Qed.

Lemma for_code_UnknownError (error_code : Z) :
  for_code error_code = UnknownError <-> (error_code < 0 \/ 31 < error_code).
Proof.
  rewrite for_code_unfold. unfold for_code_table.
  destruct (Z.ltb_spec error_code (-1)) as [Hlo | Hlo]; cbn [orb].
  { split; [intros _; left; lia | reflexivity]. }
  destruct (Z.ltb_spec 31 error_code) as [Hhi | Hhi]; cbn [orb].
  { split; [intros _; right; lia | reflexivity]. }
  assert (Hc : error_code = -1 \/
               exists n, (n <= 31)%nat /\ error_code = Z.of_nat n).
  { destruct (Z.eq_dec error_code (-1)); [now left|right].
    exists (Z.to_nat error_code). split; lia. }
  destruct Hc as [-> | [n [Hn ->]]].
  { split; [intros _; left; lia | reflexivity]. }
  do 32 (destruct n as [|n];
         [split; [intros H; discriminate H | intros [H | H]; cbn in H; lia]|]).
  lia.
Qed.

(** X2.  A code that is not in the table is answered with the default:
    [for_code] gives [UnknownError] exactly for the codes below 0 or above
    31 (the code -1 being that of [UnknownError] itself). *)
Theorem for_code_default (error_code : Z) :
  for_code error_code = UnknownError <-> (error_code < 0 \/ 31 < error_code).
Proof. exact (for_code_UnknownError error_code). Qed.

(** X3.  [check_error] passes exactly the payloads whose error is 0; it
    raises the exception instance it is given, whereas a class object,
    which is not an instance of [Exception] and has no attribute [error],
    makes it fail with an [AttributeError]; for a payload with another
    error it raises an instance of the class of that code, which is never
    [NoError]. *)
Theorem check_error_behaviour (response : Checkable) :
  (check_error response = CheckPasses <-> response = APayload 0) /\
  (forall e, response = AThrown e ->
     match e with
     | Class _ => check_error response = CheckAttributeError
     | _ => check_error response = CheckReraises e
     end) /\
  (forall error, response = APayload error -> error <> 0 ->
     check_error response = CheckRaises (for_code error) error /\
     for_code error <> NoError).
Proof.
  split; [|split].
  - destruct response as [e | error]; cbn.
    + destruct (isinstance_Exception e); split; intros H; discriminate H.
    + destruct (Z.eqb_spec error 0) as [-> | Hne]; cbn.
      * split; reflexivity.
      * split; intros H; [discriminate H | inversion H; contradiction].
  - intros e ->. destruct e; reflexivity.
  - intros error -> Hne. cbn.
    destruct (Z.eqb_spec error 0) as [Heq | _]; [contradiction|]. cbn.
    split; [reflexivity|].
    intros H. apply for_code_NoError in H. contradiction.
Qed.

Lemma check_error_behaviour_witness :
  APayload 25 = APayload 25 /\ 25 <> 0 /\
  check_error (APayload 25) = CheckRaises UnknownMemberIdError 25 /\
  check_error (AThrown (Class UnknownMemberIdError)) = CheckAttributeError.
Proof.
  split; [reflexivity|]. split; [lia|]. split.
  - destruct (check_error_behaviour (APayload 25)) as (_ & _ & H).
    destruct (H 25 eq_refl) as [Hraise _]; [lia|]. exact Hraise.
  - destruct (check_error_behaviour (AThrown (Class UnknownMemberIdError)))
      as (_ & H & _).
    exact (H (Class UnknownMemberIdError) eq_refl).
Defined.

(** *** Discovery of the coordinator *)

Lemma poll_never_raises (policy : GroupPolicy) (events : list NetEvent) :
  forall future w exception w' rest,
    poll policy future w events <> Raised exception w' rest.
Proof.
  induction events as [|ev events IH]; intros future w exception w' rest.
  - destruct future; discriminate.
  - destruct future as [awaited | value | error].
    + rewrite poll_pending. apply IH.
    + discriminate.
    + discriminate.
Qed.

Lemma client_poll_never_raises (events : list NetEvent) :
  forall w exception w' rest,
    client_poll w events <> Raised exception w' rest.
Proof.
  induction events as [|ev events IH]; intros w exception w' rest.
  - discriminate.
  - destruct ev; cbn [client_poll]; try apply IH. discriminate.
Qed.

Lemma ensures_bind {A B : Type} (R : World -> Prop) (E : Thrown -> Prop)
    (m : Outcome A) (k : A -> World -> list NetEvent -> Outcome B) :
  ensures (fun _ => True) E m ->
  (forall a w rest, ensures R E (k a w rest)) ->
  ensures R E (bind m k).
Proof.
  intros Hm Hk. destruct m as [a w rest | e w rest | w]; cbn in *; auto.
Qed.

Lemma ensures_never_raises {A : Type} (E : Thrown -> Prop) (o : Outcome A) :
  (forall exception w rest, o <> Raised exception w rest) ->
  ensures (fun _ => True) E o.
Proof.
  intros H. destruct o as [a w rest | e w rest | w]; cbn; auto.
  exfalso. exact (H e w rest eq_refl).
Qed.

Lemma coordinator_unknown_false (w w1 : World) :
  coordinator_unknown w = (false, w1) ->
  w1 = w /\ exists node, coordinator_ready w node.
Proof.
  unfold coordinator_unknown.
  destruct (coordinator_id w) as [node|] eqn:Hc; [|discriminate].
  destruct (is_disconnected w node) eqn:Hd; [discriminate|].
  destruct (ready w node) eqn:Hr; cbn [negb]; [|discriminate].
  intros H. inversion H; subst w1. split; [reflexivity|].
  exists node. repeat split; assumption.
Qed.

Lemma ensure_coordinator_known_ensures
    (policy : GroupPolicy) (fuel : nat) :
  forall w events,
    ensures (fun w' => exists node, coordinator_ready w' node)
      (fun exception => future_retriable exception = false)
      (ensure_coordinator_known policy fuel w events).
Proof.
  induction fuel as [|fuel IH]; intros w events; [exact I|].
  cbn [ensure_coordinator_known].
  destruct (coordinator_unknown w) as [unknown w1] eqn:Hu.
  destruct unknown; cbn [negb].
  - destruct (coordinator_id w1).
    + apply ensures_bind.
      * apply ensures_never_raises. apply client_poll_never_raises.
      * intros _ w2 rest. apply IH.
    + destruct (_send_group_metadata_request w1) as [future w2].
      apply ensures_bind.
      * apply ensures_never_raises. apply poll_never_raises.
      * intros future' w3 rest.
        destruct future' as [awaited | value | exception]; try apply IH.
        destruct (future_retriable exception) eqn:Hr.
        -- apply ensures_bind.
           ++ apply ensures_never_raises. apply poll_never_raises.
           ++ intros _ w4 rest'. apply IH.
        -- exact Hr.
  - destruct (coordinator_unknown_false w w1 Hu) as [-> Hready]. exact Hready.
Qed.

(** X4.  When [ensure_coordinator_known] returns, the coordinator is
    known: [coordinator_id] is set and the transport reports that node
    connected and ready.  When it raises, the exception is one that is not
    retriable; a retriable failure of the discovery is never raised. *)
Theorem ensure_coordinator_known_postcondition
    (policy : GroupPolicy) (fuel : nat) (w : World)
    (events : list NetEvent) :
  match ensure_coordinator_known policy fuel w events with
  | Returned _ w' _ => exists node, coordinator_ready w' node
  | Raised exception _ _ => future_retriable exception = false
  | Unfinished _ => True
  end.
Proof. exact (ensure_coordinator_known_ensures policy fuel w events). Qed.

(** X5.  Discovery in one round trip.  With no coordinator set and a
    least-loaded node that is ready, [ensure_coordinator_known] sends one
    GroupCoordinator request for the group to that node; a response
    without error that the cluster metadata accepts, naming a node that is
    connected and ready, makes it return with that node as coordinator,
    the heartbeat task being reset only if the generation is positive. *)
Theorem ensure_coordinator_known_discovers
    (policy : GroupPolicy) (fuel : nat) (w : World) (broker : Z)
    (response : GroupCoordinatorResponse.t) (rest : list NetEvent) :
  coordinator_id w = None ->
  least_loaded_node w = Some broker ->
  ready w broker = true ->
  GroupCoordinatorResponse.error_code response = 0 ->
  add_group_coordinator w response = true ->
  is_disconnected w (GroupCoordinatorResponse.coordinator_id response)
    = false ->
  ready w (GroupCoordinatorResponse.coordinator_id response) = true ->
  let sent :=
    client_send (Some broker) (GroupCoordinatorRequest (group_id (config w)))
      w in
  let found :=
    set_coordinator_id
      (Some (GroupCoordinatorResponse.coordinator_id response)) sent in
  ensure_coordinator_known policy (S (S fuel)) w
    (CoordinatorReply response :: rest) =
  Returned tt
    (if generation w >? 0 then HeartbeatTask_reset found else found) rest.
Proof.
  intros Hc Hl Hr Hcode Hok Hd Hr' sent found.
  subst sent found.
  destruct_world w. cbn in Hc, Hl, Hr, Hok, Hd, Hr'. subst cid lln.
  cbn [ensure_coordinator_known coordinator_unknown coordinator_id negb].
  unfold _send_group_metadata_request. cbn [least_loaded_node ready].
  rewrite Hr. cbn [negb].
  rewrite poll_pending. cbn [deliver fst snd].
  unfold _handle_group_coordinator_response, coordinator_unknown.
  rewrite Hcode. change (for_code 0) with NoError.
  cbn. rewrite Hok. cbn.
  rewrite poll_succeeded. cbn [bind].
  apply ensure_coordinator_known_ready
    with (node := GroupCoordinatorResponse.coordinator_id response).
  unfold HeartbeatTask_reset.
  destruct (gen >? 0); [destruct rif|]; repeat split; assumption.
Qed.

Lemma ensure_coordinator_known_discovers_witness :
  coordinator_id world0 = None /\
  least_loaded_node world0 = Some 1 /\
  ensure_coordinator_known policy0 2 world0 [coordinator_is_7] =
  Returned tt discovered_world [].
Proof.
  split; [reflexivity|]. split; [reflexivity|].
  apply (ensure_coordinator_known_discovers policy0 0 world0 1
           {| GroupCoordinatorResponse.error_code := 0;
              GroupCoordinatorResponse.coordinator_id := 7;
              GroupCoordinatorResponse.host := "broker7";
              GroupCoordinatorResponse.port := 9092 |} []);
    reflexivity.
Defined.

Lemma generation_coordinator_dead (w : World) :
  generation (coordinator_dead w) = generation w.
Proof. unfold coordinator_dead. destruct (coordinator_id w); reflexivity. Qed.

Lemma generation_background (ev : NetEvent) (w : World) :
  generation (background ev w) = generation w.
Proof.
  destruct ev; cbn [background]; try reflexivity.
  - destruct (scheduled w) as [due|]; [|reflexivity].
    destruct (due <=? now w); [|reflexivity].
    destruct_world w.
    unfold task_fires, HeartbeatTask_call, coordinator_unknown,
      coordinator_dead, need_rejoin, session_expired, should_heartbeat,
      _send_heartbeat_request.
    world_cases; reflexivity.
  - destruct (heartbeats_outstanding w) as [|n]; [reflexivity|].
    destruct_world w.
    unfold heartbeat_done, _handle_heartbeat_response, coordinator_dead,
      _handle_heartbeat_success, _handle_heartbeat_failure.
    world_cases; reflexivity.
  - destruct (heartbeats_outstanding w) as [|n]; [reflexivity|].
    destruct_world w.
    unfold heartbeat_done, _failed_request, coordinator_dead,
      _handle_heartbeat_failure.
    world_cases; reflexivity.
Qed.

Lemma generation_metadata_request (w : World) :
  generation (snd (_send_group_metadata_request w)) = generation w.
Proof.
  destruct_world w. unfold _send_group_metadata_request.
  world_cases; reflexivity.
Qed.

Lemma generation_coordinator_response
    (response : GroupCoordinatorResponse.t) (w : World) :
  generation (snd (_handle_group_coordinator_response response w)) =
  generation w.
Proof.
  destruct_world w.
  unfold _handle_group_coordinator_response, coordinator_unknown,
    coordinator_dead, HeartbeatTask_reset.
  world_cases; reflexivity.
Qed.

Lemma quiet_step_refl (w : World) : quiet_step w w.
Proof.
  split; [reflexivity|]. split; [auto|]. split; [left; reflexivity|].
  exists []. split; [symmetry; apply app_nil_r | reflexivity].
Qed.

Lemma quiet_step_trans (w1 w2 w3 : World) :
  quiet_step w1 w2 -> quiet_step w2 w3 -> quiet_step w1 w3.
Proof.
  intros (Hg1 & Hr1 & Hm1 & added1 & Ht1 & Ha1)
         (Hg2 & Hr2 & Hm2 & added2 & Ht2 & Ha2).
  split; [congruence|]. split; [auto|]. split.
  - destruct Hm2 as [Hm2 | Hm2]; [|right; exact Hm2].
    destruct Hm1 as [Hm1 | Hm1]; [left | right]; congruence.
  - exists (added1 ++ added2). split.
    + rewrite Ht2, Ht1. symmetry. apply app_assoc.
    + rewrite forallb_app, Ha1, Ha2. reflexivity.
Qed.

Lemma quiet_step_of (w w' : World) :
  routine_step w w' -> keeps_membership w w' ->
  generation w' = generation w -> quiet_step w w'.
Proof.
  intros [Hadded Hm] Hkeeps Hg.
  split; [exact Hg|]. split; [|split; assumption].
  apply keeps_membership_rejoin. exact Hkeeps.
Qed.

(** X6.  Discovering the coordinator does not touch the membership.
    Whatever happens on the transport while [ensure_coordinator_known]
    runs (heartbeat firings and replies included), in the world it ends
    or stops in the generation is the one it started with, a rejoin that
    was needed still is, [member_id] is the same or has been reset to the
    sentinel, and the trace has gained neither a JoinGroup request, nor a
    LeaveGroup request, nor a call of [_on_join_prepare]. *)
Theorem ensure_coordinator_known_quiet
    (policy : GroupPolicy) (fuel : nat) (w : World)
    (events : list NetEvent) :
  quiet_step w (final (ensure_coordinator_known policy fuel w events)).
Proof.
  apply holds_final with (ok := fun _ => True).
  apply ensure_coordinator_known_holds.
  - intros ev w1 _ H. apply quiet_step_trans with (w2 := w1); [exact H|].
    apply quiet_step_of;
      [apply routine_background | apply keeps_background
      | apply generation_background].
  - intros w1 H. apply quiet_step_trans with (w2 := w1); [exact H|].
    apply quiet_step_of;
      [apply routine_coordinator_dead | apply keeps_coordinator_dead
      | apply generation_coordinator_dead].
  - intros w1 H. apply quiet_step_trans with (w2 := w1); [exact H|].
    apply quiet_step_of;
      [apply routine_metadata_request | apply keeps_metadata_request
      | apply generation_metadata_request].
  - intros response w1 H.
    apply quiet_step_trans with (w2 := w1); [exact H|].
    apply quiet_step_of;
      [apply routine_coordinator_response | apply keeps_coordinator_response
      | apply generation_coordinator_response].
  - clear. induction events; constructor; auto.
  - apply quiet_step_refl.
Qed.

(** *** The join loop *)

Lemma join_loop_ensures (policy : GroupPolicy) (fuel : nat) :
  forall w events,
    ensures (fun w' => need_rejoin w' = false)
      (fun exception => future_retriable exception = false)
      (join_loop policy fuel w events).
Proof.
  induction fuel as [|fuel IH]; intros w events; [exact I|].
  cbn [join_loop].
  destruct (need_rejoin w) eqn:Hrejoin; cbn [negb]; [|exact Hrejoin].
  apply ensures_bind.
  - pose proof (ensure_coordinator_known_ensures policy (S fuel) w events)
      as H.
    destruct (ensure_coordinator_known policy (S fuel) w events);
      cbn in *; auto.
  - intros _ w1 rest.
    destruct (_perform_group_join policy w1) as [future w2].
    apply ensures_bind.
    + apply ensures_never_raises. apply poll_never_raises.
    + intros future' w3 rest'.
      destruct future' as [awaited | value | exception].
      * exact I.
      * apply IH.
      * destruct (isinstance_restart exception); [apply IH|].
        destruct (future_retriable exception) eqn:Hr; cbn [negb].
        -- apply IH.
        -- exact Hr.
Qed.

(** X7.  When [ensure_active_group] returns, no rejoin is needed any
    more; when it raises, the exception is one that is not retriable.  A
    retriable failure of the discovery, of JoinGroup or of SyncGroup is
    never raised to the caller. *)
Theorem ensure_active_group_postcondition
    (policy : GroupPolicy) (fuel : nat) (w : World)
    (events : list NetEvent) :
  match ensure_active_group policy fuel w events with
  | Returned _ w' _ => need_rejoin w' = false
  | Raised exception _ _ => future_retriable exception = false
  | Unfinished _ => True
  end.
Proof.
  unfold ensure_active_group.
  destruct (need_rejoin w) eqn:Hrejoin; cbn [negb]; [|exact Hrejoin].
  apply join_loop_ensures.
Qed.

Lemma join_loop_failure
    (policy : GroupPolicy) (fuel : nat) (w : World) (node : Z)
    (response : JoinGroupResponse.t) (events : list NetEvent)
    (exception : Thrown) (w' : World) :
  need_rejoin w = true ->
  coordinator_ready w node ->
  _handle_join_group_response policy response
    (snd (_perform_group_join policy w)) = (Failed exception, w') ->
  join_loop policy (S fuel) w (JoinReply response :: events) =
  (if isinstance_restart exception then join_loop policy fuel w' events
   else if future_retriable exception then
     join_loop policy fuel (sleep_backoff w') events
   else Raised exception w' events).
Proof.
  intros Hrejoin Hready Hhandler.
  cbn [join_loop]. rewrite Hrejoin. cbn [negb].
  rewrite (ensure_coordinator_known_ready policy _ _ Hready).
  cbn [bind].
  destruct (_perform_group_join policy w) as [future sent] eqn:Hjoin.
  rewrite (perform_group_join_ready policy Hready) in Hjoin.
  inversion Hjoin; subst future sent. cbn [snd] in Hhandler.
  rewrite poll_pending. cbn [deliver]. rewrite Hhandler. cbn [fst snd].
  rewrite poll_failed. cbn [bind].
  destruct (isinstance_restart exception); [reflexivity|].
  destruct (future_retriable exception); reflexivity.
Qed.

(** X8.  What the join loop does with a refused JoinGroup.  Let a rejoin
    be needed and the coordinator be known and ready.  A JoinGroup
    response with an error code other than 0 fails the future with an
    instance of the class of that code, and the loop then, in the world
    the handler left: starts its next turn at once if the class is
    [UnknownMemberIdError], [RebalanceInProgressError] or
    [IllegalGenerationError]; sleeps [retry_backoff_ms] and starts its
    next turn if the class is retriable; raises the exception
    otherwise. *)
Theorem join_failure_disposition
    (policy : GroupPolicy) (fuel : nat) (w : World) (node : Z)
    (response : JoinGroupResponse.t) (events : list NetEvent) :
  need_rejoin w = true ->
  coordinator_ready w node ->
  JoinGroupResponse.error_code response <> 0 ->
  exists args w',
    let exception :=
      Instance (for_code (JoinGroupResponse.error_code response)) args in
    _handle_join_group_response policy response
      (snd (_perform_group_join policy w)) = (Failed exception, w') /\
    join_loop policy (S fuel) w (JoinReply response :: events) =
    (if isinstance_restart exception then join_loop policy fuel w' events
     else if retriable (for_code (JoinGroupResponse.error_code response))
     then join_loop policy fuel (sleep_backoff w') events
     else Raised exception w' events).
Proof.
  intros Hrejoin Hready Hcode.
  assert (Hhandler : exists args w',
    _handle_join_group_response policy response
      (snd (_perform_group_join policy w)) =
    (Failed (Instance (for_code (JoinGroupResponse.error_code response))
               args), w')).
  { unfold _handle_join_group_response.
    destruct (for_code (JoinGroupResponse.error_code response)) eqn:E;
      try (apply for_code_NoError in E; contradiction);
      do 2 eexists; reflexivity. }
  destruct Hhandler as (args & w' & Hhandler).
  exists args, w'. cbv zeta. split; [exact Hhandler|].
  apply (join_loop_failure policy fuel w node response events _ w'
           Hrejoin Hready Hhandler).
Qed.

Lemma join_failure_disposition_witness :
  need_rejoin discovered_world = true /\
  coordinator_ready discovered_world 7 /\
  JoinGroupResponse.error_code (join_response 24 0 "" "") <> 0 /\
  exists args w',
    join_loop policy0 1 discovered_world [join_reply 24 0 "" ""] =
    Raised (Instance InvalidGroupIdError args) w' [].
Proof.
  split; [vm_compute; reflexivity|].
  split; [repeat split; vm_compute; reflexivity|].
  split; [cbn; lia|].
  destruct (join_failure_disposition policy0 0 discovered_world 7
              (join_response 24 0 "" "") [])
    as (args & w' & _ & Hloop).
  - vm_compute; reflexivity.
  - repeat split; vm_compute; reflexivity.
  - cbn; lia.
  - exists args, w'. exact Hloop.
Defined.

(** X9.  A refused JoinGroup changes nothing of the membership but what
    its code asks for.  On a response with an error code other than 0,
    [_handle_join_group_response] leaves the generation, [rejoin_needed],
    [needs_join_prepare], the protocol, the scheduler and the trace as
    they are and sends nothing; it resets [member_id] exactly on code 25
    and clears [coordinator_id] exactly on codes 15 and 16. *)
Theorem join_failure_frame
    (policy : GroupPolicy) (response : JoinGroupResponse.t) (w : World) :
  JoinGroupResponse.error_code response <> 0 ->
  let code := JoinGroupResponse.error_code response in
  let w' := snd (_handle_join_group_response policy response w) in
  generation w' = generation w /\
  rejoin_needed w' = rejoin_needed w /\
  needs_join_prepare w' = needs_join_prepare w /\
  protocol w' = protocol w /\
  scheduled w' = scheduled w /\
  trace w' = trace w /\
  (if code =? 25 then member_id w' = UNKNOWN_MEMBER_ID
   else member_id w' = member_id w) /\
  (if (code =? 15) || (code =? 16) then coordinator_id w' = None
   else coordinator_id w' = coordinator_id w).
Proof.
  intros Hcode. cbv zeta.
  pose proof (for_code_errno (JoinGroupResponse.error_code response)) as Hn.
  unfold _handle_join_group_response.
  destruct (for_code (JoinGroupResponse.error_code response)) eqn:E;
    try (apply for_code_NoError in E; contradiction);
    try (specialize (Hn ltac:(discriminate)); cbn in Hn;
         injection Hn as Hc; rewrite <- Hc;
         cbn [snd Z.eqb Pos.eqb orb];
         try unfold coordinator_dead;
         destruct (coordinator_id w) eqn:Hcid;
         repeat split; first [reflexivity | exact Hcid]);
    try (specialize (Hn ltac:(discriminate)); discriminate Hn).
  (* the class by default: the code is none of 25, 15, 16 *)
  apply for_code_UnknownError in E. cbn [snd].
  destruct (Z.eqb_spec (JoinGroupResponse.error_code response) 25);
    [lia|].
  destruct (Z.eqb_spec (JoinGroupResponse.error_code response) 15);
    [lia|].
  destruct (Z.eqb_spec (JoinGroupResponse.error_code response) 16);
    [lia|].
  repeat split; reflexivity.
Qed.

Lemma join_failure_frame_witness :
  JoinGroupResponse.error_code (join_response 16 0 "" "") <> 0 /\
  coordinator_id stable_world = Some 7 /\
  coordinator_id
    (snd (_handle_join_group_response policy0 (join_response 16 0 "" "")
            stable_world)) = None /\
  member_id
    (snd (_handle_join_group_response policy0 (join_response 16 0 "" "")
            stable_world)) = member_id stable_world.
Proof.
  split; [cbn; lia|]. split; [reflexivity|].
  destruct (join_failure_frame policy0 (join_response 16 0 "" "")
              stable_world) as (_ & _ & _ & _ & _ & _ & Hm & Hc).
  - cbn; lia.
  - split; [exact Hc | exact Hm].
Defined.

(** *** Heartbeats *)

(** X10.  What a Heartbeat response does to the coordinator, code by
    code.  Code 0 succeeds and changes nothing.  Any other code fails the
    future; codes 15 and 16 mark the coordinator dead and nothing else;
    codes 27 and 22 set [rejoin_needed] and nothing else; code 25 resets
    [member_id] and sets [rejoin_needed]; every other code, 30 included,
    leaves the coordinator exactly as it was. *)
Theorem heartbeat_response_table
    (response : HeartbeatResponse.t) (w : World) :
  let code := HeartbeatResponse.error_code response in
  let future := fst (_handle_heartbeat_response response w) in
  let w' := snd (_handle_heartbeat_response response w) in
  (code = 0 -> future = Succeeded VNone /\ w' = w) /\
  (code <> 0 -> exists exception, future = Failed exception) /\
  (code = 15 \/ code = 16 -> w' = coordinator_dead w) /\
  (code = 27 \/ code = 22 -> w' = set_rejoin_needed true w) /\
  (code = 25 ->
   w' = set_rejoin_needed true (set_member_id UNKNOWN_MEMBER_ID w)) /\
  (code <> 15 -> code <> 16 -> code <> 27 -> code <> 22 -> code <> 25 ->
   w' = w).
Proof.
  cbv zeta. unfold _handle_heartbeat_response.
  remember (HeartbeatResponse.error_code response) as code eqn:Hdef.
  clear Hdef.
  pose proof (for_code_errno code) as Hn.
  pose proof (for_code_UnknownError code) as Hu.
  destruct (for_code code) eqn:E; cbn [fst snd];
    first
      [ pose proof (proj1 Hu eq_refl) as Hrange
      | specialize (Hn ltac:(discriminate)); cbn in Hn;
        first [discriminate Hn | injection Hn as Hc; subst code] ];
    repeat split; intros;
    first [ reflexivity | exfalso; lia | eexists; reflexivity
          | split; reflexivity ].
Qed.

Lemma heartbeat_response_table_witness :
  HeartbeatResponse.error_code {| HeartbeatResponse.error_code := 27 |}
    = 27 /\
  snd (_handle_heartbeat_response
         {| HeartbeatResponse.error_code := 27 |} stable_world) =
  set_rejoin_needed true stable_world.
Proof.
  split; [reflexivity|].
  destruct (heartbeat_response_table
              {| HeartbeatResponse.error_code := 27 |} stable_world)
    as (_ & _ & _ & H & _).
  exact (H (or_introl eq_refl)).
Defined.

(** X11.  The completion of a heartbeat, as the task sees it.  When the
    reply to an outstanding heartbeat request comes in, the task clears
    [_request_in_flight] and schedules itself again: at [now + ttl()]
    after a response without error, having recorded the reception on the
    heartbeat clock; at [now + retry_backoff_ms] after a response with an
    error or a failed request, the heartbeat clock being left as it is, so
    that a failed heartbeat never extends the session.  A failed request
    marks the coordinator dead as well. *)
Theorem heartbeat_completion (w : World) (n : nat) :
  heartbeats_outstanding w = S n ->
  (forall response,
     let w' := background (HeartbeatReply response) w in
     _request_in_flight w' = false /\
     heartbeats_outstanding w' = n /\
     last_send w' = last_send w /\
     (if HeartbeatResponse.error_code response =? 0
      then last_receive w' = now w /\
           scheduled w' = Some (now w + ttl w)
      else last_receive w' = last_receive w /\
           scheduled w' = Some (now w + retry_backoff_ms (config w)))) /\
  (forall error,
     let w' := background (HeartbeatFailed error) w in
     _request_in_flight w' = false /\
     heartbeats_outstanding w' = n /\
     last_send w' = last_send w /\
     last_receive w' = last_receive w /\
     scheduled w' = Some (now w + retry_backoff_ms (config w)) /\
     coordinator_id w' = None).
Proof.
  intros Ho. split.
  - intros response. cbv zeta. cbn [background]. rewrite Ho.
    pose proof (for_code_NoError (HeartbeatResponse.error_code response))
      as H0.
    destruct_world w. cbn in Ho. subst ho.
    unfold heartbeat_done, _handle_heartbeat_response, coordinator_dead,
      _handle_heartbeat_success, _handle_heartbeat_failure, ttl.
    destruct (Z.eqb_spec (HeartbeatResponse.error_code response) 0)
      as [Hz | Hnz].
    + rewrite Hz. change (for_code 0) with NoError. cbn.
      repeat split; reflexivity.
    + destruct (for_code (HeartbeatResponse.error_code response)) eqn:E;
        try (exfalso; apply Hnz; apply H0; reflexivity);
        cbn; try (destruct cid; cbn); repeat split; reflexivity.
  - intros error. cbv zeta. cbn [background]. rewrite Ho.
    destruct_world w. cbn in Ho. subst ho.
    unfold heartbeat_done, _failed_request, coordinator_dead,
      _handle_heartbeat_failure.
    cbn. destruct cid; cbn; repeat split; reflexivity.
Qed.

Lemma heartbeat_completion_witness :
  heartbeats_outstanding heartbeating_world = 1%nat /\
  scheduled (background (heartbeat_reply 0) heartbeating_world)
    = Some 6000 /\
  scheduled (background (heartbeat_reply 27) heartbeating_world)
    = Some 3100.
Proof.
  split; [reflexivity|].
  destruct (heartbeat_completion heartbeating_world 0 eq_refl) as [H _].
  split.
  - destruct (H {| HeartbeatResponse.error_code := 0 |})
      as (_ & _ & _ & _ & Hs).
    exact Hs.
  - destruct (H {| HeartbeatResponse.error_code := 27 |})
      as (_ & _ & _ & _ & Hs).
    exact Hs.
Defined.

(** X12.  The heartbeat task sends a heartbeat only from a healthy
    membership.  If a firing adds anything to the trace, then the
    generation is not negative, no rejoin is needed, the coordinator is
    known and ready, the session has not expired and a heartbeat is due;
    what it adds is one Heartbeat request to the coordinator carrying the
    group id, the generation and the member id of the moment; and the
    task has set [_request_in_flight], recorded the sending on the clock
    and not scheduled itself. *)
Theorem heartbeat_sent_only_when_healthy (w : World) :
  trace (task_fires w) <> trace w ->
  0 <= generation w /\
  need_rejoin w = false /\
  session_expired w = false /\
  should_heartbeat w = true /\
  (exists node,
     coordinator_ready w node /\
     trace (task_fires w) =
       trace w ++ [Send (Some node)
                     (HeartbeatRequest (group_id (config w)) (generation w)
                        (member_id w))]) /\
  _request_in_flight (task_fires w) = true /\
  heartbeats_outstanding (task_fires w) = S (heartbeats_outstanding w) /\
  last_send (task_fires w) = now w /\
  scheduled (task_fires w) = None.
Proof.
  destruct_world w.
  unfold task_fires, HeartbeatTask_call, need_rejoin, coordinator_unknown,
    coordinator_dead, session_expired, should_heartbeat,
    _send_heartbeat_request, coordinator_ready, client_unschedule.
  cbn.
  destruct (gen <? 0) eqn:Hg; [intros H; exfalso; apply H; reflexivity|].
  destruct rn; [intros H; exfalso; apply H; reflexivity|].
  destruct cid as [node|]; cbn;
    [|intros H; exfalso; apply H; reflexivity].
  destruct (isd node) eqn:Hd; cbn;
    [intros H; exfalso; apply H; reflexivity|].
  destruct (rdy node) eqn:Hr; cbn;
    [|intros H; exfalso; apply H; reflexivity].
  destruct (cfg.(session_timeout_ms) <=? nw - lr) eqn:Hs; cbn;
    [intros H; exfalso; apply H; reflexivity|].
  destruct (cfg.(heartbeat_interval_ms) <=? nw - ls) eqn:Hh; cbn;
    [|intros H; exfalso; apply H; reflexivity].
  intros _. apply Z.ltb_ge in Hg.
  repeat split; try assumption; try reflexivity.
  exists node. repeat split; assumption.
Qed.

Lemma heartbeat_sent_only_when_healthy_witness :
  trace (task_fires (background (Clock 3000) stable_world))
    <> trace (background (Clock 3000) stable_world) /\
  need_rejoin (background (Clock 3000) stable_world) = false /\
  _request_in_flight
    (task_fires (background (Clock 3000) stable_world)) = true.
Proof.
  assert (Hsends :
    trace (task_fires (background (Clock 3000) stable_world))
      <> trace (background (Clock 3000) stable_world)).
  { vm_compute. intros H. discriminate H. }
  split; [exact Hsends|].
  destruct (heartbeat_sent_only_when_healthy
              (background (Clock 3000) stable_world) Hsends)
    as (_ & Hr & _ & _ & _ & Hf & _).
  split; [exact Hr | exact Hf].
Defined.

(** *** The coordinator: discovery, loss, leaving *)

(** X13.  Asking twice whether the coordinator is unknown gives the same
    answer, and the second question changes nothing: the one effect of
    [coordinator_unknown], clearing the id of a disconnected coordinator,
    happens at the first. *)
Theorem coordinator_unknown_idempotent (w : World) :
  coordinator_unknown (snd (coordinator_unknown w)) = coordinator_unknown w.
Proof.
  destruct_world w. unfold coordinator_unknown, coordinator_dead. cbn.
  destruct cid as [node|]; cbn; [|reflexivity].
  destruct (isd node) eqn:Hd; cbn; [reflexivity|].
  rewrite Hd. reflexivity.
Qed.

(** X14.  What a GroupCoordinator response does.  If the coordinator is
    known and ready when the response is handled, the response is ignored
    whatever it says: the future succeeds with the coordinator at hand and
    nothing changes.  Otherwise a response with an error code other than
    0 fails the future with an instance of the class of that code, and one
    with code 0 that the cluster metadata refuses fails it with an
    [IllegalStateError], the coordinator staying unknown in both cases; a
    response with code 0 that is accepted sets [coordinator_id] to the
    node it names and resets the heartbeat task exactly when the
    generation is positive. *)
Theorem group_coordinator_response_handling
    (response : GroupCoordinatorResponse.t) (w : World) :
  let code := GroupCoordinatorResponse.error_code response in
  let named := GroupCoordinatorResponse.coordinator_id response in
  let future := fst (_handle_group_coordinator_response response w) in
  let w' := snd (_handle_group_coordinator_response response w) in
  let w1 := snd (coordinator_unknown w) in
  (forall node,
     coordinator_ready w node ->
     future = Succeeded (VNode (Some node)) /\ w' = w) /\
  (fst (coordinator_unknown w) = true ->
   (code <> 0 ->
    (exists args, future = Failed (Instance (for_code code) args)) /\
    w' = w1) /\
   (code = 0 -> add_group_coordinator w response = false ->
    future = Failed (Instance IllegalStateError []) /\ w' = w1) /\
   (code = 0 -> add_group_coordinator w response = true ->
    future = Succeeded (VNode (Some named)) /\
    w' = (if generation w >? 0
          then HeartbeatTask_reset (set_coordinator_id (Some named) w1)
          else set_coordinator_id (Some named) w1))).
Proof.
  cbv zeta. split.
  - intros node Hready. unfold _handle_group_coordinator_response.
    rewrite (coordinator_unknown_ready Hready). cbn [negb fst snd].
    destruct Hready as (Hc & _). rewrite Hc. split; reflexivity.
  - intros Hunknown. unfold _handle_group_coordinator_response.
    pose proof (coordinator_unknown_world w) as Hw.
    destruct (coordinator_unknown w) as [unknown w1] eqn:Hu.
    cbn [fst snd] in *. subst unknown. cbn [negb].
    assert (Hagc : add_group_coordinator w1 response =
                   add_group_coordinator w response)
      by (destruct Hw as [-> | ->]; reflexivity).
    assert (Hgen : generation w1 = generation w)
      by (destruct Hw as [-> | ->]; reflexivity).
    split; [|split].
    + intros Hcode.
      destruct (for_code (GroupCoordinatorResponse.error_code response))
        eqn:E;
        try (apply for_code_NoError in E; contradiction);
        cbn [fst snd]; (split; [eexists; reflexivity | reflexivity]).
    + intros Hcode Hrefused. rewrite Hcode.
      change (for_code 0) with NoError. cbv iota zeta.
      rewrite Hagc, Hrefused. cbn [negb fst snd]. split; reflexivity.
    + intros Hcode Haccepted. rewrite Hcode.
      change (for_code 0) with NoError. cbv iota zeta.
      rewrite Hagc, Haccepted. cbn [negb].
      cbn [generation set_coordinator_id]. rewrite Hgen.
      destruct (generation w >? 0); cbn [fst snd];
        (split; [|reflexivity]).
      * unfold HeartbeatTask_reset. destruct (negb _); reflexivity.
      * reflexivity.
Qed.

Lemma group_coordinator_response_handling_witness :
  coordinator_ready stable_world 7 /\
  snd (_handle_group_coordinator_response
         {| GroupCoordinatorResponse.error_code := 0;
            GroupCoordinatorResponse.coordinator_id := 9;
            GroupCoordinatorResponse.host := "broker9";
            GroupCoordinatorResponse.port := 9092 |} stable_world) =
  stable_world.
Proof.
  assert (Hready : coordinator_ready stable_world 7)
    by (repeat split; vm_compute; reflexivity).
  split; [exact Hready|].
  destruct (group_coordinator_response_handling
              {| GroupCoordinatorResponse.error_code := 0;
                 GroupCoordinatorResponse.coordinator_id := 9;
                 GroupCoordinatorResponse.host := "broker9";
                 GroupCoordinatorResponse.port := 9092 |} stable_world)
    as [H _].
  exact (proj2 (H 7 Hready)).
Defined.

(** X15.  With no broker to ask, discovery waits.  If no coordinator is
    set and the transport has no least-loaded node, or one that is not
    ready, a turn of [ensure_coordinator_known] sends nothing and raises
    nothing (the failure, [NoBrokersAvailable], is retriable): it waits
    for a metadata update in the world it was called in, and then takes
    its next turn. *)
Theorem ensure_coordinator_known_no_brokers
    (policy : GroupPolicy) (fuel : nat) (w : World)
    (events : list NetEvent) :
  coordinator_id w = None ->
  (least_loaded_node w = None \/
   exists node, least_loaded_node w = Some node /\ ready w node = false) ->
  _send_group_metadata_request w =
    (Failed (Instance NoBrokersAvailable []), w) /\
  ensure_coordinator_known policy (S fuel) w events =
    (_ <- poll policy (Pending AwaitMetadata) w events ;;
     ensure_coordinator_known policy fuel).
Proof.
  intros Hc Hnone.
  assert (Hrequest : _send_group_metadata_request w =
                     (Failed (Instance NoBrokersAvailable []), w)).
  { unfold _send_group_metadata_request.
    destruct Hnone as [-> | (node & -> & ->)]; reflexivity. }
  split; [exact Hrequest|].
  cbn [ensure_coordinator_known]. unfold coordinator_unknown at 1.
  rewrite Hc. cbn [negb]. rewrite Hc, Hrequest.
  rewrite poll_failed. reflexivity.
Qed.

Lemma ensure_coordinator_known_no_brokers_witness :
  coordinator_id (set_least_loaded_node None world0) = None /\
  least_loaded_node (set_least_loaded_node None world0) = None /\
  ensure_coordinator_known policy0 3 (set_least_loaded_node None world0)
    [MetadataUpdated; NetStatus (fun _ => false) (fun _ => true) (Some 1);
     coordinator_is_7] =
  ensure_coordinator_known policy0 2 (set_least_loaded_node None world0)
    [NetStatus (fun _ => false) (fun _ => true) (Some 1); coordinator_is_7].
Proof.
  split; [reflexivity|]. split; [reflexivity|].
  destruct (ensure_coordinator_known_no_brokers policy0 2
              (set_least_loaded_node None world0)
              [MetadataUpdated;
               NetStatus (fun _ => false) (fun _ => true) (Some 1);
               coordinator_is_7] eq_refl (or_introl eq_refl))
    as [_ H].
  rewrite H. reflexivity.
Defined.

(** *** Leader assignment, transport failures, leaving *)

(** X16.  A leader whose assignment fails.  When a JoinGroup response
    without error elects this member leader and [_perform_assignment]
    raises, the handler has already adopted the member id, the generation
    and the protocol and cleared [rejoin_needed]; it sends no SyncGroup
    request and fails the future with the exception raised.  The join
    loop then raises that exception if it is not retriable, and otherwise
    (after the backoff sleep, unless the exception is one of the three
    restart classes) finds no rejoin needed and returns, without
    [_on_join_complete] having been called. *)
Theorem leader_assignment_failure
    (policy : GroupPolicy) (fuel : nat) (w : World) (node : Z)
    (response : JoinGroupResponse.t) (exception : Thrown)
    (events : list NetEvent) :
  need_rejoin w = true ->
  coordinator_ready w node ->
  JoinGroupResponse.error_code response = 0 ->
  JoinGroupResponse.leader_id response =
    JoinGroupResponse.member_id response ->
  _perform_assignment policy (JoinGroupResponse.leader_id response)
    (JoinGroupResponse.group_protocol response)
    (JoinGroupResponse.members response) = inl exception ->
  let sent := snd (_perform_group_join policy w) in
  let adopted :=
    set_protocol (Some (JoinGroupResponse.group_protocol response))
      (set_rejoin_needed false
         (set_generation (JoinGroupResponse.generation_id response)
            (set_member_id (JoinGroupResponse.member_id response) sent))) in
  _handle_join_group_response policy response sent =
    (Failed exception, adopted) /\
  trace adopted = trace sent /\
  join_loop policy (S (S fuel)) w (JoinReply response :: events) =
    (if isinstance_restart exception then Returned tt adopted events
     else if future_retriable exception
     then Returned tt (sleep_backoff adopted) events
     else Raised exception adopted events).
Proof.
  intros Hrejoin Hready Hcode Hleader Hraise sent adopted.
  assert (Hhandler :
    _handle_join_group_response policy response sent =
    (Failed exception, adopted)).
  { unfold _handle_join_group_response. rewrite Hcode.
    change (for_code 0) with NoError. cbv iota zeta.
    replace (String.eqb (JoinGroupResponse.leader_id response)
               (JoinGroupResponse.member_id response)) with true
      by (symmetry; apply String.eqb_eq; exact Hleader).
    unfold _on_join_leader. rewrite Hraise. reflexivity. }
  split; [exact Hhandler|]. split; [reflexivity|].
  rewrite (join_loop_failure policy (S fuel) w node response events
             exception adopted Hrejoin Hready Hhandler).
  cbn [join_loop].
  replace (need_rejoin adopted) with false by reflexivity.
  replace (need_rejoin (sleep_backoff adopted)) with false by reflexivity.
  reflexivity.
Qed.

Lemma leader_assignment_failure_witness :
  need_rejoin discovered_world = true /\
  coordinator_ready discovered_world 7 /\
  exists w',
    join_loop
      {| protocol_type := "consumer";
         group_protocols := [("range", Raw [])];
         _perform_assignment := fun _ _ _ => inl (Foreign "ValueError") |}
      2 discovered_world [join_reply 0 1 "m1" "m1"] =
    Raised (Foreign "ValueError") w' [] /\
    rejoin_needed w' = false.
Proof.
  split; [vm_compute; reflexivity|].
  split; [repeat split; vm_compute; reflexivity|].
  destruct (leader_assignment_failure
              {| protocol_type := "consumer";
                 group_protocols := [("range", Raw [])];
                 _perform_assignment :=
                   fun _ _ _ => inl (Foreign "ValueError") |}
              0 discovered_world 7 (join_response 0 1 "m1" "m1")
              (Foreign "ValueError") [])
    as (_ & _ & Hloop).
  - vm_compute; reflexivity.
  - repeat split; vm_compute; reflexivity.
  - reflexivity.
  - reflexivity.
  - reflexivity.
  - eexists. split; [exact Hloop | reflexivity].
Defined.

(** X17.  A JoinGroup request that fails on the transport.  The errback
    [_failed_request] marks the coordinator dead and fails the future with
    the error of the transport; the join loop then raises that error if it
    is not retriable, and otherwise takes its next turn (after the backoff
    sleep, unless the error is of one of the three restart classes) with
    no coordinator, so that it has to discover one again before it can
    send another request. *)
Theorem join_request_transport_failure
    (policy : GroupPolicy) (fuel : nat) (w : World) (node : Z)
    (error : Thrown) (events : list NetEvent) :
  need_rejoin w = true ->
  coordinator_ready w node ->
  let lost := set_coordinator_id None (snd (_perform_group_join policy w)) in
  join_loop policy (S fuel) w (RequestFailed error :: events) =
    (if isinstance_restart error then join_loop policy fuel lost events
     else if future_retriable error
     then join_loop policy fuel (sleep_backoff lost) events
     else Raised error lost events) /\
  coordinator_id lost = None /\
  fst (_perform_group_join policy lost) =
    Failed (Instance GroupCoordinatorNotAvailableError [ArgNode None]).
Proof.
  intros Hrejoin Hready lost. split; [|split; reflexivity].
  subst lost.
  cbn [join_loop]. rewrite Hrejoin. cbn [negb].
  rewrite (ensure_coordinator_known_ready policy _ _ Hready).
  cbn [bind].
  rewrite (perform_group_join_ready policy Hready). cbn [snd].
  rewrite poll_pending. cbn [deliver _failed_request fst snd].
  rewrite poll_failed. cbn [bind].
  assert (Hdead : forall w0,
            coordinator_id w0 = Some node ->
            coordinator_dead w0 = set_coordinator_id None w0)
    by (intros w0 H0; unfold coordinator_dead; rewrite H0; reflexivity).
  rewrite Hdead by (destruct Hready as (Hc & _); exact Hc).
  destruct (isinstance_restart error); [reflexivity|].
  destruct (future_retriable error); reflexivity.
Qed.

Lemma join_request_transport_failure_witness :
  need_rejoin discovered_world = true /\
  coordinator_ready discovered_world 7 /\
  exists w',
    join_loop policy0 1 discovered_world
      [RequestFailed (Instance IllegalStateError [])] =
    Raised (Instance IllegalStateError []) w' [] /\
    coordinator_id w' = None.
Proof.
  split; [vm_compute; reflexivity|].
  split; [repeat split; vm_compute; reflexivity|].
  destruct (join_request_transport_failure policy0 0 discovered_world 7
              (Instance IllegalStateError []) [])
    as (Hloop & Hc & _).
  - vm_compute; reflexivity.
  - repeat split; vm_compute; reflexivity.
  - eexists. split; [exact Hloop | exact Hc].
Defined.

Lemma close_never_raises
    (policy : GroupPolicy) (w : World) (events : list NetEvent) :
  forall exception w' rest,
    close policy w events <> Raised exception w' rest.
Proof.
  intros exception w' rest. unfold close.
  destruct (coordinator_unknown (client_unschedule w)) as [unknown w1].
  destruct (negb unknown && (generation w1 >? 0)).
  - pose proof (poll_never_raises policy events (Pending AwaitLeave)
                  (client_send (coordinator_id w1)
                     (LeaveGroupRequest (group_id (config w1))
                        (member_id w1)) w1)) as Hpoll.
    destruct (poll policy (Pending AwaitLeave) _ events)
      as [future w2 rest2 | e w2 rest2 | w2]; cbn [bind].
    + discriminate.
    + exfalso. exact (Hpoll e w2 rest2 eq_refl).
    + discriminate.
  - cbn [bind]. discriminate.
Qed.

(** X18.  Leaving the group.  [close] never raises.  It sends a
    LeaveGroup request exactly when the coordinator is known and ready and
    the generation is positive: the request goes to the coordinator and
    carries the group id and the member id held on entry, and it is the
    first thing [close] adds to the trace, everything after it being
    routine (no second LeaveGroup, no JoinGroup).  Otherwise [close]
    returns at once without reading an event or adding to the trace. *)
Theorem close_leave_group
    (policy : GroupPolicy) (w : World) (events : list NetEvent) :
  (forall exception w' rest,
     close policy w events <> Raised exception w' rest) /\
  (forall node,
     coordinator_ready w node -> 0 < generation w ->
     exists added,
       trace (final (close policy w events)) =
         trace w
         ++ Send (Some node)
              (LeaveGroupRequest (group_id (config w)) (member_id w))
            :: added /\
       forallb routine added = true) /\
  (fst (coordinator_unknown w) = true \/ generation w <= 0 ->
   exists w',
     close policy w events = Returned tt w' events /\
     trace w' = trace w).
Proof.
  split; [apply close_never_raises|]. split.
  - intros node Hready Hgen. unfold close.
    assert (Hready' : coordinator_ready (client_unschedule w) node)
      by (destruct Hready as (Hc & Hd & Hr); repeat split; assumption).
    rewrite (coordinator_unknown_ready Hready'). cbn [negb andb].
    replace (generation (client_unschedule w) >? 0) with true
      by (symmetry; apply Z.gtb_lt; exact Hgen).
    set (leave := Send (Some node)
                    (LeaveGroupRequest (group_id (config w)) (member_id w))).
    set (before := trace w ++ [leave]).
    assert (Hpoll :
      holds (fun w' => exists added,
                 trace w' = before ++ added /\ forallb routine added = true)
        (fun _ => True)
        (poll policy (Pending AwaitLeave)
           (client_send (coordinator_id (client_unschedule w))
              (LeaveGroupRequest (group_id (config (client_unschedule w)))
                 (member_id (client_unschedule w)))
              (client_unschedule w)) events)).
    { assert (Hstep : forall w1 w2,
        routine_step w1 w2 ->
        (exists added, trace w1 = before ++ added /\
                       forallb routine added = true) ->
        exists added, trace w2 = before ++ added /\
                      forallb routine added = true).
      { intros w1 w2 [(added2 & Ht2 & Ha2) _] (added1 & Ht1 & Ha1).
        exists (added1 ++ added2). split.
        - rewrite Ht2, Ht1. symmetry. apply app_assoc.
        - rewrite forallb_app, Ha1, Ha2. reflexivity. }
      apply poll_outside_join_holds.
      - intros ev w1 _. apply Hstep. apply routine_background.
      - intros w1. apply Hstep. apply routine_coordinator_dead.
      - intros r w1. apply Hstep. apply routine_coordinator_response.
      - exact I.
      - clear. induction events; constructor; auto.
      - exists []. split; [|reflexivity].
        destruct Hready as (Hc & _). cbn. rewrite Hc.
        subst before leave. rewrite app_nil_r. reflexivity. }
    destruct (poll policy (Pending AwaitLeave) _ events)
      as [future w2 rest2 | e w2 rest2 | w2]; cbn [bind final holds] in *.
    + destruct Hpoll as [(added & Ht & Ha) _]. exists added.
      split; [|exact Ha]. cbn. rewrite Ht. subst before leave.
      rewrite <- app_assoc. reflexivity.
    + destruct Hpoll as [(added & Ht & Ha) _]. exists added.
      split; [|exact Ha]. rewrite Ht. subst before leave.
      rewrite <- app_assoc. reflexivity.
    + destruct Hpoll as (added & Ht & Ha). exists added.
      split; [|exact Ha]. rewrite Ht. subst before leave.
      rewrite <- app_assoc. reflexivity.
  - intros Hidle. unfold close.
    pose proof (coordinator_unknown_world (client_unschedule w)) as Hw.
    assert (Hsame : fst (coordinator_unknown (client_unschedule w)) =
                    fst (coordinator_unknown w))
      by (destruct_world w; unfold coordinator_unknown, coordinator_dead;
          cbn; destruct cid as [c|]; [destruct (isd c)|]; reflexivity).
    destruct (coordinator_unknown (client_unschedule w))
      as [unknown w1] eqn:Hu.
    cbn [fst snd] in Hw, Hsame.
    assert (Hguard : negb unknown && (generation w1 >? 0) = false).
    { destruct Hidle as [Hunknown | Hgen].
      - rewrite Hsame, Hunknown. reflexivity.
      - replace (generation w1 >? 0) with false;
          [apply andb_false_r|].
        symmetry. rewrite Z.gtb_ltb. apply Z.ltb_ge.
        destruct Hw as [-> | ->]; exact Hgen. }
    rewrite Hguard. cbn [bind].
    eexists. split; [reflexivity|].
    destruct Hw as [-> | ->]; reflexivity.
Qed.

Lemma close_leave_group_witness :
  coordinator_ready stable_world 7 /\
  0 < generation stable_world /\
  exists added,
    trace (final (close policy0 stable_world [leave_reply 0])) =
      trace stable_world
      ++ Send (Some 7)
           (LeaveGroupRequest "kafka-python-default-group" "m1") :: added.
Proof.
  assert (Hready : coordinator_ready stable_world 7)
    by (repeat split; vm_compute; reflexivity).
  assert (Hgen : 0 < generation stable_world) by (vm_compute; reflexivity).
  split; [exact Hready|]. split; [exact Hgen|].
  destruct (close_leave_group policy0 stable_world [leave_reply 0])
    as (_ & Hleave & _).
  destruct (Hleave 7 Hready Hgen) as (added & Ht & _).
  exists added. exact Ht.
Defined.

Lemma join_response_sends_sync
    (policy : GroupPolicy) (w : World) (node : Z)
    (join : JoinGroupResponse.t) :
  coordinator_ready w node ->
  JoinGroupResponse.error_code join = 0 ->
  (JoinGroupResponse.leader_id join = JoinGroupResponse.member_id join ->
   exists group_assignment,
     _perform_assignment policy (JoinGroupResponse.leader_id join)
       (JoinGroupResponse.group_protocol join)
       (JoinGroupResponse.members join) = inr group_assignment) ->
  let adopted :=
    set_protocol (Some (JoinGroupResponse.group_protocol join))
      (set_rejoin_needed false
         (set_generation (JoinGroupResponse.generation_id join)
            (set_member_id (JoinGroupResponse.member_id join) w))) in
  _handle_join_group_response policy join w =
  (Pending AwaitSync,
   client_send (Some node)
     (SyncGroupRequest (group_id (config w))
        (JoinGroupResponse.generation_id join)
        (JoinGroupResponse.member_id join) (sync_assignment policy join))
     adopted).
Proof.
  intros Hready Hcode Hassign adopted.
  assert (Hready' : coordinator_ready adopted node)
    by (destruct Hready as (Hc & Hd & Hr); repeat split; assumption).
  unfold _handle_join_group_response. rewrite Hcode.
  change (for_code 0) with NoError. cbv iota zeta. fold adopted.
  unfold sync_assignment, _on_join_leader, _on_join_follower.
  destruct (String.eqb_spec (JoinGroupResponse.leader_id join)
              (JoinGroupResponse.member_id join)) as [Heq | Hneq].
  - destruct (Hassign Heq) as [group_assignment ->].
    apply (send_sync_group_request_ready _ Hready').
  - apply (send_sync_group_request_ready _ Hready').
Qed.

Lemma sync_response_fails (sync : SyncGroupResponse.t) (w : World) :
  SyncGroupResponse.error_code sync <> 0 ->
  exists args w',
    _handle_sync_group_response sync w =
      (Failed (Instance (for_code (SyncGroupResponse.error_code sync)) args),
       w') /\
    rejoin_needed w' = true /\ trace w' = trace w.
Proof.
  intros Hsync. unfold _handle_sync_group_response.
  destruct (for_code (SyncGroupResponse.error_code sync)) eqn:E;
    try (apply for_code_NoError in E; contradiction);
    do 2 eexists; (split; [reflexivity|]);
    try unfold coordinator_dead;
    try match goal with
        | |- context [match ?c with Some _ => _ | None => _ end] =>
            destruct c
        end;
    split; reflexivity.
Qed.

(** X19.  What the join loop does with a refused SyncGroup.  After a
    JoinGroup response without error, a SyncGroup response with an error
    code other than 0 fails the future with an instance of the class of
    that code and leaves [rejoin_needed] set.  The loop then, in the world
    the handler left: starts its next turn at once on
    [UnknownMemberIdError], [RebalanceInProgressError] and
    [IllegalGenerationError]; sleeps [retry_backoff_ms] and starts its
    next turn if the class is retriable; raises the exception otherwise,
    [_on_join_complete] not having been called in any of the cases. *)
Theorem sync_failure_disposition
    (policy : GroupPolicy) (fuel : nat) (w : World) (node : Z)
    (join : JoinGroupResponse.t) (sync : SyncGroupResponse.t)
    (events : list NetEvent) :
  need_rejoin w = true ->
  coordinator_ready w node ->
  JoinGroupResponse.error_code join = 0 ->
  (JoinGroupResponse.leader_id join = JoinGroupResponse.member_id join ->
   exists group_assignment,
     _perform_assignment policy (JoinGroupResponse.leader_id join)
       (JoinGroupResponse.group_protocol join)
       (JoinGroupResponse.members join) = inr group_assignment) ->
  SyncGroupResponse.error_code sync <> 0 ->
  exists args w',
    let exception :=
      Instance (for_code (SyncGroupResponse.error_code sync)) args in
    rejoin_needed w' = true /\
    (exists requests, trace w' = trace w ++ requests /\
                      forallb (fun e => match e with
                                        | Send _ _ => true
                                        | _ => false
                                        end) requests = true) /\
    join_loop policy (S fuel) w (JoinReply join :: SyncReply sync :: events) =
    (if isinstance_restart exception then join_loop policy fuel w' events
     else if retriable (for_code (SyncGroupResponse.error_code sync))
     then join_loop policy fuel (sleep_backoff w') events
     else Raised exception w' events).
Proof.
  intros Hrejoin Hready Hjoin Hassign Hsync.
  set (sent := snd (_perform_group_join policy w)).
  assert (Hsent : _perform_group_join policy w = (Pending AwaitJoin, sent))
    by (subst sent; rewrite (perform_group_join_ready policy Hready);
        reflexivity).
  assert (Hready1 : coordinator_ready sent node).
  { subst sent. rewrite (perform_group_join_ready policy Hready).
    destruct Hready as (Hc & Hd & Hr). repeat split; assumption. }
  pose proof (join_response_sends_sync policy sent node join Hready1 Hjoin
                Hassign) as Hhandler.
  cbv zeta in Hhandler.
  set (syncing := client_send _ _ _) in Hhandler.
  assert (Hsyncing : exists requests,
            trace syncing = trace w ++ requests /\
            forallb (fun e => match e with
                              | Send _ _ => true
                              | _ => false
                              end) requests = true).
  { subst syncing sent. rewrite (perform_group_join_ready policy Hready).
    eexists. split; [cbn; rewrite <- app_assoc; reflexivity | reflexivity]. }
  pose proof (sync_response_fails sync syncing Hsync) as Hfail.
  destruct Hfail as (args & w' & Hsynch & Hr' & Ht').
  exists args, w'. cbv zeta. split; [exact Hr'|]. split.
  { rewrite Ht'. exact Hsyncing. }
  cbn [join_loop]. rewrite Hrejoin. cbn [negb].
  rewrite (ensure_coordinator_known_ready policy _ _ Hready). cbn [bind].
  rewrite Hsent. rewrite poll_pending. cbn [deliver]. rewrite Hhandler.
  cbn [fst snd]. rewrite poll_pending. cbn [deliver]. rewrite Hsynch.
  cbn [fst snd]. rewrite poll_failed. cbn [bind].
  cbn [future_retriable].
  destruct (isinstance_restart _); [reflexivity|].
  destruct (retriable _); reflexivity.
Qed.

Lemma sync_failure_disposition_witness :
  need_rejoin discovered_world = true /\
  coordinator_ready discovered_world 7 /\
  SyncGroupResponse.error_code (sync_response 30) <> 0 /\
  exists args w',
    join_loop policy0 1 discovered_world
      [join_reply 0 1 "m1" "m2"; sync_reply 30] =
    Raised (Instance GroupAuthorizationFailedError args) w' [].
Proof.
  split; [vm_compute; reflexivity|].
  split; [repeat split; vm_compute; reflexivity|].
  split; [cbn; lia|].
  destruct (sync_failure_disposition policy0 0 discovered_world 7
              (join_response 0 1 "m1" "m2") (sync_response 30) [])
    as (args & w' & _ & _ & Hloop).
  - vm_compute; reflexivity.
  - repeat split; vm_compute; reflexivity.
  - reflexivity.
  - intros H. discriminate H.
  - cbn; lia.
  - exists args, w'. exact Hloop.
Defined.

(** *** The protocol handed to [_on_join_complete] *)

Ltac sends_tac :=
  unfold sends_step; world_cases;
  (split;
   [ reflexivity
   | eexists; split;
     [ first [symmetry; apply app_nil_r | reflexivity] | reflexivity ] ]).

Lemma sends_step_refl (w : World) : sends_step w w.
Proof.
  split; [reflexivity|]. exists [].
  split; [symmetry; apply app_nil_r | reflexivity].
Qed.

Lemma sends_coordinator_dead (w : World) : sends_step w (coordinator_dead w).
Proof. destruct_world w. unfold coordinator_dead. sends_tac. Qed.

Lemma sends_background (ev : NetEvent) (w : World) :
  sends_step w (background ev w).
Proof.
  destruct ev; cbn [background]; try apply sends_step_refl.
  - destruct_world w. sends_tac.
  - destruct_world w. sends_tac.
  - destruct (scheduled w) as [due|]; [|apply sends_step_refl].
    destruct (due <=? now w); [|apply sends_step_refl].
    destruct_world w.
    unfold task_fires, HeartbeatTask_call, coordinator_unknown,
      coordinator_dead, need_rejoin, session_expired, should_heartbeat,
      _send_heartbeat_request.
    sends_tac.
  - destruct (heartbeats_outstanding w) as [|n]; [apply sends_step_refl|].
    destruct_world w.
    unfold heartbeat_done, _handle_heartbeat_response, coordinator_dead,
      _handle_heartbeat_success, _handle_heartbeat_failure.
    sends_tac.
  - destruct (heartbeats_outstanding w) as [|n]; [apply sends_step_refl|].
    destruct_world w.
    unfold heartbeat_done, _failed_request, coordinator_dead,
      _handle_heartbeat_failure.
    sends_tac.
Qed.

Lemma sends_metadata_request (w : World) :
  sends_step w (snd (_send_group_metadata_request w)).
Proof.
  destruct_world w. unfold _send_group_metadata_request. sends_tac.
Qed.

Lemma sends_coordinator_response
    (response : GroupCoordinatorResponse.t) (w : World) :
  sends_step w (snd (_handle_group_coordinator_response response w)).
Proof.
  destruct_world w.
  unfold _handle_group_coordinator_response, coordinator_unknown,
    coordinator_dead, HeartbeatTask_reset.
  sends_tac.
Qed.

Lemma sends_join_request (policy : GroupPolicy) (w : World) :
  sends_step w (snd (_perform_group_join policy w)).
Proof.
  destruct_world w.
  unfold _perform_group_join, coordinator_unknown, coordinator_dead.
  sends_tac.
Qed.

Lemma join_request_future (policy : GroupPolicy) (w : World) :
  join_future_ok (fst (_perform_group_join policy w))
    (snd (_perform_group_join policy w)).
Proof.
  unfold _perform_group_join.
  destruct (coordinator_unknown w) as [[|] w1]; exact I.
Qed.

Lemma is_send_complete_with_protocol (added : list Effect) :
  forallb is_send added = true ->
  forallb complete_with_protocol added = true.
Proof.
  induction added as [|e added IH]; [reflexivity|].
  cbn [forallb]. rewrite !andb_true_iff. intros [He Hrest].
  split; [|apply IH; exact Hrest].
  destruct e; try reflexivity. discriminate He.
Qed.

Lemma completes_since_adds
    (before added : list Effect) (w w' : World) :
  trace w' = trace w ++ added ->
  forallb complete_with_protocol added = true ->
  completes_with_protocol_since before w ->
  completes_with_protocol_since before w'.
Proof.
  intros Ht Hadded (added0 & Ht0 & Hadded0).
  exists (added0 ++ added). split.
  - rewrite Ht, Ht0. symmetry. apply app_assoc.
  - rewrite forallb_app, Hadded0, Hadded. reflexivity.
Qed.

Lemma completes_since_sends (before : list Effect) (w w' : World) :
  sends_step w w' ->
  completes_with_protocol_since before w ->
  completes_with_protocol_since before w'.
Proof.
  intros (_ & added & Ht & Hadded).
  apply completes_since_adds with (added := added);
    [exact Ht | apply is_send_complete_with_protocol; exact Hadded].
Qed.

(** The JoinGroup response handler adds requests only; the future it
    returns has failed, or waits for the SyncGroup reply with [protocol]
    set. *)
Lemma join_response_protocol
    (policy : GroupPolicy) (before : list Effect)
    (response : JoinGroupResponse.t) (w : World) :
  completes_with_protocol_since before w ->
  join_future_ok (fst (_handle_join_group_response policy response w))
    (snd (_handle_join_group_response policy response w)) /\
  completes_with_protocol_since before
    (snd (_handle_join_group_response policy response w)).
Proof.
  intros Hsince.
  assert (H :
    join_future_ok (fst (_handle_join_group_response policy response w))
      (snd (_handle_join_group_response policy response w)) /\
    exists added,
      trace (snd (_handle_join_group_response policy response w)) =
        trace w ++ added /\ forallb is_send added = true).
  { clear Hsince. destruct_world w.
    unfold _handle_join_group_response, _on_join_leader, _on_join_follower,
      _send_sync_group_request, coordinator_unknown, coordinator_dead.
    world_cases;
      (split;
       [ first [exact I | discriminate]
       | eexists; split;
         [ first [symmetry; apply app_nil_r | reflexivity]
         | reflexivity ] ]). }
  destruct H as (Hok & added & Ht & Hadded).
  split; [exact Hok|].
  apply completes_since_adds with (added := added) (w := w);
    [exact Ht | apply is_send_complete_with_protocol; exact Hadded
    | exact Hsince].
Qed.

(** The SyncGroup response handler leaves [protocol] and the trace as
    they are, and its future is done. *)
Lemma sync_response_protocol
    (response : SyncGroupResponse.t) (w : World) :
  protocol (snd (_handle_sync_group_response response w)) = protocol w /\
  trace (snd (_handle_sync_group_response response w)) = trace w /\
  ((exists value,
      fst (_handle_sync_group_response response w) = Succeeded value) \/
   (exists exception,
      fst (_handle_sync_group_response response w) = Failed exception)).
Proof.
  destruct_world w. unfold _handle_sync_group_response, coordinator_dead.
  world_cases;
    (split; [reflexivity|]; split; [reflexivity|];
     first [left; eexists; reflexivity | right; eexists; reflexivity]).
Qed.

Lemma deliver_join_protocol
    (policy : GroupPolicy) (before : list Effect)
    (awaited : Awaited) (ev : NetEvent) (w : World) :
  join_future_ok (Pending awaited) w ->
  completes_with_protocol_since before w ->
  join_future_ok (fst (deliver policy awaited ev w))
    (snd (deliver policy awaited ev w)) /\
  completes_with_protocol_since before (snd (deliver policy awaited ev w)).
Proof.
  intros Hok Hsince.
  destruct awaited; try contradiction.
  - (* waiting for the JoinGroup reply *)
    destruct ev; cbn [deliver fst snd _failed_request];
      lazymatch goal with
      | |- context [_handle_join_group_response] =>
          apply join_response_protocol; exact Hsince
      | |- context [background ?e w] =>
          split; [exact I|];
          apply completes_since_sends with (w := w);
          [apply sends_background | exact Hsince]
      | |- context [coordinator_dead w] =>
          split; [exact I|];
          apply completes_since_sends with (w := w);
          [apply sends_coordinator_dead | exact Hsince]
      end.
  - (* waiting for the SyncGroup reply *)
    cbn [join_future_ok] in Hok.
    assert (Hbackground : forall ev',
      join_future_ok (Pending AwaitSync) (background ev' w) /\
      completes_with_protocol_since before (background ev' w)).
    { intros ev'. pose proof (sends_background ev' w) as Hstep. split.
      - cbn [join_future_ok]. destruct Hstep as [Hp _]. rewrite Hp.
        exact Hok.
      - apply completes_since_sends with (w := w); assumption. }
    destruct ev; cbn [deliver fst snd _failed_request];
      lazymatch goal with
      | |- context [background ?e w] => exact (Hbackground e)
      | _ => idtac
      end.
    + destruct (sync_response_protocol response w)
        as (Hp & Ht & [[value Hf] | [exception Hf]]);
        rewrite Hf; cbn [join_future_ok]; (split;
          [ first [rewrite Hp; exact Hok | exact I]
          | apply completes_since_adds with (added := []) (w := w);
            [ rewrite Ht; symmetry; apply app_nil_r | reflexivity
            | exact Hsince ] ]).
    + split; [exact I|].
      apply completes_since_sends with (w := w);
        [apply sends_coordinator_dead | exact Hsince].
Qed.

(** While the transport is polled for the join, the trace gains requests
    only, and a future that ends succeeded finds [protocol] set. *)
Lemma poll_join_protocol
    (policy : GroupPolicy) (before : list Effect)
    (events : list NetEvent) :
  forall future w,
    join_future_ok future w ->
    completes_with_protocol_since before w ->
    completes_with_protocol_since before
      (final (poll policy future w events)) /\
    (forall value w' rest,
       poll policy future w events = Returned (Succeeded value) w' rest ->
       protocol w' <> None).
Proof.
  induction events as [|ev events IH]; intros future w Hok Hsince.
  - destruct future as [awaited | value0 | exception]; cbn [poll final];
      (split; [exact Hsince|]); intros value w' rest H;
      inversion H; subst. exact Hok.
  - destruct future as [awaited | value0 | exception].
    + rewrite poll_pending.
      destruct (deliver_join_protocol policy before awaited ev w Hok Hsince)
        as [Hok' Hsince'].
      apply IH; assumption.
    + rewrite poll_succeeded. cbn [final]. split; [exact Hsince|].
      intros value w' rest H. inversion H; subst. exact Hok.
    + rewrite poll_failed. cbn [final]. split; [exact Hsince|].
      intros value w' rest H. discriminate H.
Qed.

Lemma Forall_trivial (events : list NetEvent) :
  Forall (fun _ : NetEvent => True) events.
Proof. apply Forall_forall. intros ev _. exact I. Qed.

Lemma ensure_coordinator_known_protocol
    (policy : GroupPolicy) (before : list Effect) (fuel : nat) (w : World)
    (events : list NetEvent) :
  completes_with_protocol_since before w ->
  completes_with_protocol_since before
    (final (ensure_coordinator_known policy fuel w events)).
Proof.
  intros Hsince.
  pose proof (ensure_coordinator_known_holds policy (fun _ => True)
                (completes_with_protocol_since before)) as H.
  assert (Hholds :
    holds (completes_with_protocol_since before) (fun _ => True)
      (ensure_coordinator_known policy fuel w events)).
  { apply H.
    - intros ev w0 _. apply completes_since_sends, sends_background.
    - intros w0. apply completes_since_sends, sends_coordinator_dead.
    - intros w0. apply completes_since_sends, sends_metadata_request.
    - intros response w0.
      apply completes_since_sends, sends_coordinator_response.
    - apply Forall_trivial.
    - exact Hsince. }
  destruct (ensure_coordinator_known policy fuel w events);
    cbn [holds final] in *; tauto.
Qed.

Lemma join_loop_protocol
    (policy : GroupPolicy) (before : list Effect) (fuel : nat) :
  forall w events,
    completes_with_protocol_since before w ->
    completes_with_protocol_since before
      (final (join_loop policy fuel w events)).
Proof.
  induction fuel as [|fuel IH]; intros w events Hsince; [exact Hsince|].
  cbn [join_loop].
  destruct (negb (need_rejoin w)); [exact Hsince|].
  pose proof (ensure_coordinator_known_protocol policy before (S fuel) w
                events Hsince) as Hdiscovery.
  destruct (ensure_coordinator_known policy (S fuel) w events)
    as [[] w1 rest1 | exception1 w1 rest1 | w1];
    cbn [bind final] in *; try exact Hdiscovery.
  pose proof (join_request_future policy w1) as Hok.
  pose proof (completes_since_sends before w1 _
                (sends_join_request policy w1) Hdiscovery) as Hsince2.
  destruct (_perform_group_join policy w1) as [future w2].
  cbn [fst snd] in Hok, Hsince2.
  destruct (poll_join_protocol policy before rest1 future w2 Hok Hsince2)
    as [Hsince3 Hprotocol].
  destruct (poll policy future w2 rest1)
    as [future' w3 rest3 | exception3 w3 rest3 | w3];
    cbn [bind final] in *; try exact Hsince3.
  destruct future' as [awaited | value | exception].
  - exact Hsince3.
  - apply IH.
    specialize (Hprotocol value w3 rest3 eq_refl).
    destruct (protocol w3) as [name|] eqn:Hp; [|contradiction].
    apply completes_since_adds
      with (added := [OnJoinComplete (generation w3) (member_id w3)
                        (Some name) value]) (w := w3);
      [ | reflexivity | exact Hsince3 ].
    destruct_world w3. cbn in Hp. subst proto.
    unfold HeartbeatTask_reset. cbn. destruct rif; reflexivity.
  - destruct (isinstance_restart exception); [apply IH; exact Hsince3|].
    destruct (negb (future_retriable exception)); [exact Hsince3|].
    apply IH.
    apply completes_since_adds
      with (added := [Sleep (retry_backoff_ms (config w3))]) (w := w3);
      [ destruct_world w3; reflexivity | reflexivity | exact Hsince3 ].
Qed.

(** X20.  [ensure_active_group] never calls [_on_join_complete] with the
    attribute [protocol] unset: whatever the state it starts from, unset
    protocol included, and whatever the transport delivers, every
    [_on_join_complete] of the run is handed a protocol that is set.
    ([__init__] does not create the attribute; the handler of a JoinGroup
    response without error is the one place that assigns it.) *)
Theorem join_complete_has_protocol
    (policy : GroupPolicy) (fuel : nat) (w : World)
    (events : list NetEvent) :
  exists added,
    trace (final (ensure_active_group policy fuel w events)) =
      trace w ++ added /\
    forallb complete_with_protocol added = true.
Proof.
  assert (Hstart : completes_with_protocol_since (trace w) w).
  { exists []. split; [symmetry; apply app_nil_r | reflexivity]. }
  unfold ensure_active_group.
  destruct (negb (need_rejoin w)); [exact Hstart|].
  apply join_loop_protocol.
  destruct (needs_join_prepare w); [|exact Hstart].
  apply completes_since_adds
    with (added := [OnJoinPrepare (generation w) (member_id w)]) (w := w);
    [ destruct_world w; reflexivity | reflexivity | exact Hstart ].
Qed.

(** ** Join and sync with the transport at work in between *)










(** That run, call by call. *)
Lemma late_heartbeat_run :
  (exists exception,
     ensure_active_group policy0 5 rebalancing_world
       [join_reply 0 2 "m1" "m2"; Clock 6000; TaskDue; sync_reply 16;
        coordinator_is_8; join_reply 30 0 "m1" "m2"] =
     Raised exception migrated_world []) /\
  coordinator_id migrated_world = Some 8 /\
  rejoin_needed migrated_world = true /\
  heartbeats_outstanding migrated_world = 1%nat /\
  In (Send (Some 7) (HeartbeatRequest "kafka-python-default-group" 2 "m1"))
    (trace migrated_world) /\
  let w' :=
    final (ensure_active_group policy0 5 migrated_world
             [join_reply 0 3 "m9" "m2"; heartbeat_reply 25; sync_reply 0]) in
  member_id w' = UNKNOWN_MEMBER_ID /\
  generation w' = 3 /\
  rejoin_needed w' = true /\
  effects_since migrated_world w' =
  [ Send (Some 8)
      (JoinGroupRequest "kafka-python-default-group" 30000 "m1" "consumer"
         [("range", [])]);
    Send (Some 8) (SyncGroupRequest "kafka-python-default-group" 3 "m9" []);
    OnJoinComplete 3 "" (Some "range") (VBytes [Byte.x0a; Byte.x0b]);
    Send (Some 8)
      (JoinGroupRequest "kafka-python-default-group" 30000 "" "consumer"
         [("range", [])]) ].
Proof.
  split.
  - eexists. vm_compute. reflexivity.
  - vm_compute. repeat split; auto 20.
Qed.
